(** * Stereo sample-synthesis pipeline: a shallow embedding of
      [dataloader/dataloader.py]

    The development follows the Python module top-down:
    - [Py]: the fragment of the Python runtime the module relies on
      (exceptions, [str] methods, [os.path.join], the [random] module);
    - [Tensor]: arrays as a shape plus row-major data, with the indexing,
      stacking and slicing operations the module performs on them;
    - the three descriptor classes ([EntityFlying3d], [EntityMiddlebury],
      [Ethe3dEntity]) with their [get_item];
    - the dataset builders ([MiddleburyDataset], [StereoDataset] and its
      manifest expansion [flow3d_driving_json]).

    Python integers are [Z]; list lengths and array extents are [nat];
    paths are [string]. *)

From Stdlib Require Import List String Ascii ZArith QArith Lia Bool Arith.
From Stdlib Require Import Permutation DecimalString Sorted.
Import ListNotations.

Set Implicit Arguments.
Local Open Scope string_scope.
Local Open Scope Z_scope.

(* ================================================================== *)
(** * The Python runtime fragment *)
(* ================================================================== *)

Module Py.

(** Exceptions that can leave the modelled code. *)
Inductive exn : Type :=
| IndexError
| KeyError
| ValueError
| TypeError
| AttributeError
| RuntimeError
| OSError.

Inductive result (A : Type) : Type :=
| Ok (a : A)
| Raise (e : exn).
Arguments Ok {A} a.
Arguments Raise {A} e.

Definition is_ok {A} (r : result A) : bool :=
  match r with Ok _ => true | Raise _ => false end.

(** ** The [random] module

    The generator state is a tape of raw draws and a read position.
    [randint a b] maps the next raw draw into the closed range
    [a..b]; [random()] maps it onto the grid [k / 2^53], [0 <= k < 2^53],
    which is exactly the set of values CPython's [random.random] returns. *)
Record rng : Type := mk_rng { tape : nat -> N; pos : nat }.

Definition draw (g : rng) : N * rng :=
  (tape g (pos g), mk_rng (tape g) (S (pos g))).

(** Computations that may raise and that consume randomness. *)
Definition M (A : Type) : Type := rng -> result (A * rng).

Definition ret {A} (a : A) : M A := fun g => Ok (a, g).

Definition bind {A B} (m : M A) (k : A -> M B) : M B :=
  fun g => match m g with
           | Ok (a, g') => k a g'
           | Raise e => Raise e
           end.

Definition raise {A} (e : exn) : M A := fun _ => Raise e.

Definition lift {A} (r : result A) : M A :=
  fun g => match r with Ok a => Ok (a, g) | Raise e => Raise e end.

Definition randint (a b : Z) : M Z :=
  fun g => let (r, g') := draw g in
           Ok (a + Z.of_N r mod (b - a + 1), g').

(** [random.random()]: the numerator [k] of the returned float [k / 2^53]. *)
Definition random : M Z :=
  fun g => let (r, g') := draw g in Ok (Z.of_N r mod 2 ^ 53, g').

(** ** Sequences *)

(** [l[i]] for a non-negative index. *)
Definition index {A} (l : list A) (i : nat) : result A :=
  match nth_error l i with
  | Some x => Ok x
  | None => Raise IndexError
  end.

(** [l[i] = x]. *)
Fixpoint setitem {A} (l : list A) (i : nat) (x : A) : result (list A) :=
  match l, i with
  | [], _ => Raise IndexError
  | _ :: t, O => Ok (x :: t)
  | h :: t, S j => match setitem t j x with
                   | Ok t' => Ok (h :: t')
                   | Raise e => Raise e
                   end
  end.

(** [l[a:b]] for non-negative bounds. *)
Definition slice {A} (l : list A) (a b : nat) : list A :=
  firstn (b - a) (skipn a l).

(** [range(n)] as a list of Python integers; empty when [n <= 0]. *)
Definition range (n : Z) : list Z :=
  map Z.of_nat (seq 0 (Z.to_nat n)).

(** ** [str] methods *)

Definition startswith (s p : string) : bool := String.prefix p s.

Definition endswith (s p : string) : bool :=
  let n := String.length s in
  let k := String.length p in
  (k <=? n)%nat && String.eqb (String.substring (n - k) k s) p.

(** [p in s]. *)
Fixpoint contains (p s : string) : bool :=
  String.prefix p s ||
  match s with
  | EmptyString => false
  | String _ s' => contains p s'
  end.

(** [replace_from old new skip s]: the scan of [str.replace] for a
    non-empty pattern, standing at the head of [s] with [skip]
    characters of an already replaced occurrence still to pass over. *)
Fixpoint replace_from (old new : string) (skip : nat) (s : string) : string :=
  match s with
  | EmptyString => EmptyString
  | String c s' =>
      match skip with
      | S k => replace_from old new k s'
      | O => if String.prefix old s
             then new ++ replace_from old new (String.length old - 1) s'
             else String c (replace_from old new 0 s')
      end
  end.

(** With an empty pattern Python inserts [new] before every character
    and at the end. *)
Fixpoint intersperse (new s : string) : string :=
  match s with
  | EmptyString => new
  | String c s' => new ++ String c (intersperse new s')
  end.

(** [s.replace(old, new)]: all non-overlapping occurrences, left to right. *)
Definition replace (s old new : string) : string :=
  match old with
  | EmptyString => intersperse new s
  | _ => replace_from old new 0 s
  end.

(** [f"{i}"] for an integer. *)
Definition str_of_int (i : Z) : string := NilZero.string_of_int (Z.to_int i).

(** [os.path.join(a, b)] on POSIX. *)
Definition path_join (a b : string) : string :=
  if startswith b "/" then b
  else if (String.eqb a "" || endswith a "/")%bool then a ++ b
  else a ++ "/" ++ b.

End Py.

Import Py.

Declare Scope py_scope.
Delimit Scope py_scope with py.
Notation "x <- m ;; k" := (bind m (fun x => k))
  (at level 61, m at next level, right associativity) : py_scope.
Notation "' pat <- m ;; k" := (bind m (fun x => match x with pat => k end))
  (at level 61, pat pattern, m at next level, right associativity) : py_scope.
Notation "m ;;; k" := (bind m (fun _ => k))
  (at level 61, right associativity) : py_scope.
Local Open Scope py_scope.

(* ================================================================== *)
(** * Arrays and tensors *)
(* ================================================================== *)

Module Tensor.

Local Open Scope list_scope.

(** Array elements: IEEE values with the finite ones kept exact.  The only
    arithmetic the module itself performs on elements (the Middlebury
    brightness offset) acts on integral 8-bit image values, where binary32
    arithmetic is exact. *)
Inductive fval : Type :=
| FNum (q : Q)
| FInf
| FNegInf
| FNaN.

(** A numpy array or torch tensor: its shape and its elements in row-major
    order. *)
Record tensor : Type := mk_tensor { shape : list nat; data : list fval }.

Definition numel (s : list nat) : nat := fold_right Nat.mul 1%nat s.

Definition dim (t : tensor) : nat := List.length (shape t).

Fixpoint shape_eqb (s1 s2 : list nat) : bool :=
  match s1, s2 with
  | [], [] => true
  | a :: s1', b :: s2' => (a =? b)%nat && shape_eqb s1' s2'
  | _, _ => false
  end.

(** [t.shape[i]]. *)
Definition shape_at (t : tensor) (i : nat) : result nat := index (shape t) i.

Definition elementwise (f : fval -> fval) (t : tensor) : tensor :=
  mk_tensor (shape t) (map f (data t)).

(** [t.unsqueeze(0)]. *)
Definition unsqueeze0 (t : tensor) : tensor :=
  mk_tensor (1%nat :: shape t) (data t).

(** [a[..., np.newaxis]]. *)
Definition newaxis_last (t : tensor) : tensor :=
  mk_tensor (shape t ++ [1%nat]) (data t).

(** [t.permute(2, 0, 1)]: height-width-channel to channel-first. *)
Definition permute201 (t : tensor) : result tensor :=
  match shape t with
  | [h; w; c] =>
      Ok (mk_tensor [c; h; w]
            (flat_map (fun ch => map (fun i => nth (i * c + ch) (data t) FNaN)
                                     (seq 0 (h * w)))
                      (seq 0 c)))
  | _ => Raise RuntimeError
  end.

(** [t.T] of a matrix. *)
Definition transpose (t : tensor) : result tensor :=
  match shape t with
  | [r; c] =>
      Ok (mk_tensor [c; r]
            (flat_map (fun j => map (fun i => nth (i * c + j) (data t) FNaN)
                                    (seq 0 r))
                      (seq 0 c)))
  | _ => Raise RuntimeError
  end.

(** [n] consecutive blocks of [k] elements. *)
Fixpoint chunks {A} (n k : nat) (l : list A) : list (list A) :=
  match n with
  | O => []
  | S n' => firstn k l :: chunks n' k (skipn k l)
  end.

(** Iterating a tensor: its slices along the first axis. *)
Definition unbind0 (t : tensor) : result (list tensor) :=
  match shape t with
  | n :: s => Ok (map (mk_tensor s) (chunks n (numel s) (data t)))
  | [] => Raise TypeError
  end.

(** [t[0]]. *)
Definition getitem0 (t : tensor) : result tensor :=
  match shape t with
  | S _ :: s => Ok (mk_tensor s (firstn (numel s) (data t)))
  | _ => Raise IndexError
  end.

(** [torch.stack(ts, dim=0)]. *)
Definition stack0 (ts : list tensor) : result tensor :=
  match ts with
  | [] => Raise RuntimeError
  | t :: _ =>
      if forallb (fun x => shape_eqb (shape x) (shape t)) ts
      then Ok (mk_tensor (List.length ts :: shape t) (flat_map data ts))
      else Raise RuntimeError
  end.

(** [torch.concat([a, b], dim=0)]. *)
Definition concat0 (a b : tensor) : result tensor :=
  match shape a, shape b with
  | na :: sa, nb :: sb =>
      if shape_eqb sa sb
      then Ok (mk_tensor ((na + nb)%nat :: sa) (data a ++ data b))
      else Raise RuntimeError
  | _, _ => Raise RuntimeError
  end.

(** [torch.concat([a, b], dim=1)]. *)
Definition concat1 (a b : tensor) : result tensor :=
  match shape a, shape b with
  | na :: ca :: sa, nb :: cb :: sb =>
      if ((na =? nb)%nat && shape_eqb sa sb)%bool
      then Ok (mk_tensor (na :: (ca + cb)%nat :: sa)
                 (List.concat (map (fun p => fst p ++ snd p)
                              (combine (chunks na (ca * numel sa) (data a))
                                       (chunks nb (cb * numel sb) (data b))))))
      else Raise RuntimeError
  | _, _ => Raise RuntimeError
  end.

(** [t[:, lo:hi]]. *)
Definition slice1 (t : tensor) (lo hi : nat) : result tensor :=
  match shape t with
  | n :: c :: s =>
      let hi' := Nat.min hi c in
      let lo' := Nat.min lo hi' in
      Ok (mk_tensor (n :: (hi' - lo')%nat :: s)
            (flat_map (fun blk => slice blk (lo' * numel s) (hi' * numel s))
                      (chunks n (c * numel s) (data t))))
  | _ => Raise IndexError
  end.

(** [a[y:y+h, x:x+w]] on an array with at least two axes. *)
Definition crop2d (t : tensor) (y x h w : nat) : result tensor :=
  match shape t with
  | rows :: cols :: s =>
      let y0 := Nat.min y rows in
      let y1 := Nat.min (y + h) rows in
      let x0 := Nat.min x cols in
      let x1 := Nat.min (x + w) cols in
      Ok (mk_tensor ((y1 - y0)%nat :: (x1 - x0)%nat :: s)
            (flat_map (fun row => slice row (x0 * numel s) (x1 * numel s))
                      (slice (chunks rows (cols * numel s) (data t)) y0 y1)))
  | _ => Raise IndexError
  end.

(** An index tensor as a float tensor. *)
Definition of_indices (l : list nat) : tensor :=
  mk_tensor [List.length l] (map (fun n => FNum (inject_Z (Z.of_nat n))) l).

(** The elements at the coordinate pairs [(v_i, u_i)] of one [h] by [w]
    plane; an out-of-range coordinate raises. *)
Fixpoint gather_plane (h w : nat) (plane : list fval) (v u : list nat)
  : result (list fval) :=
  match v, u with
  | [], [] => Ok []
  | vi :: v', ui :: u' =>
      if ((vi <? h)%nat && (ui <? w)%nat)%bool
      then match gather_plane h w plane v' u' with
           | Ok r => Ok (nth (vi * w + ui) plane FNaN :: r)
           | Raise e => Raise e
           end
      else Raise IndexError
  | _, _ => Raise IndexError
  end.

Fixpoint sequence {A} (l : list (result A)) : result (list A) :=
  match l with
  | [] => Ok []
  | Ok a :: l' => match sequence l' with
                  | Ok r => Ok (a :: r)
                  | Raise e => Raise e
                  end
  | Raise e :: _ => Raise e
  end.

(** [t[:, v, u]] on a channel-first tensor. *)
Definition gather_cvu (t : tensor) (v u : list nat) : result tensor :=
  match shape t with
  | [c; h; w] =>
      match sequence (map (fun plane => gather_plane h w plane v u)
                          (chunks c (h * w) (data t))) with
      | Ok rows => Ok (mk_tensor [c; List.length v] (List.concat rows))
      | Raise e => Raise e
      end
  | _ => Raise IndexError
  end.

(** [t[v, u]] on a matrix. *)
Definition gather_vu (t : tensor) (v u : list nat) : result tensor :=
  match shape t with
  | [h; w] =>
      match gather_plane h w (data t) v u with
      | Ok r => Ok (mk_tensor [List.length v] r)
      | Raise e => Raise e
      end
  | _ => Raise IndexError
  end.

(** [torch.randperm(n)]: the permutation is built by inserting each new
    index at a drawn position, so every permutation of [0..n-1] is the
    image of some tape. *)
Fixpoint insert_at {A} (k : nat) (x : A) (l : list A) : list A :=
  match k, l with
  | O, _ => x :: l
  | S k', [] => [x]
  | S k', h :: t => h :: insert_at k' x t
  end.

Fixpoint randperm_from (n : nat) (g : rng) : list nat * rng :=
  match n with
  | O => ([], g)
  | S n' =>
      let (p, g1) := randperm_from n' g in
      let (r, g2) := draw g1 in
      (insert_at (N.to_nat r mod (S n')) n' p, g2)
  end.

Definition randperm (n : nat) : M (list nat) :=
  fun g => Ok (randperm_from n g).

End Tensor.

Import Tensor.

(* ================================================================== *)
(** * Collaborators outside the module *)
(* ================================================================== *)

(** The third-party calls of the module: the codecs ([pfmread], PIL,
    OpenCV) and the floating-point numpy reductions.  [cv2.imread] returns
    [None] instead of raising when a file cannot be read. *)
Class External : Type := {
  pfmread_read : string -> result tensor;
  pfmread_readPFM : string -> result tensor;
  Image_open : string -> result tensor;
  cv2_imread : string -> option tensor;
  cv2_imread_grayscale : string -> option tensor;
  np_mean_last_axis : tensor -> result tensor;
  np_floor_divide : tensor -> Z -> result tensor
}.

(** The functions imported from the sibling module [image_process], whose
    source is not part of the verified files; they are parameters of the
    development.  The two randomised ones thread the generator. *)
Class ImageProcess : Type := {
  apply_patch_gamma_correction_torch : tensor -> M tensor;
  crop_and_resize_height : tensor -> M tensor;
  guided_filter : tensor -> tensor -> Z -> Q -> result tensor;
  inputs_disparity_shift :
    list tensor -> list tensor -> Z -> result (list tensor * list tensor);
  img_pad_np : tensor -> bool -> result tensor;
  pseudo_nir_np : tensor -> result tensor
}.

(** The same collaborators with another horizontal-shift helper. *)
Definition with_shift (ip : ImageProcess)
  (f : list tensor -> list tensor -> Z -> result (list tensor * list tensor))
  : ImageProcess :=
  {| apply_patch_gamma_correction_torch := apply_patch_gamma_correction_torch;
     crop_and_resize_height := crop_and_resize_height;
     guided_filter := guided_filter;
     inputs_disparity_shift := f;
     img_pad_np := img_pad_np;
     pseudo_nir_np := pseudo_nir_np |}.

Fixpoint mapM {A B} (f : A -> M B) (l : list A) : M (list B) :=
  match l with
  | [] => ret []
  | x :: l' => y <- f x ;; ys <- mapM f l' ;; ret (y :: ys)
  end.

(** The sparse sampler shared by the synthetic and the ETH3D descriptors:
    [indices = torch.randperm(H * W)[:5000]], [u = indices % W],
    [v = indices // W]. *)
Definition sample_uv (H W : nat) : M (list nat * list nat) :=
  perm <- randperm (H * W) ;;
  let indices := firstn 5000 perm in
  ret (map (fun i => (i mod W)%nat) indices, map (fun i => (i / W)%nat) indices).

(** [torch.stack((u, v, d), dim=0).T.float()]. *)
Definition stack_points (u v : list nat) (d : tensor) : result tensor :=
  match stack0 [of_indices u; of_indices v; d] with
  | Ok s => transpose s
  | Raise e => Raise e
  end.

(* ================================================================== *)
(** * class EntityFlying3d *)
(* ================================================================== *)

Module EntityFlying3d.

Inductive target : Type := rgb | nir.

Record t : Type := mk {
  images : list string;
  disparity : list string;
  guided_noise : option Z;
  gamma_noise : option Q;
  shift_filter : bool;
  vertical_scale : bool;
  noise_target : target;
  shift_distance : Z;
  disparity_right : bool;
  rgb_gt : option (list string)
}.

Definition cut_resolution : nat * nat := (540%nat, 720%nat).

(** [__init__]: stores its arguments and draws the shift distance. *)
Definition init (images disparity : list string)
  (guided_noise : option Z) (gamma_noise : option Q)
  (shift_filter vertical_scale : bool) (noise_target : target)
  (disparity_right : bool) (rgb_gt : option (list string)) : M t :=
  d <- randint 8 16 ;;
  ret (mk images disparity guided_noise gamma_noise shift_filter
          vertical_scale noise_target d disparity_right rgb_gt).

Section GetItem.

Context {ext : External} {ip : ImageProcess}.

(** [__read_img]. *)
Definition read_img (filename : string) : M tensor :=
  img <- lift (if endswith filename ".pfm"
               then pfmread_read filename
               else Image_open filename) ;;
  h <- lift (shape_at img 0) ;;
  if negb (h =? fst cut_resolution)%nat
  then lift (img_pad_np img (contains "disp" filename))
  else
    w <- lift (shape_at img 1) ;;
    if negb (w =? snd cut_resolution)%nat
    then lift (img_pad_np img (contains "disp" filename))
    else ret img.

(** [__to_tensor] on an array already in memory. *)
Definition to_tensor_array (img : tensor) : M tensor :=
  if (dim img =? 2)%nat then ret (unsqueeze0 img) else lift (permute201 img).

(** [__to_tensor] on a file name. *)
Definition to_tensor (filename : string) : M tensor :=
  img <- read_img filename ;; to_tensor_array img.

(** [images[i] = f(images[i].unsqueeze(0))[0]] for the randomised helpers. *)
Definition batched (f : tensor -> M tensor) (x : tensor) : M tensor :=
  y <- f (unsqueeze0 x) ;; lift (getitem0 y).

(** Lines 92-115: the guided-filter noise. *)
Definition apply_guided_noise (self : t) (images : list tensor)
  : M (list tensor) :=
  match guided_noise self with
  | None => ret images
  | Some gn =>
      match noise_target self with
      | rgb =>
          i2 <- lift (index images 2) ;;
          i0 <- lift (index images 0) ;;
          f0 <- lift (guided_filter i2 i0 (gn * 5 + 2) (1 # 1000000)) ;;
          images <- lift (setitem images 0 f0) ;;
          i3 <- lift (index images 3) ;;
          i1 <- lift (index images 1) ;;
          f1 <- lift (guided_filter i3 i1 (gn * 5 + 2) (1 # 1000000)) ;;
          images <- lift (setitem images 1 f1) ;;
          n <- randint 1 4 ;;
          if n =? 1 then
            i0 <- lift (index images 0) ;;
            d0 <- lift (np_floor_divide i0 50) ;;
            images <- lift (setitem images 0 d0) ;;
            i1 <- lift (index images 1) ;;
            d1 <- lift (np_floor_divide i1 50) ;;
            lift (setitem images 1 d1)
          else ret images
      | nir =>
          i0 <- lift (index images 0) ;;
          m0 <- lift (np_mean_last_axis i0) ;;
          i2 <- lift (index images 2) ;;
          f2 <- lift (guided_filter m0 (newaxis_last i2) (gn + 3) (1 # 1000000)) ;;
          images <- lift (setitem images 2 f2) ;;
          i1 <- lift (index images 1) ;;
          m1 <- lift (np_mean_last_axis i1) ;;
          i3 <- lift (index images 3) ;;
          f3 <- lift (guided_filter m1 (newaxis_last i3) (gn + 3) (1 # 1000000)) ;;
          lift (setitem images 3 f3)
      end
  end.

(** Lines 118-133: the patch gamma correction. *)
Definition apply_gamma_noise (self : t) (images : list tensor)
  : M (list tensor) :=
  match gamma_noise self with
  | None => ret images
  | Some _ =>
      let '(a, b) := match noise_target self with
                     | rgb => (0%nat, 1%nat)
                     | nir => (2%nat, 3%nat)
                     end in
      ia <- lift (index images a) ;;
      ga <- batched apply_patch_gamma_correction_torch ia ;;
      images <- lift (setitem images a ga) ;;
      ib <- lift (index images b) ;;
      gb <- batched apply_patch_gamma_correction_torch ib ;;
      lift (setitem images b gb)
  end.

(** Lines 145-163: the disparity-consistent horizontal shift. *)
Definition apply_shift (self : t) (images : list tensor)
  (disp disp_right : tensor) : M (list tensor * tensor * tensor) :=
  let images := map unsqueeze0 images in
  images <-
    match rgb_gt self with
    | Some _ =>
        i0 <- lift (index images 0) ;;
        i4 <- lift (index images 4) ;;
        c0 <- lift (concat1 i0 i4) ;;
        images <- lift (setitem images 0 c0) ;;
        i1 <- lift (index images 1) ;;
        i5 <- lift (index images 5) ;;
        c1 <- lift (concat1 i1 i5) ;;
        images <- lift (setitem images 1 c1) ;;
        ret (slice images 0 4)
    | None => ret images
    end ;;
  shifted <- lift (inputs_disparity_shift images
                     [unsqueeze0 disp; unsqueeze0 disp_right]
                     (shift_distance self)) ;;
  match shifted with
  | (images, [disp; disp_right]) =>
      images <-
        match rgb_gt self with
        | Some _ =>
            i0 <- lift (index images 0) ;;
            g0 <- lift (slice1 i0 3 6) ;;
            let images := (images ++ [g0])%list in
            i1 <- lift (index images 1) ;;
            g1 <- lift (slice1 i1 3 6) ;;
            let images := (images ++ [g1])%list in
            i0 <- lift (index images 0) ;;
            s0 <- lift (slice1 i0 0 3) ;;
            images <- lift (setitem images 0 s0) ;;
            i1 <- lift (index images 1) ;;
            s1 <- lift (slice1 i1 0 3) ;;
            lift (setitem images 1 s1)
        | None => ret images
        end ;;
      images <- mapM (fun x => lift (getitem0 x)) images ;;
      disp <- lift (getitem0 disp) ;;
      disp_right <- lift (getitem0 disp_right) ;;
      ret (images, disp, disp_right)
  | _ => raise ValueError
  end.

(** [a, b = crop_and_resize_height(torch.stack(pair, dim=0))]. *)
Definition rescale_pair (pair : list tensor) : M (tensor * tensor) :=
  s <- lift (stack0 pair) ;;
  r <- crop_and_resize_height s ;;
  parts <- lift (unbind0 r) ;;
  match parts with
  | [a; b] => ret (a, b)
  | _ => raise ValueError
  end.

(** Lines 164-178: the vertical anamorphic rescale. *)
Definition apply_vertical_scale (self : t) (images : list tensor)
  (disp disp_right : tensor) : M (list tensor * tensor * tensor) :=
  '(a, b) <- rescale_pair (slice images 0 2) ;;
  images <- lift (setitem images 0 a) ;;
  images <- lift (setitem images 1 b) ;;
  '(a, b) <- rescale_pair (slice images 2 4) ;;
  images <- lift (setitem images 2 a) ;;
  images <- lift (setitem images 3 b) ;;
  images <-
    match rgb_gt self with
    | Some _ =>
        s <- lift (stack0 (slice images 4 6)) ;;
        r <- crop_and_resize_height s ;;
        parts <- lift (unbind0 r) ;;
        ret (firstn 4 images ++ parts ++ skipn 6 images)%list
    | None => ret images
    end ;;
  disp <- batched crop_and_resize_height disp ;;
  disp_right <-
    (if disparity_right self
     then batched crop_and_resize_height disp_right
     else ret disp_right) ;;
  ret (images, disp, disp_right).

(** Lines 90-139 of [get_item]: the modality rasters with their noise, the
    sampled coordinates and the left disparity map. *)
Definition load_left (self : t)
  : M (list tensor * list nat * list nat * tensor) :=
  images <- mapM read_img (images self) ;;
  images <- apply_guided_noise self images ;;
  images <- mapM to_tensor_array images ;;
  images <- apply_gamma_noise self images ;;
  '(u, v) <- sample_uv (fst cut_resolution) (snd cut_resolution) ;;
  d0 <- lift (index (disparity self) 0) ;;
  disp <- to_tensor d0 ;;
  ret (images, u, v, disp).

(** [get_item]. *)
Definition get_item (self : t) : M (list tensor) :=
  '(images, u, v, disp) <- load_left self ;;
  d1 <- lift (index (disparity self) 1) ;;
  disp_right <- to_tensor d1 ;;
  images <-
    match rgb_gt self with
    | Some gt =>
        image_gt <- mapM (fun x => img <- read_img x ;; to_tensor_array img) gt ;;
        ret (images ++ image_gt)%list
    | None => ret images
    end ;;
  '(images, disp, disp_right) <-
    (if shift_filter self
     then apply_shift self images disp disp_right
     else ret (images, disp, disp_right)) ;;
  '(images, disp, disp_right) <-
    (if vertical_scale self
     then apply_vertical_scale self images disp disp_right
     else ret (images, disp, disp_right)) ;;
  disparity_sampled <- lift (gather_cvu disp v u) ;;
  sampled0 <- lift (getitem0 disparity_sampled) ;;
  disparity_points <- lift (stack_points u v sampled0) ;;
  disp <-
    (if disparity_right self
     then lift (concat0 disp disp_right)
     else ret disp) ;;
  ret (images ++ [disparity_points; disp])%list.

End GetItem.

End EntityFlying3d.

(* ================================================================== *)
(** * class EntityMiddlebury *)
(* ================================================================== *)

Module EntityMiddlebury.

Record t : Type := mk { disparity : string; left : string; right : string }.

(** [tensor - o] for a Python integer [o]. *)
Definition sub_scalar (o : Z) (x : fval) : fval :=
  match x with
  | FNum q => FNum (q - inject_Z o)
  | other => other
  end.

(** [torch.clip(., 0, 255)] on one element. *)
Definition clip_0_255 (x : fval) : fval :=
  match x with
  | FNum q => if Qle_bool q 0 then FNum 0
              else if Qle_bool 255 q then FNum 255 else FNum q
  | FInf => FNum 255
  | FNegInf => FNum 0
  | FNaN => FNaN
  end.

(** [d[np.isinf(d)] = 100000; d[np.isnan(d)] = 100000]. *)
Definition sanitize (x : fval) : fval :=
  match x with
  | FNum q => FNum q
  | _ => FNum 100000
  end.

Section GetItem.

Context {ext : External} {ip : ImageProcess}.

(** [cv2.imread(path)[y : y + 540, x : x + 720]]; subscripting the [None]
    of an unreadable file raises. *)
Definition imread_crop (path : string) (y x : Z) : M tensor :=
  match cv2_imread path with
  | Some img => lift (crop2d img (Z.to_nat y) (Z.to_nat x) 540 720)
  | None => raise TypeError
  end.

(** Lines 231-240: the augmentation selected by one draw in [1..100]. *)
Definition augment (left_rgb right_rgb left_nir right_nir : tensor)
  : M (tensor * tensor * tensor * tensor) :=
  nsmt <- randint 1 100 ;;
  if 70 <? nsmt then
    l <- EntityFlying3d.batched apply_patch_gamma_correction_torch left_rgb ;;
    r <- EntityFlying3d.batched apply_patch_gamma_correction_torch right_rgb ;;
    ret (l, r, left_nir, right_nir)
  else if 20 <? nsmt then
    ol <- randint 64 224 ;;
    let l := elementwise (fun p => clip_0_255 (sub_scalar ol p)) left_rgb in
    or <- randint 64 224 ;;
    let r := elementwise (fun p => clip_0_255 (sub_scalar or p)) right_rgb in
    ret (l, r, left_nir, right_nir)
  else
    l <- EntityFlying3d.batched apply_patch_gamma_correction_torch left_nir ;;
    r <- EntityFlying3d.batched apply_patch_gamma_correction_torch right_nir ;;
    ret (left_rgb, right_rgb, l, r).

(** [get_item].  [img_pad_np] is called without its keyword for the images,
    which is taken to be [pad_constant=False]. *)
Definition get_item (self : t) : M (list tensor) :=
  x <- randint 0 800 ;;
  y <- randint 0 200 ;;
  left <- imread_crop (left self) y x ;;
  right <- imread_crop (right self) y x ;;
  left_nir <- lift (pseudo_nir_np left) ;;
  right_nir <- lift (pseudo_nir_np right) ;;
  pl <- lift (img_pad_np left false) ;;
  left_rgb <- lift (permute201 pl) ;;
  pr <- lift (img_pad_np right false) ;;
  right_rgb <- lift (permute201 pr) ;;
  pln <- lift (img_pad_np left_nir false) ;;
  let left_nir := unsqueeze0 pln in
  prn <- lift (img_pad_np right_nir false) ;;
  let right_nir := unsqueeze0 prn in
  let left_rgb_original := left_rgb in
  let right_rgb_original := right_rgb in
  d <- lift (pfmread_read (disparity self)) ;;
  d <- lift (crop2d d (Z.to_nat y) (Z.to_nat x) 540 720) ;;
  let d := elementwise sanitize d in
  d <- lift (img_pad_np d true) ;;
  let disparity_left := unsqueeze0 d in
  '(left_rgb, right_rgb, left_nir, right_nir) <-
    augment left_rgb right_rgb left_nir right_nir ;;
  ret [left_rgb; right_rgb; left_nir; right_nir;
       left_rgb_original; right_rgb_original;
       disparity_left; disparity_left].

End GetItem.

End EntityMiddlebury.

(* ================================================================== *)
(** * class Ethe3dEntity *)
(* ================================================================== *)

Module Ethe3dEntity.

Local Open Scope list_scope.

Record t : Type := mk { path : string }.

(** [disparity[occ_mask < 200] = torch.inf]: the comparison on one mask
    element. *)
Definition below_200 (m : fval) : bool :=
  match m with
  | FNum q => negb (Qle_bool 200 q)
  | FNegInf => true
  | FInf | FNaN => false
  end.

Definition mask_element (d m : fval) : fval :=
  if below_200 m then FInf else d.

(** The boolean-mask assignment; the mask must have the shape of the
    array it indexes. *)
Definition mask_occluded (disparity occ_mask : tensor) : result tensor :=
  if shape_eqb (shape disparity) (shape occ_mask)
  then Ok (mk_tensor (shape disparity)
             (map (fun p => mask_element (fst p) (snd p))
                  (combine (data disparity) (data occ_mask))))
  else Raise IndexError.

Section GetItem.

Context {ext : External} {ip : ImageProcess}.

(** [img.copy()] on the result of [cv2.imread]. *)
Definition copy_of (img : option tensor) : M tensor :=
  match img with
  | Some a => ret a
  | None => raise AttributeError
  end.

(** [img_pad_np(x)] on the result of [cv2.imread]. *)
Definition pad_of (img : option tensor) : M tensor :=
  match img with
  | Some a => lift (img_pad_np a false)
  | None => raise TypeError
  end.

Definition get_item (self : t) : M (list tensor) :=
  let img_left := cv2_imread (path_join (path self) "im0.png") in
  let img_right := cv2_imread (path_join (path self) "im1.png") in
  img_left <- copy_of img_left ;;
  img_left_nir <- lift (pseudo_nir_np img_left) ;;
  img_right <- copy_of img_right ;;
  img_right_nir <- lift (pseudo_nir_np img_right) ;;
  match shape img_left with
  | H :: W :: _ =>
      let H := Nat.min H 540 in
      let W := Nat.min W 720 in
      let occ_mask :=
        cv2_imread_grayscale (path_join (path self) "mask0nocc.png") in
      disparity <- lift (pfmread_read (path_join (path self) "disp0GT.pfm")) ;;
      images <- mapM (fun x => lift (img_pad_np x false))
                  [img_left; img_right; img_left_nir; img_right_nir; disparity] ;;
      occ_mask <- pad_of occ_mask ;;
      let images := images ++ [occ_mask] in
      disparity <- lift (index images 4) ;;
      occ_mask <- lift (index images 5) ;;
      disparity <- lift (mask_occluded disparity occ_mask) ;;
      '(u, v) <- sample_uv H W ;;
      disparity_sampled <- lift (gather_vu disparity v u) ;;
      let disparity := unsqueeze0 disparity in
      i0 <- lift (index images 0) ;;
      p0 <- lift (permute201 i0) ;;
      i1 <- lift (index images 1) ;;
      p1 <- lift (permute201 i1) ;;
      i2 <- lift (index images 2) ;;
      i3 <- lift (index images 3) ;;
      disparity_points <- lift (stack_points u v disparity_sampled) ;;
      ret [p0; p1; unsqueeze0 i2; unsqueeze0 i3; disparity_points; disparity]
  | _ => raise ValueError
  end.

End GetItem.

End Ethe3dEntity.

(* ================================================================== *)
(** * Manifests and the file system *)
(* ================================================================== *)

Module Manifest.

(** Values of the keys the loader does not read: validation only asks
    whether such a value is a string. *)
Inductive jval : Type :=
| JStr (s : string)
| JOther.

(** The value under ["nir"]: a list when it comes from the JSON file, the
    pair the loader derives and stores when the key was absent. *)
Inductive nir_val : Type :=
| NirList (l : list string)
| NirTuple (a b : string).

(** One record of the manifest. *)
Record entry : Type := mk_entry {
  rgb : list string;
  disparity : list string;
  nir : option nir_val;
  others : list (string * jval)
}.

(** [key in entry] for a key other than the three above. *)
Definition has_key (key : string) (e : entry) : bool :=
  existsb (fun kv => String.eqb (fst kv) key) (others e).

(** What [json.dump] writes for a record: a tuple becomes an array. *)
Definition json_entry (e : entry) : entry :=
  mk_entry (rgb e) (disparity e)
    (match nir e with
     | Some (NirTuple a b) => Some (NirList [a; b])
     | other => other
     end)
    (others e).

Definition json_dump (m : list entry) : list entry := map json_entry m.

End Manifest.

Module FileSystem.

Inductive file : Type :=
| JsonFile (m : list Manifest.entry)
| OtherFile.

Definition t : Type := string -> option file.

(** [os.path.exists]. *)
Definition exists_ (fs : t) (p : string) : bool :=
  match fs p with Some _ => true | None => false end.

(** [with open(p, "r") as file: json.load(file)]. *)
Definition load_json (fs : t) (p : string) : result (list Manifest.entry) :=
  match fs p with
  | Some (JsonFile m) => Ok m
  | Some OtherFile => Raise ValueError
  | None => Raise OSError
  end.

(** [with open(p, "w") as file: json.dump(m, file)]. *)
Definition dump_json (fs : t) (p : string) (m : list Manifest.entry) : t :=
  fun q => if String.eqb q p then Some (JsonFile (Manifest.json_dump m)) else fs q.

End FileSystem.

(* ================================================================== *)
(** * class MiddleburyDataset *)
(* ================================================================== *)

Module MiddleburyDataset.

Local Open Scope list_scope.

(** The 100 appends of the innermost loop. *)
Definition append_100 (input_list : list EntityMiddlebury.t)
  (root file : string) : list EntityMiddlebury.t :=
  fold_left
    (fun acc _ =>
       acc ++ [EntityMiddlebury.mk
                 (path_join root file)
                 (path_join root (replace (replace file "disp0" "im0") "pfm" "png"))
                 (path_join root (replace (replace file "disp0" "im1") "pfm" "png"))])
    (range 100) input_list.

(** [__init__], on the triples [os.walk(folder)] yields. *)
Definition init (walk : list (string * list string * list string))
  : list EntityMiddlebury.t :=
  fold_left
    (fun acc '(root, _, files) =>
       fold_left
         (fun acc file =>
            if endswith file "disp0.pfm" then append_100 acc root file else acc)
         files acc)
    walk [].

End MiddleburyDataset.

(** The descriptors one file of the walk contributes. *)
Definition middlebury_of_file (root file : string) : list EntityMiddlebury.t :=
  if endswith file "disp0.pfm"
  then repeat (EntityMiddlebury.mk
                 (path_join root file)
                 (path_join root (replace (replace file "disp0" "im0") "pfm" "png"))
                 (path_join root (replace (replace file "disp0" "im1") "pfm" "png")))
              100
  else [].


(* ================================================================== *)
(** * class StereoDatasetArgs *)
(* ================================================================== *)

Module StereoDatasetArgs.

Record t : Type := mk {
  folder : string;
  flow3d_driving_json : bool;
  flying3d_json : bool;
  fast_test : bool;
  synth_no_filter : bool;
  synth_no_rgb : bool;
  validate_json : bool;
  noised_input : bool;
  shift_filter : bool;
  vertical_scale : bool;
  rgb_rendered : bool;
  disparity_right : bool;
  rgb_gt : bool;
  use_rendered_nir : bool
}.

(** The keyword defaults of [__init__]. *)
Definition default : t :=
  mk "/bean/depth" false false false false false false false false false
     false false false true.

End StereoDatasetArgs.

(* ================================================================== *)
(** * class StereoDataset *)
(* ================================================================== *)

Module StereoDataset.

Definition DRIVING_JSON : string := "flyingthings3d.json".
Definition REAL_DATA_JSON : string := "real_data.json".
Definition FLYING_JSON : string := "Flow3dFlyingThings3d.json".

Import Manifest.
Local Open Scope list_scope.

(** ** The two float expressions of the noised duplicates

    A float in [[0, 128)] is written as its numerator over [2^53]. *)

(** Round-to-nearest-even of the non-negative real [p / 2^53] to a
    53-bit significand. *)
Definition round_half_even_53 (p : Z) : Z :=
  let e := Z.log2 p - 52 in
  if e <=? 0 then p
  else
    let q := p / 2 ^ e in
    let r := p mod 2 ^ e in
    let half := 2 ^ (e - 1) in
    let q' := if r <? half then q
              else if half <? r then q + 1
              else if Z.even q then q else q + 1 in
    q' * 2 ^ e.

(** [int((r * 100) % 20)] for [r = k / 2^53]. *)
Definition guided_level (k : Z) : Z :=
  (round_half_even_53 (k * 100) mod (20 * 2 ^ 53)) / 2 ^ 53.

(** [r * 2] for [r = k / 2^53]; doubling is exact. *)
Definition gamma_level (k : Z) : Q := (2 * k) # (2 ^ 53).

Record loop_state : Type := mk_state {
  entries : list EntityFlying3d.t;
  validate_entries : list entry
}.

Section Expansion.

Context {ext : External}.
Variable args : StereoDatasetArgs.t.
Variable fs : FileSystem.t.

Import StereoDatasetArgs.

(** Line 400: the condition of the [break]; [and] binds tighter than [or]. *)
Definition cap_reached (entries : list EntityFlying3d.t) (idx : Z) : bool :=
  (fast_test args && (100000 <? Z.of_nat (List.length entries)))
  || ((20000 <? Z.of_nat (List.length entries)) && (1500 <? idx)).

Definition nir_items (n : nir_val) : list string :=
  match n with
  | NirList l => l
  | NirTuple a b => [a; b]
  end.

(** Lines 407-414: the NIR pair, read or derived and stored in the record. *)
Definition resolve_nir (e : entry) : M (nir_val * entry) :=
  match nir e with
  | Some n => ret (n, e)
  | None =>
      r0 <- lift (index (rgb e) 0) ;;
      r1 <- lift (index (rgb e) 1) ;;
      let n := NirTuple (replace r0 "frames_cleanpass" "nir_rendered")
                        (replace r1 "frames_cleanpass" "nir_rendered") in
      ret (n, mk_entry (rgb e) (disparity e) (Some n) (others e))
  end.

Definition gt_of (e : entry) : option (list string) :=
  if rgb_gt args then Some (rgb e) else None.

(** The path of rendering [i] of the left image, for a render marker. *)
Definition render_path (rgb0 marker : string) (i : Z) : string :=
  replace (replace rgb0 "frames_cleanpass" marker)
          ".png" ("_" ++ str_of_int i ++ ".png")%string.

(** Lines 429-439: the first index, from 9 down, whose renderings of both
    sides exist; [-1] when there is none. *)
Fixpoint probe_from (rgb0 marker : string) (candidates : list Z) : Z :=
  match candidates with
  | [] => -1
  | i :: rest =>
      let render_left := render_path rgb0 marker i in
      let render_right := replace render_left "left" "right" in
      if FileSystem.exists_ fs render_left && FileSystem.exists_ fs render_right
      then i
      else probe_from rgb0 marker rest
  end.

Definition probe (rgb0 marker : string) : Z :=
  probe_from rgb0 marker (map (fun ir => 9 - ir) (range 10)).

(** [for x in xs: acc = f(acc, x)] in the monad. *)
Fixpoint foldM {A B} (f : A -> B -> M A) (xs : list B) (acc : A) : M A :=
  match xs with
  | [] => ret acc
  | x :: xs' => acc' <- f acc x ;; foldM f xs' acc'
  end.

(** [random.randint(3, 8) if self.args.noised_input else None]. *)
Definition rendered_noise : M (option Z) :=
  if noised_input args
  then n <- randint 3 8 ;; ret (Some n)
  else ret None.

(** Lines 426-505: the rendered variants. *)
Definition rendered_variants (e : entry) (n : nir_val)
  (entries : list EntityFlying3d.t) : M (list EntityFlying3d.t) :=
  rgb0 <- lift (index (rgb e) 0) ;;
  let ir_gb := probe rgb0 "frame_shaded" in
  let ir_nir := if use_rendered_nir args
                then probe rgb0 "frame_shaded_nir" else -1 in
  foldM
    (fun entries ir =>
       let render := render_path rgb0 "frame_shaded" ir in
       if use_rendered_nir args then
         foldM
           (fun entries inr =>
              let render_nir := render_path rgb0 "frame_shaded_nir" inr in
              gn <- rendered_noise ;;
              d <- EntityFlying3d.init
                     [render; replace render "left" "right";
                      render_nir; replace render_nir "left" "right"]
                     (disparity e) gn None
                     (shift_filter args) (vertical_scale args)
                     EntityFlying3d.rgb (disparity_right args) (gt_of e) ;;
              ret (entries ++ [d]))
           (range ir_nir) entries
       else
         n0 <- lift (index (nir_items n) 0) ;;
         n1 <- lift (index (nir_items n) 1) ;;
         gn <- rendered_noise ;;
         d <- EntityFlying3d.init
                [render; replace render "left" "right"; n0; n1]
                (disparity e) gn None
                (shift_filter args) (vertical_scale args)
                EntityFlying3d.rgb (disparity_right args) (gt_of e) ;;
         ret (entries ++ [d]))
    (range ir_gb) entries.

(** One descriptor of lines 510-522. *)
Definition noised_descriptor (e : entry) (nir_ambient : list string)
  : M EntityFlying3d.t :=
  k1 <- random ;;
  k2 <- random ;;
  EntityFlying3d.init (rgb e ++ nir_ambient) (disparity e)
    (Some (guided_level k1)) (Some (gamma_level k2))
    (shift_filter args) (vertical_scale args)
    EntityFlying3d.rgb (disparity_right args) (gt_of e).

(** Lines 508-522: [for _ in range(5): for t in ["rgb", "nir"]: append]. *)
Definition noised_duplicates (e : entry) (nir_ambient : list string)
  (entries : list EntityFlying3d.t) : M (list EntityFlying3d.t) :=
  foldM
    (fun entries _ =>
       foldM
         (fun entries (t : string) =>
            d <- noised_descriptor e nir_ambient ;;
            ret (entries ++ [d]))
         ["rgb"; "nir"]%string entries)
    (range 5) entries.

(** Lines 525-533: no string value and no tuple value of the record names
    a missing path.  Lists, which is what JSON arrays load as, are not
    looked into. *)
Definition paths_exist (e : entry) : bool :=
  match nir e with
  | Some (NirTuple a b) => FileSystem.exists_ fs a && FileSystem.exists_ fs b
  | _ => true
  end
  && forallb (fun kv => match snd kv with
                        | JStr s => FileSystem.exists_ fs s
                        | JOther => true
                        end)
             (others e).

(** Lines 534-537: the [try] around the disparity decode. *)
Definition disparity_decodes (e : entry) : bool :=
  match index (disparity e) 0 with
  | Ok p => is_ok (pfmread_readPFM p)
  | Raise _ => false
  end.

(** Lines 407-540: the body of the loop for one retained record. *)
Definition process_record (validate : bool) (e : entry) (st : loop_state)
  : M loop_state :=
  '(n, e) <- resolve_nir e ;;
  let nir_ambient :=
    map (fun x => replace x "nir_rendered" "nir_ambient") (nir_items n) in
  entries <-
    (if negb (synth_no_rgb args) then
       d <- EntityFlying3d.init (rgb e ++ nir_ambient) (disparity e)
              None None (shift_filter args) false
              EntityFlying3d.rgb (disparity_right args) (gt_of e) ;;
       ret (entries st ++ [d])
     else ret (entries st)) ;;
  entries <-
    (if rgb_rendered args then rendered_variants e n entries
     else ret entries) ;;
  entries <-
    (if noised_input args then noised_duplicates e nir_ambient entries
     else ret entries) ;;
  let validate_entries :=
    if validate then
      if paths_exist e && disparity_decodes e
      then validate_entries st ++ [e]
      else validate_entries st
    else validate_entries st in
  ret (mk_state entries validate_entries).

(** Lines 396-540: [for idx, entry in enumerate(entries)], with the
    condition of the [break] as a parameter. *)
Fixpoint expand_from (stop : list EntityFlying3d.t -> Z -> bool)
  (validate : bool) (idx : Z) (records : list entry) (st : loop_state)
  : M loop_state :=
  match records with
  | [] => ret st
  | e :: rest =>
      if synth_no_filter args && has_key "frame_burnt_filtered" e
      then expand_from stop validate (idx + 1) rest st
      else if stop (entries st) idx then ret st
      else
        st' <- process_record validate e st ;;
        expand_from stop validate (idx + 1) rest st'
  end.

(** What the call leaves behind: the returned descriptor list, the file
    system, and the lines printed. *)
Record outcome : Type := mk_outcome {
  returned : list EntityFlying3d.t;
  files : FileSystem.t;
  printed : list string
}.

(** [flow3d_driving_json]. *)
Definition flow3d_driving_json (filename : string) (validate : bool)
  : M outcome :=
  records <- lift (FileSystem.load_json fs filename) ;;
  let error_cnt := 0 in
  st <- expand_from cap_reached validate 0 records (mk_state [] []) ;;
  if validate then
    ret (mk_outcome (entries st)
           (FileSystem.dump_json fs filename (validate_entries st))
           ["Error Cnt  " ++ str_of_int error_cnt]%string)
  else ret (mk_outcome (entries st) fs []).

(** The expansion the specification describes for an unset fast-test flag:
    the same loop with no early exit. *)
Definition expand_all_records (validate : bool) (records : list entry)
  : M loop_state :=
  expand_from (fun _ _ => false) validate 0 records (mk_state [] []).

End Expansion.

End StereoDataset.

(* ================================================================== *)
(** * Notions used in the statements, and a small concrete world *)
(* ================================================================== *)

(** An element of a color raster after the brightness offset, against the
    element it comes from: a number is brought into [[0, 255]]; a NaN, which
    no 8-bit image holds, would stay a NaN. *)
Definition clamped_from (x y : fval) : Prop :=
  match x with
  | FNaN => y = FNaN
  | _ => exists q, y = FNum q /\ (0 <= q <= 255)%Q
  end.

(** The noised duplicate built from the three tape cells starting at [p]:
    the guided-noise draw, the gamma-noise draw, and the shift distance the
    constructor draws. *)
Definition noised_from (args : StereoDatasetArgs.t) (e : Manifest.entry)
  (nir_ambient : list string) (cells : nat -> N) (p : nat) : EntityFlying3d.t :=
  EntityFlying3d.mk
    (Manifest.rgb e ++ nir_ambient)%list (Manifest.disparity e)
    (Some (StereoDataset.guided_level (Z.of_N (cells p) mod 2 ^ 53)))
    (Some (StereoDataset.gamma_level (Z.of_N (cells (p + 1)%nat) mod 2 ^ 53)))
    (StereoDatasetArgs.shift_filter args)
    (StereoDatasetArgs.vertical_scale args)
    EntityFlying3d.rgb
    (8 + Z.of_N (cells (p + 2)%nat) mod 9)
    (StereoDatasetArgs.disparity_right args)
    (StereoDataset.gt_of args e).

(** The image paths of the rendered variants of a record, in the order
    they are appended: for every color rendering index [0 <= ir < ir_gb],
    with [ir_gb] the probed color index, either one descriptor for every
    NIR rendering index [0 <= inr < ir_nir] or, when NIR renderings are not
    used, one descriptor on the record's NIR pair [n]. *)
Definition rendered_images (args : StereoDatasetArgs.t) (fs : FileSystem.t)
  (e : Manifest.entry) (n : Manifest.nir_val) : list (list string) :=
  match Manifest.rgb e with
  | [] => []
  | rgb0 :: _ =>
      flat_map
        (fun ir =>
           let render := StereoDataset.render_path rgb0 "frame_shaded" ir in
           if StereoDatasetArgs.use_rendered_nir args
           then map (fun inr =>
                       let render_nir :=
                         StereoDataset.render_path rgb0 "frame_shaded_nir" inr in
                       [render; replace render "left" "right";
                        render_nir; replace render_nir "left" "right"])
                    (range (StereoDataset.probe fs rgb0 "frame_shaded_nir"))
           else [[render; replace render "left" "right";
                  nth 0 (StereoDataset.nir_items n) EmptyString;
                  nth 1 (StereoDataset.nir_items n) EmptyString]])
        (range (StereoDataset.probe fs rgb0 "frame_shaded"))
  end%list.

(** The number of rendered variants of a record: every color rendering
    below the probed index, times every NIR rendering below its probed
    index when NIR renderings are used. *)
Definition rendered_count (args : StereoDatasetArgs.t) (fs : FileSystem.t)
  (e : Manifest.entry) : nat :=
  match Manifest.rgb e with
  | [] => 0
  | rgb0 :: _ =>
      Z.to_nat (StereoDataset.probe fs rgb0 "frame_shaded")
      * (if StereoDatasetArgs.use_rendered_nir args
         then Z.to_nat (StereoDataset.probe fs rgb0 "frame_shaded_nir")
         else 1)
  end.

(** The base descriptor of a record, built with the tape cell [p] as shift
    draw. *)
Definition base_from (args : StereoDatasetArgs.t) (e : Manifest.entry)
  (nir_ambient : list string) (cells : nat -> N) (p : nat) : EntityFlying3d.t :=
  EntityFlying3d.mk
    (Manifest.rgb e ++ nir_ambient)%list (Manifest.disparity e)
    None None
    (StereoDatasetArgs.shift_filter args) false
    EntityFlying3d.rgb
    (8 + Z.of_N (cells p) mod 9)
    (StereoDatasetArgs.disparity_right args)
    (StereoDataset.gt_of args e).

(** What a rendered variant of a record carries besides its image paths:
    the record's disparity paths, no gamma factor, and a guided-noise level
    in [3..8] exactly in noised mode. *)
Definition rendered_variant_of (args : StereoDatasetArgs.t)
  (e : Manifest.entry) (d : EntityFlying3d.t) : Prop :=
  EntityFlying3d.disparity d = Manifest.disparity e /\
  EntityFlying3d.gamma_noise d = None /\
  match EntityFlying3d.guided_noise d with
  | Some level => StereoDatasetArgs.noised_input args = true /\ 3 <= level <= 8
  | None => StereoDatasetArgs.noised_input args = false
  end.


Module Fixture.

Local Open Scope list_scope.

(** Collaborators that leave their input as it is. *)
Definition ip : ImageProcess :=
  {| apply_patch_gamma_correction_torch := fun t => ret t;
     crop_and_resize_height := fun t => ret t;
     guided_filter := fun _ x _ _ => Ok x;
     inputs_disparity_shift := fun imgs ds _ => Ok (imgs, ds);
     img_pad_np := fun t _ => Ok t;
     pseudo_nir_np :=
       fun t => match shape t with
                | h :: w :: _ =>
                    Ok (mk_tensor [h; w]
                          (map (fun i => nth (i * 3) (data t) FNaN)
                               (seq 0 (h * w))))
                | _ => Raise IndexError
                end |}.

(** A generator replaying a list of raw draws, then zeros. *)
Definition replay (draws : list N) : rng :=
  mk_rng (fun i => nth i draws 0%N) 0.

Definition white_pixel : tensor := mk_tensor [1; 1; 1]%nat [FNum 255].

(** A two by two scene: a color image, an occlusion mask with two pixels
    below 200, and a disparity map. *)
Definition image_2x2 : tensor :=
  mk_tensor [2; 2; 3]%nat
    (map (fun z => FNum (inject_Z z))
         [10; 20; 30; 40; 50; 60; 70; 80; 90; 100; 110; 120]).

Definition mask_2x2 : tensor :=
  mk_tensor [2; 2]%nat [FNum 255; FNum 0; FNum 255; FNum 199].

Definition disparity_2x2 : tensor :=
  mk_tensor [2; 2]%nat [FNum (3 # 2); FNum 2; FNum 3; FNum 4].

(** Codecs that decode every image to the scene above; [pfmread.read]
    decodes the names ending in [.pfm], [pfmread.readPFM] only [D.pfm]. *)
Definition ext : External :=
  {| pfmread_read :=
       fun p => if endswith p ".pfm" then Ok disparity_2x2 else Raise OSError;
     pfmread_readPFM :=
       fun p => if String.eqb p "D.pfm" then Ok disparity_2x2 else Raise OSError;
     Image_open := fun _ => Ok image_2x2;
     cv2_imread := fun _ => Some image_2x2;
     cv2_imread_grayscale := fun _ => Some mask_2x2;
     np_mean_last_axis := fun t => Ok t;
     np_floor_divide := fun t _ => Ok t |}.

(** A manifest record whose files all exist, and one whose disparity file
    is missing. *)
Definition good_record : Manifest.entry :=
  Manifest.mk_entry ["L.png"; "R.png"] ["D.pfm"] None [].

Definition bad_record : Manifest.entry :=
  Manifest.mk_entry ["L.png"; "R.png"] ["gone.pfm"] None [].

(** A file system holding the images [L.png], [R.png], the disparity map
    [D.pfm] and the manifest [m] under the name of the driving manifest. *)
Definition fs (m : list Manifest.entry) : FileSystem.t :=
  fun p =>
    if String.eqb p StereoDataset.DRIVING_JSON
    then Some (FileSystem.JsonFile m)
    else if existsb (String.eqb p) ["L.png"; "R.png"; "D.pfm"]%string
         then Some FileSystem.OtherFile
         else None.

(** The default arguments with noised duplicates switched on. *)
Definition noised_args : StereoDatasetArgs.t :=
  StereoDatasetArgs.mk "/bean/depth" false false false false false false
    true false false false false false true.

End Fixture.

(* ================================================================== *)
(** * Further notions used in the statements *)
(* ================================================================== *)

Unset Implicit Arguments.

(** Both sides of rendering [i] exist. *)
Definition both_rendered (fs : FileSystem.t) (rgb0 marker : string) (i : Z)
  : bool :=
  FileSystem.exists_ fs (StereoDataset.render_path rgb0 marker i)
  && FileSystem.exists_ fs
       (replace (StereoDataset.render_path rgb0 marker i) "left" "right").

(** What every descriptor built from a manifest satisfies. *)
Definition descriptor_inv (args : StereoDatasetArgs.t) (d : EntityFlying3d.t)
  : Prop :=
  EntityFlying3d.noise_target d = EntityFlying3d.rgb /\
  8 <= EntityFlying3d.shift_distance d <= 16 /\
  EntityFlying3d.shift_filter d = StereoDatasetArgs.shift_filter args /\
  EntityFlying3d.disparity_right d = StereoDatasetArgs.disparity_right args /\
  EntityFlying3d.vertical_scale d
  = (EntityFlying3d.vertical_scale d && StereoDatasetArgs.vertical_scale args)%bool /\
  match EntityFlying3d.guided_noise d with
  | Some level => StereoDatasetArgs.noised_input args = true /\ 0 <= level < 20
  | None => EntityFlying3d.gamma_noise d = None
  end /\
  match EntityFlying3d.gamma_noise d with
  | Some factor => (0 <= factor)%Q /\ (factor < 2)%Q
  | None => True
  end /\
  match EntityFlying3d.rgb_gt d with
  | Some _ => StereoDatasetArgs.rgb_gt args = true
  | None => StereoDatasetArgs.rgb_gt args = false
  end.

(** The number of descriptors one retained record expands to. *)
Definition expansion_count (args : StereoDatasetArgs.t) (fs : FileSystem.t)
  (e : Manifest.entry) : nat :=
  (if StereoDatasetArgs.synth_no_rgb args then 0 else 1)
  + (if StereoDatasetArgs.rgb_rendered args then rendered_count args fs e else 0)
  + (if StereoDatasetArgs.noised_input args then 10 else 0).

(** The default arguments with rendered variants switched on. *)
Definition rendered_args : StereoDatasetArgs.t :=
  StereoDatasetArgs.mk "/bean/depth" false false false false false false
    false false false true false false true.

(** A record of the synthetic tree, and a file system holding the color and
    NIR renderings 0 and 1 of both of its sides. *)
Definition rendered_record : Manifest.entry :=
  Manifest.mk_entry
    ["frames_cleanpass/left/1.png"; "frames_cleanpass/right/1.png"]
    ["D.pfm"] None [].

Definition rendered_fs : FileSystem.t :=
  fun p =>
    if existsb (String.eqb p)
         ["frame_shaded/left/1_0.png"; "frame_shaded/right/1_0.png";
          "frame_shaded/left/1_1.png"; "frame_shaded/right/1_1.png";
          "frame_shaded_nir/left/1_0.png"; "frame_shaded_nir/right/1_0.png";
          "frame_shaded_nir/left/1_1.png"; "frame_shaded_nir/right/1_1.png"]
    then Some FileSystem.OtherFile
    else None.

(** No other key of the record holds a string. *)
Definition no_string_values (e : Manifest.entry) : bool :=
  forallb (fun kv => match snd kv with
                     | Manifest.JStr _ => false
                     | Manifest.JOther => true
                     end)
          (Manifest.others e).

(* ================================================================== *)
(** * Lists under integer indices, and [random.sample] *)
(* ================================================================== *)

Module PySeq.

Local Open Scope list_scope.

(** [l[i]] for a Python integer: a negative index counts from the end. *)
Definition getitem {A} (l : list A) (i : Z) : result A :=
  let n := Z.of_nat (List.length l) in
  if (0 <=? i) && (i <? n) then index l (Z.to_nat i)
  else if (- n <=? i) && (i <? 0) then index l (Z.to_nat (n + i))
  else Raise IndexError.

(** The position a slice bound denotes in a list of length [n]. *)
Definition clamp (n : nat) (t : Z) : nat :=
  if t <? 0 then Z.to_nat (Z.max (Z.of_nat n + t) 0)
  else Z.to_nat (Z.min t (Z.of_nat n)).

(** [l[:t]]. *)
Definition slice_to {A} (l : list A) (t : Z) : list A :=
  firstn (clamp (List.length l) t) l.

(** [l[t:]]. *)
Definition slice_from {A} (l : list A) (t : Z) : list A :=
  skipn (clamp (List.length l) t) l.

(** [random.sample(population, len(population))]: the population in the
    order of a drawn permutation of its positions. *)
Definition sample_all {A} (population : list A) : M (list A) :=
  perm <- randperm (List.length population) ;;
  ret (flat_map (fun j => match nth_error population j with
                          | Some x => [x]
                          | None => []
                          end) perm).

End PySeq.

(* ================================================================== *)
(** * class Entity and class EntityDataSet *)
(* ================================================================== *)

Module Entity.

(** A descriptor of one of the three classes of the module, or of a class
    defined elsewhere, which is then known by its [get_item] alone. *)
Inductive t : Type :=
| Flying3d (e : EntityFlying3d.t)
| Middlebury (e : EntityMiddlebury.t)
| Ethe3d (e : Ethe3dEntity.t)
| Foreign (get_item : M (list tensor)).

Definition get_item {ext : External} {ip : ImageProcess} (e : t)
  : M (list tensor) :=
  match e with
  | Flying3d e => EntityFlying3d.get_item e
  | Middlebury e => EntityMiddlebury.get_item e
  | Ethe3d e => Ethe3dEntity.get_item e
  | Foreign get => get
  end.

End Entity.

Module EntityDataSet.

(** [__init__]: one shuffle of the descriptors. *)
Definition init (input_list : list Entity.t) : M (list Entity.t) :=
  PySeq.sample_all input_list.

(** [__getitem__]. *)
Definition getitem {ext : External} {ip : ImageProcess}
  (input_list : list Entity.t) (index : Z) : M (list tensor) :=
  e <- lift (PySeq.getitem input_list index) ;;
  Entity.get_item e.

(** [__len__]. *)
Definition len (input_list : list Entity.t) : Z :=
  Z.of_nat (List.length input_list).

End EntityDataSet.

(* ================================================================== *)
(** * StereoDataset: construction and access *)
(* ================================================================== *)

Module StereoDatasetObject.

Local Open Scope list_scope.

(** The attributes [__init__] sets; [input_list] is missing on a
    [copy_of_self] instance. *)
Record t : Type := mk {
  args : StereoDatasetArgs.t;
  cut_resolution : option (nat * nat);
  input_list : option (list EntityFlying3d.t)
}.

(** The instance, the file system and the printed lines. *)
Definition built : Type := t * FileSystem.t * list string.

Section Init.

Context {ext : External}.

(** [self.input_list += self.flow3d_driving_json(filename, validate)]. *)
Definition extend (a : StereoDatasetArgs.t) (filename : string)
  (acc : list EntityFlying3d.t * FileSystem.t * list string)
  : M (list EntityFlying3d.t * FileSystem.t * list string) :=
  let '(l, fs, out) := acc in
  o <- StereoDataset.flow3d_driving_json a fs filename
         (StereoDatasetArgs.validate_json a) ;;
  ret (l ++ StereoDataset.returned o, StereoDataset.files o,
       out ++ StereoDataset.printed o).

(** [__init__]. *)
Definition init (a : StereoDatasetArgs.t) (copy_of_self : bool)
  (cut : option (nat * nat)) (fs : FileSystem.t) : M built :=
  if copy_of_self then ret (mk a cut None, fs, [])
  else
    acc <- (if StereoDatasetArgs.flow3d_driving_json a
            then extend a StereoDataset.DRIVING_JSON ([], fs, [])
            else ret ([], fs, [])) ;;
    acc <- (if StereoDatasetArgs.flying3d_json a
            then extend a StereoDataset.FLYING_JSON acc
            else ret acc) ;;
    let '(l, fs', out) := acc in
    ret (mk a cut (Some l), fs', out).

Context {ip : ImageProcess}.

(** [__getitem__]. *)
Definition getitem (self : t) (index : Z) : M (list tensor) :=
  match input_list self with
  | None => raise AttributeError
  | Some l =>
      e <- lift (PySeq.getitem l index) ;;
      EntityFlying3d.get_item e
  end.

(** [__len__]. *)
Definition len (self : t) : result Z :=
  match input_list self with
  | None => Raise AttributeError
  | Some l => Ok (Z.of_nat (List.length l))
  end.

End Init.

End StereoDatasetObject.

(* ================================================================== *)
(** * RaftTrainer.init_dataloader *)
(* ================================================================== *)

Module RaftTrainer.

Local Open Scope list_scope.

(** The arguments of the two synthetic datasets. *)
Definition flying_args : StereoDatasetArgs.t :=
  StereoDatasetArgs.mk "/bean/depth" false true false false false false
    false true false true false false true.

Definition driving_args : StereoDatasetArgs.t :=
  StereoDatasetArgs.mk "/bean/depth" true false false false false false
    false true true true false false true.

(** The datasets handed to the samplers and loaders. *)
Record loaders : Type := mk_loaders {
  dataset_train : list Entity.t;
  dataset_valid : list Entity.t;
  files : FileSystem.t;
  printed : list string
}.

Section InitDataloader.

Context {ext : External}.

(** [init_dataloader].  The real-capture dataset is of a class defined in
    another module: [h5] is its [input_list] and [cnt] what [len] returns
    for it; [real] is
    [self.args.self_supervised_train or self.args.real_input_only]. *)
Definition init_dataloader (real : bool) (h5 : list Entity.t) (cnt : Z)
  (fs : FileSystem.t) : M loaders :=
  '(flying, fs, out1) <- StereoDatasetObject.init flying_args false None fs ;;
  '(driving, fs, out2) <- StereoDatasetObject.init driving_args false None fs ;;
  match StereoDatasetObject.input_list flying,
        StereoDatasetObject.input_list driving with
  | Some flying, Some driving =>
      let flying := map Entity.Flying3d flying in
      let driving := map Entity.Flying3d driving in
      let train_cnt := cnt - 100 in
      valid <- EntityDataSet.init (PySeq.slice_from h5 train_cnt) ;;
      train <-
        (if real then
           EntityDataSet.init
             (PySeq.slice_to h5 train_cnt
              ++ PySeq.slice_to driving (EntityDataSet.len driving / 2)
              ++ PySeq.slice_to flying (EntityDataSet.len flying / 10))
         else
           EntityDataSet.init
             (PySeq.slice_to driving (EntityDataSet.len driving)
              ++ PySeq.slice_to flying (EntityDataSet.len flying / 5))) ;;
      ret (mk_loaders train valid fs
             (out1 ++ out2 ++ [str_of_int cnt]))
  | _, _ => raise AttributeError
  end.

End InitDataloader.

End RaftTrainer.

(* ================================================================== *)
(** * A small world with both manifests *)
(* ================================================================== *)

Module World.

Local Open Scope list_scope.

(** The images and disparity map of [Fixture.fs], with a driving and a
    flying manifest. *)
Definition fs (driving flying : list Manifest.entry) : FileSystem.t :=
  fun p =>
    if String.eqb p StereoDataset.DRIVING_JSON
    then Some (FileSystem.JsonFile driving)
    else if String.eqb p StereoDataset.FLYING_JSON
         then Some (FileSystem.JsonFile flying)
         else if existsb (String.eqb p) ["L.png"; "R.png"; "D.pfm"]%string
              then Some FileSystem.OtherFile
              else None.

(** A descriptor of a class defined elsewhere, returning [n] rasters of
    no content. *)
Definition foreign (n : nat) : Entity.t :=
  Entity.Foreign (ret (repeat (mk_tensor [] []) n)).

End World.

(* ================================================================== *)
(** * Notions used in the statements about the descriptors *)
(* ================================================================== *)

(** The positions of the image list that noise on the given target
    leaves alone. *)
Definition untouched_by (target : EntityFlying3d.target) (j : nat) : bool :=
  match target with
  | EntityFlying3d.rgb => (2 <=? j)%nat
  | EntityFlying3d.nir => negb (j =? 2)%nat && negb (j =? 3)%nat
  end.

(** Codecs decoding every file to the raster [d]. *)
Definition constant_ext (d : tensor) : External :=
  {| pfmread_read := fun _ => Ok d;
     pfmread_readPFM := fun _ => Ok d;
     Image_open := fun _ => Ok d;
     cv2_imread := fun _ => Some d;
     cv2_imread_grayscale := fun _ => Some d;
     np_mean_last_axis := fun t => Ok t;
     np_floor_divide := fun t _ => Ok t |}.



(** A color raster of 740 rows and 1520 columns. *)
Definition large_frame : tensor :=
  mk_tensor [740; 1520; 3]%nat (repeat (FNum 0) (740 * 1520 * 3)).

(** The number of leading image paths the noise settings of a descriptor
    subscript: the guided filter reads positions 0 to 3 whatever its target,
    the gamma correction positions 0 and 1 on the color target and 2 and 3
    on the NIR target. *)
Definition images_needed (self : EntityFlying3d.t) : nat :=
  match EntityFlying3d.guided_noise self, EntityFlying3d.gamma_noise self,
        EntityFlying3d.noise_target self with
  | Some _, _, _ => 4
  | None, Some _, EntityFlying3d.nir => 4
  | None, Some _, EntityFlying3d.rgb => 2
  | None, None, _ => 0
  end.

(* ================================================================== *)
(** * [os.path.dirname] and class Ethe3dStereo *)
(* ================================================================== *)

Module PosixPath.

Definition is_sep (c : ascii) : bool := Ascii.eqb c "/".

(** ["/" in s]. *)
Fixpoint has_sep (s : string) : bool :=
  match s with
  | EmptyString => false
  | String c r => is_sep c || has_sep r
  end.

(** [s == "/" * len(s)]. *)
Fixpoint all_sep (s : string) : bool :=
  match s with
  | EmptyString => true
  | String c r => is_sep c && all_sep r
  end.

(** [p[: p.rfind("/") + 1]]. *)
Fixpoint head_of (p : string) : string :=
  match p with
  | EmptyString => EmptyString
  | String c r => if has_sep p then String c (head_of r) else EmptyString
  end.

(** [s.rstrip("/")]. *)
Fixpoint rstrip_sep (s : string) : string :=
  match s with
  | EmptyString => EmptyString
  | String c r => if all_sep s then EmptyString else String c (rstrip_sep r)
  end.

(** [os.path.dirname(p)] on POSIX. *)
Definition dirname (p : string) : string :=
  let head := head_of p in
  if (negb (String.eqb head "") && negb (all_sep head))%bool
  then rstrip_sep head
  else head.

End PosixPath.

Module Ethe3dStereo.

Local Open Scope list_scope.

Definition root : string := "/bean/eth3d/stereo".

(** The loop of [__init__] over the names [os.listdir] returned. *)
Definition frames_of (fs : FileSystem.t) (names : list string)
  : list Ethe3dEntity.t :=
  fold_left
    (fun frames frame =>
       let path_left := path_join (path_join root frame) "im0.png" in
       if FileSystem.exists_ fs path_left
       then frames ++ [Ethe3dEntity.mk (PosixPath.dirname path_left)]
       else frames)
    names [].

(** [__init__]; [listdir] is [os.listdir], which raises on a missing
    directory. *)
Definition init (listdir : string -> result (list string))
  (fs : FileSystem.t) : M (list Ethe3dEntity.t) :=
  names <- lift (listdir root) ;;
  PySeq.sample_all (frames_of fs names).

End Ethe3dStereo.

(** A name as [os.listdir] returns them: not empty and free of
    separators. *)
Definition entry_name (n : string) : Prop :=
  n <> EmptyString /\ PosixPath.has_sep n = false.

(** A directory listing of two frames, the left image of the first of which
    exists. *)
Definition two_frames_listdir (p : string) : result (list string) :=
  if String.eqb p Ethe3dStereo.root then Ok ["delivery_1l"; "readme"]
  else Raise OSError.

Definition two_frames_fs : FileSystem.t :=
  fun p => if String.eqb p "/bean/eth3d/stereo/delivery_1l/im0.png"
           then Some FileSystem.OtherFile else None.

Set Implicit Arguments.

(* ================================================================== *)
(** * Properties *)
(* ================================================================== *)

Unset Implicit Arguments.

(** ** The runtime fragment on examples *)

Example replace_ex1 : replace "a/frames_cleanpass/left/0006.png" "frames_cleanpass" "nir_rendered"
                      = "a/nir_rendered/left/0006.png".
Proof. reflexivity. Qed.

Example replace_ex2 : replace (replace "xdisp0.pfm" "disp0" "im0") "pfm" "png" = "xim0.png".
Proof. reflexivity. Qed.

Example replace_ex3 : replace "aaa" "aa" "b" = "ba".
Proof. reflexivity. Qed.

Example str_of_int_ex : str_of_int 7 = "7".
Proof. reflexivity. Qed.

Example endswith_ex : endswith "scene/disp0.pfm" "disp0.pfm" = true.
Proof. reflexivity. Qed.

Example path_join_ex : path_join "data/middlebury/Adirondack" "disp0.pfm"
                       = "data/middlebury/Adirondack/disp0.pfm".
Proof. reflexivity. Qed.

(** ** Reasoning about monadic code *)

Lemma bind_ok {A B} (m : M A) (k : A -> M B) g b g' :
  bind m k g = Ok (b, g') ->
  exists a g1, m g = Ok (a, g1) /\ k a g1 = Ok (b, g').
Proof.
  unfold bind. destruct (m g) as [[a g1]|e]; [eauto | discriminate].
Qed.

Lemma lift_ok {A} (r : result A) g a g' :
  lift r g = Ok (a, g') -> r = Ok a /\ g' = g.
Proof.
  unfold lift. destruct r; intros H; inversion H; auto.
Qed.

Lemma ret_ok {A} (a : A) g b g' : ret a g = Ok (b, g') -> b = a /\ g' = g.
Proof. unfold ret. intros H; inversion H; auto. Qed.

Lemma bind_ext {A B} (m : M A) (k1 k2 : A -> M B) g :
  (forall a g1, k1 a g1 = k2 a g1) -> bind m k1 g = bind m k2 g.
Proof.
  intros H. unfold bind. destruct (m g) as [[a g1]|e]; auto.
Qed.

Lemma randint_ok a b g :
  a <= b ->
  exists n, randint a b g = Ok (n, mk_rng (tape g) (S (pos g))) /\
            n = a + Z.of_N (tape g (pos g)) mod (b - a + 1) /\ a <= n <= b.
Proof.
  intros Hab. unfold randint, draw. eexists. split; [reflexivity|].
  split; [reflexivity|].
  pose proof (Z.mod_pos_bound (Z.of_N (tape g (pos g))) (b - a + 1)).
  lia.
Qed.

(** ** The Middlebury dataset builder *)

Lemma fold_left_append_const {A B} (x : A) (l : list B) (acc : list A) :
  fold_left (fun acc _ => (acc ++ [x])%list) l acc
  = (acc ++ repeat x (List.length l))%list.
Proof.
  revert acc. induction l as [|b l IH]; intros acc; simpl.
  - now rewrite app_nil_r.
  - rewrite IH, <- app_assoc. reflexivity.
Qed.

Lemma append_100_repeat acc root file :
  MiddleburyDataset.append_100 acc root file
  = (acc ++ repeat (EntityMiddlebury.mk
                      (path_join root file)
                      (path_join root (replace (replace file "disp0" "im0") "pfm" "png"))
                      (path_join root (replace (replace file "disp0" "im1") "pfm" "png")))
                   100)%list.
Proof.
  unfold MiddleburyDataset.append_100. rewrite fold_left_append_const.
  reflexivity.
Qed.

Lemma middlebury_files_fold root files acc :
  fold_left
    (fun acc file =>
       if endswith file "disp0.pfm"
       then MiddleburyDataset.append_100 acc root file else acc)
    files acc
  = (acc ++ flat_map (middlebury_of_file root) files)%list.
Proof.
  revert acc. induction files as [|f files IH]; intros acc; simpl.
  - now rewrite app_nil_r.
  - rewrite IH. unfold middlebury_of_file at 2.
    destruct (endswith f "disp0.pfm").
    + rewrite append_100_repeat, <- app_assoc. reflexivity.
    + reflexivity.
Qed.

(** C10. For every file whose name ends in [disp0.pfm] met while walking
    the Middlebury folder, the constructor appends exactly 100 descriptors,
    all with that file as disparity path and, as color paths, the names
    obtained from it by replacing [disp0] with [im0] (resp. [im1]) and
    [pfm] with [png]; other files contribute nothing, and the order of the
    walk is kept. *)
Theorem middlebury_init_100_per_disparity_file
  (walk : list (string * list string * list string)) :
  MiddleburyDataset.init walk
  = flat_map
      (fun '(root, _, files) =>
         flat_map
           (fun file =>
              if endswith file "disp0.pfm"
              then repeat
                     (EntityMiddlebury.mk
                        (path_join root file)
                        (path_join root
                           (replace (replace file "disp0" "im0") "pfm" "png"))
                        (path_join root
                           (replace (replace file "disp0" "im1") "pfm" "png")))
                     100
              else [])
           files)
      walk.
Proof.
  unfold MiddleburyDataset.init.
  enough (forall acc,
    fold_left
      (fun acc '(root, _, files) =>
         fold_left
           (fun acc file =>
              if endswith file "disp0.pfm"
              then MiddleburyDataset.append_100 acc root file else acc)
           files acc)
      walk acc
    = (acc ++ flat_map (fun '(root, _, files) =>
                          flat_map (middlebury_of_file root) files) walk)%list)
    as H by apply (H []).
  induction walk as [|[[root dirs] files] walk IH]; intros acc; simpl.
  - now rewrite app_nil_r.
  - rewrite IH, middlebury_files_fold, <- app_assoc. reflexivity.
Qed.

Example middlebury_init_ex :
  MiddleburyDataset.init
    [("data/middlebury", ["Piano"], ["readme.txt"]);
     ("data/middlebury/Piano", [], ["disp0.pfm"; "disp1.pfm"; "im0.png"])]
  = repeat (EntityMiddlebury.mk "data/middlebury/Piano/disp0.pfm"
                                "data/middlebury/Piano/im0.png"
                                "data/middlebury/Piano/im1.png") 100.
Proof. vm_compute. reflexivity. Qed.

(** ** The sparse sampler *)

Lemma insert_at_perm {A} (k : nat) (x : A) (l : list A) :
  Permutation (insert_at k x l) (x :: l).
Proof.
  revert k. induction l as [|h t IH]; intros [|k]; simpl; auto.
  rewrite IH. apply perm_swap.
Qed.

Lemma randperm_from_perm (n : nat) (g : rng) :
  Permutation (fst (randperm_from n g)) (seq 0 n).
Proof.
  induction n as [|n IH]; [constructor|].
  change (randperm_from (S n) g)
    with (let (p, g1) := randperm_from n g in
          let (r, g2) := draw g1 in
          (insert_at (N.to_nat r mod (S n)) n p, g2)).
  destruct (randperm_from n g) as [p g1]. unfold draw. cbn [fst] in *.
  rewrite insert_at_perm, seq_S. cbn [Nat.add].
  transitivity (n :: seq 0 n).
  - now constructor.
  - apply Permutation_cons_append.
Qed.

Lemma NoDup_firstn {A} (k : nat) (l : list A) : NoDup l -> NoDup (firstn k l).
Proof.
  intros H. rewrite <- (firstn_skipn k l) in H.
  now apply NoDup_app_remove_r in H.
Qed.

Lemma In_firstn {A} (k : nat) (l : list A) (x : A) :
  In x (firstn k l) -> In x l.
Proof.
  intros H. rewrite <- (firstn_skipn k l). apply in_or_app. now left.
Qed.

Lemma combine_map_same {A B C} (f : A -> B) (h : A -> C) (l : list A) :
  combine (map f l) (map h l) = map (fun i => (f i, h i)) l.
Proof. induction l; simpl; congruence. Qed.

Lemma row_major_inj (W i j : nat) :
  ((i mod W)%nat, (i / W)%nat) = ((j mod W)%nat, (j / W)%nat) -> i = j.
Proof.
  intros E. inversion E as [[Em Ed]].
  rewrite (Nat.div_mod_eq i W), (Nat.div_mod_eq j W). congruence.
Qed.

Lemma row_major_bounds (H W i : nat) :
  (i < H * W)%nat -> (i mod W < W)%nat /\ (i / W < H)%nat.
Proof.
  intros Hi. assert (W <> 0)%nat by (intros ->; lia).
  split.
  - now apply Nat.mod_upper_bound.
  - apply Nat.Div0.div_lt_upper_bound. lia.
Qed.

Lemma sample_uv_props (H W : nat) (g : rng) :
  exists u v g',
    sample_uv H W g = Ok ((u, v), g') /\
    List.length u = Nat.min 5000 (H * W) /\
    List.length v = List.length u /\
    NoDup (combine u v) /\
    Forall (fun p => (fst p < W)%nat /\ (snd p < H)%nat) (combine u v).
Proof.
  unfold sample_uv, randperm, bind, ret.
  pose proof (randperm_from_perm (H * W) g) as P.
  destruct (randperm_from (H * W) g) as [perm g1]. simpl in P.
  do 3 eexists. split; [reflexivity|].
  assert (Hlen : List.length perm = (H * W)%nat).
  { rewrite (Permutation_length P). apply length_seq. }
  assert (Hnd : NoDup perm).
  { apply (Permutation_NoDup (Permutation_sym P)), seq_NoDup. }
  assert (Hin : forall i, In i (firstn 5000 perm) -> (i < H * W)%nat).
  { intros i Hi. apply In_firstn in Hi.
    apply (Permutation_in _ P), in_seq in Hi. lia. }
  repeat split.
  - rewrite length_map, length_firstn, Hlen. reflexivity.
  - now rewrite !length_map.
  - rewrite combine_map_same.
    apply NoDup_map_NoDup_ForallPairs; [|now apply NoDup_firstn].
    intros i j _ _ E. now apply row_major_inj in E.
  - rewrite combine_map_same. apply Forall_forall.
    intros p Hp. apply in_map_iff in Hp. destruct Hp as (i & <- & Hi).
    simpl. apply row_major_bounds. now apply Hin.
Qed.

(** C8. The coordinate pairs drawn by the sparse sampler, which both the
    synthetic descriptor (on the 540 by 720 frame) and the ETH3D descriptor
    (on the frame clipped to 540 by 720) call: [min 5000 (H*W)] pairs are
    returned, they are pairwise distinct, and each satisfies
    [0 <= u < W] and [0 <= v < H]. *)
Theorem sample_uv_distinct_in_bounds (H W : nat) (g : rng) :
  exists u v g',
    sample_uv H W g = Ok ((u, v), g') /\
    List.length u = Nat.min 5000 (H * W) /\
    List.length v = List.length u /\
    NoDup (combine u v) /\
    Forall (fun p => (fst p < W)%nat /\ (snd p < H)%nat) (combine u v).
Proof. exact (sample_uv_props H W g). Qed.

(** ** The synthetic descriptor *)

Lemma apply_shift_agree {ext : External} (ip : ImageProcess) f1 f2
  (self : EntityFlying3d.t) images disp disp_right g :
  (forall imgs ds, f1 imgs ds (EntityFlying3d.shift_distance self)
                   = f2 imgs ds (EntityFlying3d.shift_distance self)) ->
  EntityFlying3d.apply_shift (ip := with_shift ip f1) self images disp disp_right g
  = EntityFlying3d.apply_shift (ip := with_shift ip f2) self images disp disp_right g.
Proof.
  intros H. unfold EntityFlying3d.apply_shift.
  apply bind_ext. intros imgs g1. cbn [inputs_disparity_shift with_shift].
  rewrite H. reflexivity.
Qed.

(** C9. The shift distance is drawn once, by the constructor, in [8..16]
    and stored in the descriptor; a descriptor is an immutable value that
    [get_item] only reads, and every call of [get_item], whatever the state
    of the generator, consults the horizontal-shift helper at that stored
    distance only: two helpers that agree at the stored distance give the
    same result. *)
Theorem shift_distance_fixed_at_construction
  {ext : External} (ip : ImageProcess) f1 f2
  images disparity guided_noise gamma_noise shift_filter vertical_scale
  noise_target disparity_right rgb_gt (g : rng) :
  exists self,
    EntityFlying3d.init images disparity guided_noise gamma_noise shift_filter
      vertical_scale noise_target disparity_right rgb_gt g
    = Ok (self, mk_rng (tape g) (S (pos g))) /\
    self = EntityFlying3d.mk images disparity guided_noise gamma_noise
             shift_filter vertical_scale noise_target
             (8 + Z.of_N (tape g (pos g)) mod 9) disparity_right rgb_gt /\
    8 <= EntityFlying3d.shift_distance self <= 16 /\
    forall g2,
      (forall imgs ds, f1 imgs ds (EntityFlying3d.shift_distance self)
                       = f2 imgs ds (EntityFlying3d.shift_distance self)) ->
      EntityFlying3d.get_item (ip := with_shift ip f1) self g2
      = EntityFlying3d.get_item (ip := with_shift ip f2) self g2.
Proof.
  eexists. split; [reflexivity|]. split; [reflexivity|]. split.
  - cbn [EntityFlying3d.shift_distance]. change (16 - 8 + 1) with 9.
    pose proof (Z.mod_pos_bound (Z.of_N (tape g (pos g))) 9). lia.
  - intros g2 H. unfold EntityFlying3d.get_item.
    apply bind_ext. intros [[[imgs u] v] disp] g3.
    apply bind_ext. intros d1 g4.
    apply bind_ext. intros disp_right g5.
    apply bind_ext. intros imgs' g6.
    destruct shift_filter; cbn [EntityFlying3d.shift_filter].
    + unfold bind at 1 3. erewrite apply_shift_agree by exact H. reflexivity.
    + reflexivity.
Qed.

Lemma get_item_without_right_disparity {ext : External} {ip : ImageProcess}
  (self : EntityFlying3d.t) (g : rng) :
  index (EntityFlying3d.disparity self) 1 = Raise IndexError ->
  EntityFlying3d.get_item self g
  = match EntityFlying3d.load_left self g with
    | Ok _ => Raise IndexError
    | Raise e => Raise e
    end.
Proof.
  intros H. unfold EntityFlying3d.get_item, bind at 1.
  destruct (EntityFlying3d.load_left self g) as [[[[[imgs u] v] disp] g1]|e];
    [|reflexivity].
  unfold bind at 1. rewrite H. reflexivity.
Qed.

(** C1 (as the code behaves). A descriptor built from the color pair
    [L.png], [R.png] and the single disparity path [D.pfm], with no shift
    and no vertical rescale, never returns from [get_item]: line 141 reads
    [self.disparity[1]] whatever the [disparity_right] flag, so once the
    rasters and the left disparity are loaded the call raises [IndexError];
    if loading fails, that failure is raised instead. *)
Theorem get_item_single_disparity_raises
  {ext : External} {ip : ImageProcess}
  guided_noise gamma_noise noise_target shift_distance disparity_right rgb_gt
  (g : rng) :
  let self :=
    EntityFlying3d.mk ["L.png"; "R.png"; "L.png"; "R.png"] ["D.pfm"]
      guided_noise gamma_noise false false noise_target shift_distance
      disparity_right rgb_gt in
  EntityFlying3d.get_item self g
  = match EntityFlying3d.load_left self g with
    | Ok _ => Raise IndexError
    | Raise e => Raise e
    end
  /\ forall out g', EntityFlying3d.get_item self g <> Ok (out, g').
Proof.
  intros self.
  assert (E : EntityFlying3d.get_item self g
              = match EntityFlying3d.load_left self g with
                | Ok _ => Raise IndexError
                | Raise e => Raise e
                end)
    by (apply get_item_without_right_disparity; reflexivity).
  split; [exact E|].
  intros out g'. rewrite E.
  destruct (EntityFlying3d.load_left self g); discriminate.
Qed.

(** ** The Middlebury augmentation *)

Lemma clip_sub_clamped (o : Z) (x : fval) :
  clamped_from x (EntityMiddlebury.clip_0_255 (EntityMiddlebury.sub_scalar o x)).
Proof.
  destruct x as [q| | |]; simpl.
  - destruct (Qle_bool (q - inject_Z o) 0) eqn:E0.
    + exists 0%Q. split; [reflexivity|]. split; [apply Qle_refl|discriminate].
    + destruct (Qle_bool 255 (q - inject_Z o)) eqn:E1.
      * exists 255%Q. split; [reflexivity|]. split; [discriminate|apply Qle_refl].
      * exists (q - inject_Z o)%Q. split; [reflexivity|].
        split.
        -- destruct (Qlt_le_dec 0 (q - inject_Z o)) as [L|L].
           ++ now apply Qlt_le_weak.
           ++ apply Qle_bool_iff in L. congruence.
        -- destruct (Qlt_le_dec (q - inject_Z o) 255) as [L|L].
           ++ now apply Qlt_le_weak.
           ++ apply Qle_bool_iff in L. congruence.
  - exists 255%Q. split; [reflexivity|]. split; [discriminate|apply Qle_refl].
  - exists 0%Q. split; [reflexivity|]. split; [apply Qle_refl|discriminate].
  - reflexivity.
Qed.

Lemma Forall2_map_r {A B} (P : A -> B -> Prop) (f : A -> B) (l : list A) :
  (forall x, P x (f x)) -> Forall2 P l (map f l).
Proof. intros H. induction l; simpl; constructor; auto. Qed.

(** The three branches of lines 231-240 on any four images. *)
Lemma augment_branches {ip : ImageProcess}
  (left_rgb right_rgb left_nir right_nir : tensor) (g : rng) :
  let gamma := EntityFlying3d.batched apply_patch_gamma_correction_torch in
  let g1 := mk_rng (tape g) (S (pos g)) in
  exists nsmt,
    randint 1 100 g = Ok (nsmt, g1) /\ 1 <= nsmt <= 100 /\
    ((70 < nsmt /\
      EntityMiddlebury.augment left_rgb right_rgb left_nir right_nir g
      = (l <- gamma left_rgb ;; r <- gamma right_rgb ;;
         ret (l, r, left_nir, right_nir)) g1)
     \/
     (20 < nsmt <= 70 /\
      exists ol or,
        randint 64 224 g1 = Ok (ol, mk_rng (tape g) (S (S (pos g)))) /\
        randint 64 224 (mk_rng (tape g) (S (S (pos g))))
        = Ok (or, mk_rng (tape g) (S (S (S (pos g))))) /\
        64 <= ol <= 224 /\ 64 <= or <= 224 /\
        let l := elementwise (fun p => EntityMiddlebury.clip_0_255
                                         (EntityMiddlebury.sub_scalar ol p))
                             left_rgb in
        let r := elementwise (fun p => EntityMiddlebury.clip_0_255
                                         (EntityMiddlebury.sub_scalar or p))
                             right_rgb in
        EntityMiddlebury.augment left_rgb right_rgb left_nir right_nir g
        = Ok ((l, r, left_nir, right_nir), mk_rng (tape g) (S (S (S (pos g))))) /\
        Forall2 clamped_from (data left_rgb) (data l) /\
        Forall2 clamped_from (data right_rgb) (data r))
     \/
     (nsmt <= 20 /\
      EntityMiddlebury.augment left_rgb right_rgb left_nir right_nir g
      = (l <- gamma left_nir ;; r <- gamma right_nir ;;
         ret (left_rgb, right_rgb, l, r)) g1)).
Proof.
  intros gamma g1.
  destruct (randint_ok 1 100 g) as (nsmt & E & _ & R); [lia|].
  exists nsmt. split; [exact E|]. split; [exact R|].
  assert (U : forall k : Z -> M (tensor * tensor * tensor * tensor),
             bind (randint 1 100) k g = k nsmt g1)
    by (intros k; unfold bind; rewrite E; reflexivity).
  unfold EntityMiddlebury.augment. rewrite !U. clear U.
  destruct (70 <? nsmt) eqn:E70.
  - left. apply Z.ltb_lt in E70. split; [exact E70|reflexivity].
  - apply Z.ltb_ge in E70. destruct (20 <? nsmt) eqn:E20.
    + right; left. apply Z.ltb_lt in E20. split; [lia|].
      destruct (randint_ok 64 224 g1) as (ol & El & _ & Rl); [lia|].
      destruct (randint_ok 64 224 (mk_rng (tape g) (S (S (pos g)))))
        as (or & Er & _ & Rr); [lia|].
      exists ol, or. cbn [tape pos g1] in El, Er.
      split; [exact El|]. split; [exact Er|]. split; [exact Rl|].
      split; [exact Rr|]. cbv zeta.
      split.
      * unfold bind. rewrite El, Er. reflexivity.
      * split; apply Forall2_map_r; intros x; apply clip_sub_clamped.
    + right; right. apply Z.ltb_ge in E20. split; [lia|reflexivity].
Qed.

Lemma imread_crop_ok {ext : External} (path : string) (y x : Z) g c g' :
  EntityMiddlebury.imread_crop path y x g = Ok (c, g') ->
  exists img, cv2_imread path = Some img /\
              crop2d img (Z.to_nat y) (Z.to_nat x) 540 720 = Ok c /\ g' = g.
Proof.
  unfold EntityMiddlebury.imread_crop.
  destruct (cv2_imread path) as [img|]; [|discriminate].
  intros H. apply lift_ok in H. destruct H as [H ->]. eauto.
Qed.

(** The steps of a Middlebury access that returns, up to the augmentation:
    the two offsets come from the first two tape cells, the four images are
    built from the crops, and the augmentation runs on them from the third
    cell on. *)
Lemma middlebury_get_item_steps {ext : External} {ip : ImageProcess}
  (self : EntityMiddlebury.t) (g : rng) (out : list tensor) (g' : rng) :
  EntityMiddlebury.get_item self g = Ok (out, g') ->
  exists (x y : Z) iml imr cl cr nl nr pl pr pln prn lo ro d l r ln rn,
    (0 <= x <= 800 /\ 0 <= y <= 200) /\
    (cv2_imread (EntityMiddlebury.left self) = Some iml /\
     crop2d iml (Z.to_nat y) (Z.to_nat x) 540 720 = Ok cl /\
     pseudo_nir_np cl = Ok nl /\
     img_pad_np cl false = Ok pl /\ permute201 pl = Ok lo /\
     img_pad_np nl false = Ok pln) /\
    (cv2_imread (EntityMiddlebury.right self) = Some imr /\
     crop2d imr (Z.to_nat y) (Z.to_nat x) 540 720 = Ok cr /\
     pseudo_nir_np cr = Ok nr /\
     img_pad_np cr false = Ok pr /\ permute201 pr = Ok ro /\
     img_pad_np nr false = Ok prn) /\
    EntityMiddlebury.augment lo ro (unsqueeze0 pln) (unsqueeze0 prn)
      (mk_rng (tape g) (S (S (pos g))))
    = Ok ((l, r, ln, rn), g') /\
    out = [l; r; ln; rn; lo; ro; d; d].
Proof.
  intros H. unfold EntityMiddlebury.get_item in H.
  destruct (randint_ok 0 800 g ltac:(lia)) as (x & Ex & _ & Hx).
  apply bind_ok in H. destruct H as (x' & gx & Hx' & H).
  rewrite Ex in Hx'.
  assert (x' = x) by congruence.
  assert (gx = mk_rng (tape g) (S (pos g))) by congruence. subst x' gx.
  destruct (randint_ok 0 200 (mk_rng (tape g) (S (pos g))) ltac:(lia))
    as (y & Ey & _ & Hy).
  cbn [tape pos] in Ey.
  apply bind_ok in H. destruct H as (y' & gy & Hy' & H).
  rewrite Ey in Hy'.
  assert (y' = y) by congruence.
  assert (gy = mk_rng (tape g) (S (S (pos g)))) by congruence. subst y' gy.
  apply bind_ok in H. destruct H as (cl & g1 & Hcl & H).
  apply imread_crop_ok in Hcl. destruct Hcl as (iml & Il & Cl & ->).
  apply bind_ok in H. destruct H as (cr & g1 & Hcr & H).
  apply imread_crop_ok in Hcr. destruct Hcr as (imr & Ir & Cr & ->).
  apply bind_ok in H. destruct H as (nl & g1 & Hnl & H).
  apply lift_ok in Hnl. destruct Hnl as [Hnl ->].
  apply bind_ok in H. destruct H as (nr & g1 & Hnr & H).
  apply lift_ok in Hnr. destruct Hnr as [Hnr ->].
  apply bind_ok in H. destruct H as (pl & g1 & Hpl & H).
  apply lift_ok in Hpl. destruct Hpl as [Hpl ->].
  apply bind_ok in H. destruct H as (lo & g1 & Hlo & H).
  apply lift_ok in Hlo. destruct Hlo as [Hlo ->].
  apply bind_ok in H. destruct H as (pr & g1 & Hpr & H).
  apply lift_ok in Hpr. destruct Hpr as [Hpr ->].
  apply bind_ok in H. destruct H as (ro & g1 & Hro & H).
  apply lift_ok in Hro. destruct Hro as [Hro ->].
  apply bind_ok in H. destruct H as (pln & g1 & Hpln & H).
  apply lift_ok in Hpln. destruct Hpln as [Hpln ->].
  apply bind_ok in H. destruct H as (prn & g1 & Hprn & H).
  apply lift_ok in Hprn. destruct Hprn as [Hprn ->].
  apply bind_ok in H. destruct H as (d0 & g1 & Hd0 & H).
  apply lift_ok in Hd0. destruct Hd0 as [Hd0 ->].
  apply bind_ok in H. destruct H as (cd & g1 & Hcd & H).
  apply lift_ok in Hcd. destruct Hcd as [Hcd ->].
  apply bind_ok in H. destruct H as (pd & g1 & Hpd & H).
  apply lift_ok in Hpd. destruct Hpd as [Hpd ->].
  apply bind_ok in H. destruct H as ([[[l r] ln] rn] & g1 & Haug & H).
  apply ret_ok in H. destruct H as [-> ->].
  exists x, y, iml, imr, cl, cr, nl, nr, pl, pr, pln, prn, lo, ro,
    (unsqueeze0 pd), l, r, ln, rn.
  repeat split; try assumption; lia.
Qed.

(** C6 (as the code behaves). On every Middlebury access that returns,
    the first four arrays of the result are the outcome of exactly one of
    three augmentations of the four images of the access (the padded
    channel-first crops of the two color images, which are also returned
    unchanged as fifth and sixth array, and the padded derived-NIR images of
    the two crops).  The augmentation is selected by one draw [nsmt] in
    [1..100], the third draw of the access: above 70 both color images are
    patch gamma-corrected; from 21 to 70 an offset in [64..224] is
    subtracted from each color image and the result clamped to [[0, 255]],
    the left and the right image each with a draw of its own; up to 20 both
    derived-NIR images are patch gamma-corrected.  The images of the other
    modality are returned as they are. *)
Theorem middlebury_augment_branches {ext : External} {ip : ImageProcess}
  (self : EntityMiddlebury.t) (g : rng) (out : list tensor) (g' : rng) :
  let gamma := EntityFlying3d.batched apply_patch_gamma_correction_torch in
  let g2 := mk_rng (tape g) (S (S (pos g))) in
  let g3 := mk_rng (tape g) (S (S (S (pos g)))) in
  EntityMiddlebury.get_item self g = Ok (out, g') ->
  exists (x y : Z) iml imr cl cr nl nr pl pr pln prn lo ro d l r ln rn nsmt,
    (0 <= x <= 800 /\ 0 <= y <= 200) /\
    (cv2_imread (EntityMiddlebury.left self) = Some iml /\
     crop2d iml (Z.to_nat y) (Z.to_nat x) 540 720 = Ok cl /\
     pseudo_nir_np cl = Ok nl /\
     img_pad_np cl false = Ok pl /\ permute201 pl = Ok lo /\
     img_pad_np nl false = Ok pln) /\
    (cv2_imread (EntityMiddlebury.right self) = Some imr /\
     crop2d imr (Z.to_nat y) (Z.to_nat x) 540 720 = Ok cr /\
     pseudo_nir_np cr = Ok nr /\
     img_pad_np cr false = Ok pr /\ permute201 pr = Ok ro /\
     img_pad_np nr false = Ok prn) /\
    out = [l; r; ln; rn; lo; ro; d; d] /\
    randint 1 100 g2 = Ok (nsmt, g3) /\ 1 <= nsmt <= 100 /\
    ((70 < nsmt /\
      (exists ga, gamma lo g3 = Ok (l, ga) /\ gamma ro ga = Ok (r, g')) /\
      ln = unsqueeze0 pln /\ rn = unsqueeze0 prn)
     \/
     (20 < nsmt <= 70 /\
      (exists ol or,
          randint 64 224 g3 = Ok (ol, mk_rng (tape g) (S (S (S (S (pos g)))))) /\
          randint 64 224 (mk_rng (tape g) (S (S (S (S (pos g))))))
          = Ok (or, g') /\
          64 <= ol <= 224 /\ 64 <= or <= 224 /\
          l = elementwise (fun p => EntityMiddlebury.clip_0_255
                                      (EntityMiddlebury.sub_scalar ol p)) lo /\
          r = elementwise (fun p => EntityMiddlebury.clip_0_255
                                      (EntityMiddlebury.sub_scalar or p)) ro) /\
      Forall2 clamped_from (data lo) (data l) /\
      Forall2 clamped_from (data ro) (data r) /\
      ln = unsqueeze0 pln /\ rn = unsqueeze0 prn)
     \/
     (nsmt <= 20 /\
      (exists ga, gamma (unsqueeze0 pln) g3 = Ok (ln, ga)
                  /\ gamma (unsqueeze0 prn) ga = Ok (rn, g')) /\
      l = lo /\ r = ro)).
Proof.
  intros gamma g2 g3 H. apply middlebury_get_item_steps in H.
  destruct H as (x & y & iml & imr & cl & cr & nl & nr & pl & pr & pln & prn
                 & lo & ro & d & l & r & ln & rn
                 & Hxy & Hleft & Hright & Haug & Hout).
  fold g2 in Haug.
  destruct (augment_branches lo ro (unsqueeze0 pln) (unsqueeze0 prn) g2)
    as (nsmt & En & Rn & Hbr).
  cbn [tape pos g2] in En, Hbr. fold g3 in En, Hbr.
  exists x, y, iml, imr, cl, cr, nl, nr, pl, pr, pln, prn, lo, ro, d,
    l, r, ln, rn, nsmt.
  split; [exact Hxy|]. split; [exact Hleft|]. split; [exact Hright|].
  split; [exact Hout|]. split; [exact En|]. split; [exact Rn|].
  destruct Hbr as [[H70 E]|[(H20 & ol & or & El & Er & Rl & Rr & E & Cl & Cr)
                           |[H20 E]]].
  - left. split; [exact H70|]. rewrite E in Haug.
    apply bind_ok in Haug. destruct Haug as (l' & ga & Hl & Haug).
    apply bind_ok in Haug. destruct Haug as (r' & gb & Hr & Haug).
    apply ret_ok in Haug. destruct Haug as [Haug ->].
    apply pair_equal_spec in Haug. destruct Haug as [Haug <-].
    apply pair_equal_spec in Haug. destruct Haug as [Haug <-].
    apply pair_equal_spec in Haug. destruct Haug as [<- <-].
    split; [|split; reflexivity]. exists ga. split; assumption.
  - right; left. split; [exact H20|]. cbv zeta in E, Cl, Cr.
    rewrite E in Haug.
    assert (Hq : (elementwise
                    (fun p => EntityMiddlebury.clip_0_255
                                (EntityMiddlebury.sub_scalar ol p)) lo,
                  elementwise
                    (fun p => EntityMiddlebury.clip_0_255
                                (EntityMiddlebury.sub_scalar or p)) ro,
                  unsqueeze0 pln, unsqueeze0 prn) = (l, r, ln, rn)
                 /\ mk_rng (tape g) (S (S (S (S (S (pos g)))))) = g').
    { apply pair_equal_spec. congruence. }
    destruct Hq as [Hq <-].
    apply pair_equal_spec in Hq. destruct Hq as [Hq <-].
    apply pair_equal_spec in Hq. destruct Hq as [Hq <-].
    apply pair_equal_spec in Hq. destruct Hq as [<- <-].
    split; [|split; [exact Cl|split; [exact Cr|split; reflexivity]]].
    exists ol, or. repeat split; try assumption; lia.
  - right; right. split; [exact H20|]. rewrite E in Haug.
    apply bind_ok in Haug. destruct Haug as (l' & ga & Hl & Haug).
    apply bind_ok in Haug. destruct Haug as (r' & gb & Hr & Haug).
    apply ret_ok in Haug. destruct Haug as [Haug ->].
    apply pair_equal_spec in Haug. destruct Haug as [Haug <-].
    apply pair_equal_spec in Haug. destruct Haug as [Haug <-].
    apply pair_equal_spec in Haug. destruct Haug as [<- <-].
    split; [|split; reflexivity]. exists ga. split; assumption.
Qed.

(** The theorem applies to an access in the small world whose third draw
    selects the middle branch. *)
Lemma middlebury_augment_branches_witness :
  exists out g',
    EntityMiddlebury.get_item (ext := Fixture.ext) (ip := Fixture.ip)
      (EntityMiddlebury.mk "D.pfm" "L.png" "R.png")
      (Fixture.replay [0%N; 0%N; 49%N; 0%N; 160%N])
    = Ok (out, g') /\
    exists l r ln rn lo ro d, out = [l; r; ln; rn; lo; ro; d; d].
Proof.
  destruct (EntityMiddlebury.get_item (ext := Fixture.ext) (ip := Fixture.ip)
              (EntityMiddlebury.mk "D.pfm" "L.png" "R.png")
              (Fixture.replay [0%N; 0%N; 49%N; 0%N; 160%N]))
    as [[out g']|err] eqn:E; [|vm_compute in E; discriminate E].
  exists out, g'. split; [reflexivity|].
  destruct (middlebury_augment_branches (ext := Fixture.ext)
              (ip := Fixture.ip) _ _ out g' E)
    as (x & y & iml & imr & cl & cr & nl & nr & pl & pr & pln & prn
        & lo & ro & d & l & r & ln & rn & nsmt & _ & _ & _ & Hout & _).
  exists l, r, ln, rn, lo, ro, d. exact Hout.
Defined.

(** With draws selecting the middle branch and then the offsets 64 and
    224, two equal white pixels come out as 191 on the left and 31 on the
    right. *)
Example augment_offsets_on_white_pixels :
  let g := Fixture.replay [49%N; 0%N; 160%N] in
  let white := Fixture.white_pixel in
  exists l r g',
    EntityMiddlebury.augment (ip := Fixture.ip) white white white white g
    = Ok ((l, r, white, white), g') /\
    l = mk_tensor [1; 1; 1]%nat [FNum (191 # 1)] /\
    r = mk_tensor [1; 1; 1]%nat [FNum (31 # 1)] /\
    ~ exists o : Z,
        l = elementwise (fun p => EntityMiddlebury.clip_0_255
                                    (EntityMiddlebury.sub_scalar o p)) white /\
        r = elementwise (fun p => EntityMiddlebury.clip_0_255
                                    (EntityMiddlebury.sub_scalar o p)) white.
Proof.
  intros g white. do 3 eexists.
  split; [vm_compute; reflexivity|].
  split; [reflexivity|]. split; [reflexivity|].
  intros (o & Hl & Hr).
  unfold white, Fixture.white_pixel, elementwise in Hl, Hr.
  cbn [shape data map EntityMiddlebury.sub_scalar EntityMiddlebury.clip_0_255]
    in Hl, Hr.
  injection Hl as Hl. injection Hr as Hr.
  destruct (Qle_bool (255 - inject_Z o) 0); [discriminate Hl|].
  destruct (Qle_bool 255 (255 - inject_Z o)); [discriminate Hl|].
  unfold Qminus, Qplus, Qopp, inject_Z in Hl, Hr. cbn [Qnum Qden] in Hl, Hr.
  injection Hl as Hl. injection Hr as Hr. lia.
Qed.

(** C6 (the claim as stated fails). An access in the small world, where
    the left and the right file decode to the same image: the third draw
    selects the middle branch, and the two color images, equal before the
    augmentation, are returned different, so no single offset was
    subtracted from both. *)
Lemma middlebury_offsets_drawn_separately :
  exists l r ln rn lo ro d g',
    EntityMiddlebury.get_item (ext := Fixture.ext) (ip := Fixture.ip)
      (EntityMiddlebury.mk "D.pfm" "L.png" "R.png")
      (Fixture.replay [0%N; 0%N; 49%N; 0%N; 160%N])
    = Ok ([l; r; ln; rn; lo; ro; d; d], g') /\
    lo = ro /\ l <> r /\
    ~ exists o : Z,
        l = elementwise (fun p => EntityMiddlebury.clip_0_255
                                    (EntityMiddlebury.sub_scalar o p)) lo /\
        r = elementwise (fun p => EntityMiddlebury.clip_0_255
                                    (EntityMiddlebury.sub_scalar o p)) ro.
Proof.
  do 8 eexists. split; [vm_compute; reflexivity|].
  split; [reflexivity|].
  assert (Hne : forall a b : tensor, data a <> data b -> a <> b)
    by (intros a b Hd E; apply Hd; now rewrite E).
  split.
  - apply Hne. cbn [data]. discriminate.
  - intros (o & Hl & Hr).
    apply (f_equal data) in Hl, Hr. cbn [data elementwise] in Hl, Hr.
    rewrite <- Hr in Hl. discriminate Hl.
Qed.

(** ** The ETH3D descriptor *)

Lemma shape_eqb_eq (s1 s2 : list nat) : shape_eqb s1 s2 = true -> s1 = s2.
Proof.
  revert s2. induction s1 as [|a s1 IH]; intros [|b s2]; simpl;
    try discriminate; auto.
  intros E. apply andb_prop in E. destruct E as [Eab E].
  apply Nat.eqb_eq in Eab. f_equal; auto.
Qed.

Lemma gather_plane_ok (h w : nat) (plane : list fval) (v u : list nat) r :
  gather_plane h w plane v u = Ok r ->
  List.length v = List.length u /\
  r = map (fun j => nth (nth j v 0 * w + nth j u 0)%nat plane FNaN)
          (seq 0 (List.length u)).
Proof.
  revert u r. induction v as [|vi v IH]; intros [|ui u] r; simpl;
    try discriminate.
  - intros E. inversion E. auto.
  - destruct ((vi <? h)%nat && (ui <? w)%nat); [|discriminate].
    destruct (gather_plane h w plane v u) as [r'|] eqn:E'; [|discriminate].
    intros E. inversion E; subst. destruct (IH _ _ E') as [L ->].
    split; [congruence|]. f_equal. rewrite <- seq_shift, map_map. reflexivity.
Qed.

Lemma shape_eqb_refl (s : list nat) : shape_eqb s s = true.
Proof. induction s; simpl; auto. now rewrite Nat.eqb_refl. Qed.

Lemma stack_points_rows (u v : list nat) (d points : tensor) :
  stack_points u v d = Ok points ->
  List.length v = List.length u /\
  shape d = [List.length u] /\
  shape points = [List.length u; 3%nat] /\
  data points
  = flat_map (fun j => [FNum (inject_Z (Z.of_nat (nth j u 0%nat)));
                        FNum (inject_Z (Z.of_nat (nth j v 0%nat)));
                        nth j (data d) FNaN])
             (seq 0 (List.length u)).
Proof.
  unfold stack_points, stack0. cbn [forallb of_indices shape].
  rewrite shape_eqb_refl. cbn [andb].
  destruct (shape_eqb [List.length v] [List.length u]) eqn:Ev; [|discriminate].
  destruct (shape_eqb (shape d) [List.length u]) eqn:Ed; [|discriminate].
  apply shape_eqb_eq in Ev, Ed. injection Ev as Ev.
  cbn [andb]. unfold transpose. cbn [shape data List.length flat_map].
  intros E. inversion E; subst points; clear E. cbn [shape data].
  repeat split; auto.
  rewrite !flat_map_concat_map. f_equal. apply map_ext_in.
  intros j Hj. apply in_seq in Hj. cbn [seq map].
  set (fu := fun n : nat => FNum (inject_Z (Z.of_nat n))).
  assert (Lu : List.length (map fu u) = List.length u) by apply length_map.
  assert (Lv : List.length (map fu v) = List.length u)
    by (rewrite length_map; exact Ev).
  rewrite app_nil_r.
  f_equal; [|f_equal; [|f_equal]].
  - rewrite app_nth1 by lia.
    rewrite (nth_indep _ FNaN (fu 0%nat)) by lia. apply map_nth.
  - rewrite app_nth2 by lia. rewrite app_nth1 by lia.
    match goal with |- nth ?k _ _ = _ => replace k with j by lia end.
    rewrite (nth_indep _ FNaN (fu 0%nat)) by lia. apply map_nth.
  - rewrite app_nth2 by lia. rewrite app_nth2 by lia.
    f_equal. lia.
Qed.

Lemma mapM_lift_5 {A B} (f : A -> result B) a b c d e g out g' :
  mapM (fun x => lift (f x)) [a; b; c; d; e] g = Ok (out, g') ->
  exists a' b' c' d' e',
    f a = Ok a' /\ f b = Ok b' /\ f c = Ok c' /\ f d = Ok d' /\ f e = Ok e' /\
    out = [a'; b'; c'; d'; e'] /\ g' = g.
Proof.
  cbn [mapM]. unfold bind, lift, ret.
  destruct (f a) as [a'|]; [|discriminate].
  destruct (f b) as [b'|]; [|discriminate].
  destruct (f c) as [c'|]; [|discriminate].
  destruct (f d) as [d'|]; [|discriminate].
  destruct (f e) as [e'|]; [|discriminate].
  intros E. inversion E. exists a', b', c', d', e'. repeat split; reflexivity.
Qed.

Lemma masked_pixel (d m : list fval) (i : nat) :
  (i < List.length d)%nat -> (i < List.length m)%nat ->
  nth i (map (fun p => Ethe3dEntity.mask_element (fst p) (snd p)) (combine d m))
      FNaN
  = if Ethe3dEntity.below_200 (nth i m FNaN) then FInf else nth i d FNaN.
Proof.
  revert m i. induction d as [|x d IH]; intros [|y m] [|i]; simpl; try lia.
  - reflexivity.
  - intros. apply IH; lia.
Qed.

(** C7. A successful ETH3D access returns, as dense disparity, the padded
    disparity map in which every pixel whose padded occlusion-mask value is
    below 200 has been replaced by infinity (the other pixels are kept);
    the sampled coordinates, [min 5000 (H'*W')] of them for
    [H' = min H 540] and [W' = min W 720], are pairwise distinct and satisfy
    [u < W'] and [v < H']; and the sparse-point array has one row
    [(u, v, d)] for every sampled coordinate, in order, where [d] is the
    value of that masked map at row [v] and column [u]: nothing is
    filtered, so an occluded sample is emitted with an infinite
    disparity. *)
Theorem eth3d_masks_then_samples_unfiltered
  {ext : External} {ip : ImageProcess}
  (self : Ethe3dEntity.t) (g : rng) (out : list tensor) (g' : rng) :
  Ethe3dEntity.get_item self g = Ok (out, g') ->
  exists img_left H W rest raw_disp disp raw_mask mask h w u v p0 p1 n2 n3 points,
    cv2_imread (path_join (Ethe3dEntity.path self) "im0.png") = Some img_left /\
    shape img_left = H :: W :: rest /\
    pfmread_read (path_join (Ethe3dEntity.path self) "disp0GT.pfm")
    = Ok raw_disp /\
    img_pad_np raw_disp false = Ok disp /\
    cv2_imread_grayscale (path_join (Ethe3dEntity.path self) "mask0nocc.png")
    = Some raw_mask /\
    img_pad_np raw_mask false = Ok mask /\
    shape disp = [h; w] /\ shape mask = [h; w] /\
    let masked :=
      map (fun p => Ethe3dEntity.mask_element (fst p) (snd p))
          (combine (data disp) (data mask)) in
    out = [p0; p1; n2; n3; points; mk_tensor [1%nat; h; w] masked] /\
    (forall i, (i < List.length (data disp))%nat ->
               (i < List.length (data mask))%nat ->
               nth i masked FNaN
               = if Ethe3dEntity.below_200 (nth i (data mask) FNaN)
                 then FInf else nth i (data disp) FNaN) /\
    List.length u = Nat.min 5000 (Nat.min H 540 * Nat.min W 720) /\
    List.length v = List.length u /\
    NoDup (combine u v) /\
    Forall (fun p => (fst p < Nat.min W 720)%nat /\ (snd p < Nat.min H 540)%nat)
           (combine u v) /\
    shape points = [List.length u; 3%nat] /\
    data points
    = flat_map
        (fun j => [FNum (inject_Z (Z.of_nat (nth j u 0%nat)));
                   FNum (inject_Z (Z.of_nat (nth j v 0%nat)));
                   nth (nth j v 0 * w + nth j u 0)%nat masked FNaN])
        (seq 0 (List.length u)).
Proof.
  intros H. unfold Ethe3dEntity.get_item in H.
  apply bind_ok in H. destruct H as (img_left & g1 & Hl & H).
  destruct (cv2_imread (path_join (Ethe3dEntity.path self) "im0.png"))
    as [il|] eqn:Eleft; [|discriminate Hl].
  apply ret_ok in Hl. destruct Hl as [-> ->].
  apply bind_ok in H. destruct H as (left_nir & g1 & Hln & H).
  apply lift_ok in Hln. destruct Hln as [Hln ->].
  apply bind_ok in H. destruct H as (img_right & g1 & Hr & H).
  destruct (cv2_imread (path_join (Ethe3dEntity.path self) "im1.png"))
    as [ir|] eqn:Eright; [|discriminate Hr].
  apply ret_ok in Hr. destruct Hr as [-> ->].
  apply bind_ok in H. destruct H as (right_nir & g1 & Hrn & H).
  apply lift_ok in Hrn. destruct Hrn as [Hrn ->].
  destruct (shape il) as [|H0 [|W0 rest]] eqn:Es; try discriminate H.
  apply bind_ok in H. destruct H as (raw_disp & g1 & Hd & H).
  apply lift_ok in Hd. destruct Hd as [Hd ->].
  apply bind_ok in H. destruct H as (images & g1 & Hpad & H).
  apply mapM_lift_5 in Hpad.
  destruct Hpad
    as (pl & pr & pln & prn & disp & Hpl & Hpr & Hpln & Hprn & Hpd & -> & ->).
  apply bind_ok in H. destruct H as (mask & g1 & Hm & H).
  destruct (cv2_imread_grayscale
              (path_join (Ethe3dEntity.path self) "mask0nocc.png"))
    as [raw_mask|] eqn:Emask; [|discriminate Hm].
  apply lift_ok in Hm. destruct Hm as [Hm ->].
  cbn [app index nth_error] in H.
  apply bind_ok in H. destruct H as (? & g1 & Hx & H).
  apply lift_ok in Hx. destruct Hx as [Hx ->]. injection Hx as <-.
  apply bind_ok in H. destruct H as (? & g1 & Hx & H).
  apply lift_ok in Hx. destruct Hx as [Hx ->]. injection Hx as <-.
  apply bind_ok in H. destruct H as (masked & g1 & Hmask & H).
  apply lift_ok in Hmask. destruct Hmask as [Hmask ->].
  unfold Ethe3dEntity.mask_occluded in Hmask.
  destruct (shape_eqb (shape disp) (shape mask)) eqn:Eshape; [|discriminate].
  apply shape_eqb_eq in Eshape. injection Hmask as <-.
  apply bind_ok in H. destruct H as ([u v] & g1 & Huv & H).
  destruct (sample_uv_props (Nat.min H0 540) (Nat.min W0 720) g)
    as (u' & v' & g2 & Huv' & Lu & Lv & Hnd & Hb).
  rewrite Huv' in Huv. injection Huv as <- <- <-.
  apply bind_ok in H. destruct H as (sampled & g1 & Hg & H).
  apply lift_ok in Hg. destruct Hg as [Hg ->].
  unfold gather_vu in Hg. cbn [shape data] in Hg.
  destruct (shape disp) as [|h [|w [|]]] eqn:Esd; try discriminate Hg.
  match type of Hg with
  | match ?G with _ => _ end = _ => destruct G as [r|] eqn:Egp; [|discriminate Hg]
  end.
  injection Hg as <-.
  apply gather_plane_ok in Egp. destruct Egp as [_ ->].
  apply bind_ok in H. destruct H as (? & g1 & Hx & H).
  apply lift_ok in Hx. destruct Hx as [Hx ->]. injection Hx as <-.
  apply bind_ok in H. destruct H as (p0 & g1 & Hp0 & H).
  apply lift_ok in Hp0. destruct Hp0 as [Hp0 ->].
  apply bind_ok in H. destruct H as (? & g1 & Hx & H).
  apply lift_ok in Hx. destruct Hx as [Hx ->]. injection Hx as <-.
  apply bind_ok in H. destruct H as (p1 & g1 & Hp1 & H).
  apply lift_ok in Hp1. destruct Hp1 as [Hp1 ->].
  apply bind_ok in H. destruct H as (? & g1 & Hx & H).
  apply lift_ok in Hx. destruct Hx as [Hx ->]. injection Hx as <-.
  apply bind_ok in H. destruct H as (? & g1 & Hx & H).
  apply lift_ok in Hx. destruct Hx as [Hx ->]. injection Hx as <-.
  apply bind_ok in H. destruct H as (points & g1 & Hpts & H).
  apply lift_ok in Hpts. destruct Hpts as [Hpts ->].
  apply ret_ok in H. destruct H as [-> ->].
  apply stack_points_rows in Hpts.
  destruct Hpts as (_ & _ & Hshape & Hdata). cbn [data] in Hdata.
  exists il, H0, W0, rest, raw_disp, disp, raw_mask, mask, h, w, u', v'.
  exists p0, p1, (unsqueeze0 pln), (unsqueeze0 prn), points.
  split; [reflexivity|]. split; [exact Es|]. split; [exact Hd|].
  split; [exact Hpd|]. split; [reflexivity|]. split; [exact Hm|].
  split; [exact Esd|]. split; [symmetry; exact Eshape|].
  cbv zeta. split; [unfold unsqueeze0; cbn [shape data]; reflexivity|].
  split; [intros i; apply masked_pixel|].
  split; [exact Lu|]. split; [exact Lv|]. split; [exact Hnd|].
  split; [exact Hb|]. split; [exact Hshape|].
  rewrite Hdata. rewrite !flat_map_concat_map. f_equal. apply map_ext_in.
  intros j Hj. apply in_seq in Hj. do 2 f_equal.
  set (f := fun j0 : nat => nth (nth j0 v' 0 * w + nth j0 u' 0)%nat _ FNaN).
  rewrite (nth_indep _ FNaN (f 0%nat)) by (rewrite length_map, length_seq; lia).
  rewrite map_nth, seq_nth by lia. reflexivity.
Qed.

(** The theorem applies: the two by two scene is read back with its two
    occluded pixels infinite, and four sparse points are emitted. *)
Lemma eth3d_masks_then_samples_unfiltered_witness :
  exists out g',
    Ethe3dEntity.get_item (ext := Fixture.ext) (ip := Fixture.ip)
      (Ethe3dEntity.mk "scene") (Fixture.replay [0%N; 1%N; 0%N; 2%N])
    = Ok (out, g') /\
    exists points dense,
      nth_error out 4 = Some points /\ nth_error out 5 = Some dense /\
      shape points = [4%nat; 3%nat] /\
      data dense = [FNum (3 # 2); FInf; FNum 3; FInf].
Proof.
  do 2 eexists. split; [vm_compute; reflexivity|].
  match goal with
  | |- exists points dense, nth_error ?out _ = _ /\ _ =>
      destruct (eth3d_masks_then_samples_unfiltered
                  (ext := Fixture.ext) (ip := Fixture.ip)
                  (Ethe3dEntity.mk "scene")
                  (Fixture.replay [0%N; 1%N; 0%N; 2%N]) out _ eq_refl)
        as (il & H & W & rest & rd & disp & rm & mask & h & w & u & v
            & p0 & p1 & n2 & n3 & points & _ & _ & Hrd & Hpd & Hrm & Hpm
            & _ & _ & Hout & _ & Lu & _ & _ & _ & Hshape & _)
  end.
  injection Hout as _ _ _ _ Hpoints Hdense.
  exists points. eexists.
  split; [rewrite <- Hpoints; reflexivity|].
  split; [reflexivity|].
  split; [rewrite <- Hpoints; reflexivity|reflexivity].
Defined.

(** The shift-distance theorem applies: a descriptor built in the small
    world has its distance, 13, in range, and a shift helper that fails at
    every other distance gives the same access as one that never fails. *)
Lemma shift_distance_fixed_at_construction_witness :
  let shift1 := fun (imgs ds : list tensor) (_ : Z) => Ok (imgs, ds) in
  let shift2 := fun (imgs ds : list tensor) (d : Z) =>
                  if d =? 13 then Ok (imgs, ds) else Raise ValueError in
  exists self,
    EntityFlying3d.init ["L.png"; "R.png"; "L.png"; "R.png"] ["D.pfm"; "E.pfm"]
      None None true false EntityFlying3d.rgb false None (Fixture.replay [5%N])
    = Ok (self, mk_rng (tape (Fixture.replay [5%N])) 1) /\
    EntityFlying3d.shift_distance self = 13 /\
    EntityFlying3d.get_item (ext := Fixture.ext)
      (ip := with_shift Fixture.ip shift1) self (Fixture.replay [])
    = EntityFlying3d.get_item (ext := Fixture.ext)
        (ip := with_shift Fixture.ip shift2) self (Fixture.replay []).
Proof.
  intros shift1 shift2.
  destruct (shift_distance_fixed_at_construction (ext := Fixture.ext)
              Fixture.ip shift1 shift2
              ["L.png"; "R.png"; "L.png"; "R.png"] ["D.pfm"; "E.pfm"]
              None None true false EntityFlying3d.rgb false None
              (Fixture.replay [5%N]))
    as (self & Hinit & Hself & Hrange & Huse).
  exists self. split; [exact Hinit|]. split; [rewrite Hself; reflexivity|].
  apply Huse. intros imgs ds. rewrite Hself. reflexivity.
Defined.

(** ** Manifest expansion and validation *)

(** C4 (as the code behaves). Validating a manifest made of a record whose
    files all exist and a record whose disparity file is missing keeps only
    the first record, and the line printed at the end reports an error
    count of 0: the counter is initialised and printed but never
    incremented. *)
Theorem validation_reports_zero_errors :
  exists o g',
    StereoDataset.flow3d_driving_json (ext := Fixture.ext)
      StereoDatasetArgs.default
      (Fixture.fs [Fixture.good_record; Fixture.bad_record])
      StereoDataset.DRIVING_JSON true (Fixture.replay [])
    = Ok (o, g') /\
    StereoDataset.files o StereoDataset.DRIVING_JSON
    = Some (FileSystem.JsonFile
              [Manifest.mk_entry ["L.png"; "R.png"] ["D.pfm"]
                 (Some (Manifest.NirList ["L.png"; "R.png"])) []]) /\
    StereoDataset.printed o = ["Error Cnt  0"].
Proof.
  do 2 eexists. split; [vm_compute; reflexivity|].
  split; reflexivity.
Qed.


(** C2 (the claim as stated fails). On a one-record manifest the expansion
    returns 1 descriptor without noised duplicates and 11 with them: the
    record gets 10 extra descriptors, not 5. *)
Lemma noised_duplicates_are_not_five :
  let fs := Fixture.fs [Fixture.good_record] in
  exists plain noised g1 g2,
    StereoDataset.flow3d_driving_json (ext := Fixture.ext)
      StereoDatasetArgs.default fs StereoDataset.DRIVING_JSON false
      (Fixture.replay [])
    = Ok (plain, g1) /\
    StereoDataset.flow3d_driving_json (ext := Fixture.ext)
      Fixture.noised_args fs StereoDataset.DRIVING_JSON false
      (Fixture.replay [])
    = Ok (noised, g2) /\
    List.length (StereoDataset.returned plain) = 1%nat /\
    List.length (StereoDataset.returned noised) = 11%nat /\
    List.length (StereoDataset.returned noised)
    <> (List.length (StereoDataset.returned plain) + 5)%nat.
Proof.
  intros fs. do 4 eexists.
  split; [vm_compute; reflexivity|].
  split; [vm_compute; reflexivity|].
  split; [reflexivity|]. split; [reflexivity|]. vm_compute. discriminate.
Qed.

Lemma flat_map_seq_shift {A} (f : nat -> list A) (n : nat) :
  flat_map f (seq 1 n) = flat_map (fun i => f (S i)) (seq 0 n).
Proof.
  rewrite <- seq_shift, !flat_map_concat_map, map_map. reflexivity.
Qed.

Lemma foldM_append {A B} (body : list A -> B -> M (list A))
  (G : (nat -> N) -> nat -> list A) (k : nat) :
  (forall acc x g,
      body acc x g
      = Ok ((acc ++ G (tape g) (pos g))%list, mk_rng (tape g) (pos g + k))) ->
  forall xs acc g,
    StereoDataset.foldM body xs acc g
    = Ok ((acc ++ flat_map (fun i => G (tape g) (pos g + k * i)%nat)
                           (seq 0 (List.length xs)))%list,
          mk_rng (tape g) (pos g + k * List.length xs)).
Proof.
  intros Hbody xs. induction xs as [|x xs IH]; intros acc g.
  - cbn. rewrite app_nil_r, Nat.mul_0_r, Nat.add_0_r. destruct g; reflexivity.
  - cbn [StereoDataset.foldM List.length seq flat_map]. unfold bind.
    rewrite Hbody, IH. cbn [tape pos].
    rewrite <- app_assoc, Nat.mul_0_r, Nat.add_0_r, flat_map_seq_shift.
    f_equal. f_equal.
    + f_equal. f_equal. apply flat_map_ext. intros i. f_equal. lia.
    + f_equal. lia.
Qed.

Lemma noised_descriptor_run args e nir_ambient g :
  StereoDataset.noised_descriptor args e nir_ambient g
  = Ok (noised_from args e nir_ambient (tape g) (pos g),
        mk_rng (tape g) (pos g + 3)).
Proof.
  unfold StereoDataset.noised_descriptor, EntityFlying3d.init, bind, random,
    randint, draw, ret, noised_from. cbn [tape pos].
  change (16 - 8 + 1) with 9.
  replace (pos g + 1)%nat with (S (pos g)) by lia.
  replace (pos g + 2)%nat with (S (S (pos g))) by lia.
  replace (pos g + 3)%nat with (S (S (S (pos g)))) by lia.
  reflexivity.
Qed.

Lemma guided_level_range (k : Z) : 0 <= StereoDataset.guided_level k < 20.
Proof.
  unfold StereoDataset.guided_level.
  pose proof (Z.mod_pos_bound (StereoDataset.round_half_even_53 (k * 100))
                (20 * 2 ^ 53) ltac:(reflexivity)) as B.
  split.
  - apply Z.div_pos; [lia|reflexivity].
  - apply Z.div_lt_upper_bound; [reflexivity|lia].
Qed.

Lemma gamma_level_range (k : Z) :
  0 <= k < 2 ^ 53 ->
  (0 <= StereoDataset.gamma_level k)%Q /\ (StereoDataset.gamma_level k < 2)%Q.
Proof.
  intros B. unfold StereoDataset.gamma_level, Qle, Qlt. cbn [Qnum Qden].
  change (Z.pos (2 ^ 53)) with 9007199254740992.
  change (2 ^ 53) with 9007199254740992 in B. lia.
Qed.

Lemma noised_duplicates_run
  (args : StereoDatasetArgs.t) (e : Manifest.entry)
  (nir_ambient : list string) (entries : list EntityFlying3d.t) (g : rng) :
  StereoDataset.noised_duplicates args e nir_ambient entries g
  = Ok ((entries
         ++ map (fun i => noised_from args e nir_ambient (tape g)
                            (pos g + 3 * i)%nat)
                (seq 0 10))%list,
        mk_rng (tape g) (pos g + 30)).
Proof.
  unfold StereoDataset.noised_duplicates.
  rewrite (foldM_append _
             (fun cells p =>
                [noised_from args e nir_ambient cells p;
                 noised_from args e nir_ambient cells (p + 3)%nat])
             6).
  - change (List.length (range 5)) with 5%nat.
    cbn [seq flat_map map app].
    f_equal. apply f_equal2.
    + apply f_equal.
      repeat (apply f_equal2; [apply f_equal; lia|]). reflexivity.
    + apply f_equal. lia.
  - intros acc x g0.
    rewrite (foldM_append _
               (fun cells p => [noised_from args e nir_ambient cells p]) 3).
    + cbn [List.length seq flat_map app tape pos].
      f_equal. apply f_equal2.
      * apply f_equal.
        repeat (apply f_equal2; [apply f_equal; lia|]). reflexivity.
      * apply f_equal. lia.
    + intros acc0 t g1. unfold bind. rewrite noised_descriptor_run.
      reflexivity.
Qed.

Lemma noised_from_levels args e nir_ambient cells p :
  exists level factor,
    EntityFlying3d.guided_noise (noised_from args e nir_ambient cells p)
    = Some level /\
    EntityFlying3d.gamma_noise (noised_from args e nir_ambient cells p)
    = Some factor /\
    0 <= level < 20 /\ (0 <= factor)%Q /\ (factor < 2)%Q.
Proof.
  do 2 eexists. cbn [noised_from EntityFlying3d.guided_noise
                       EntityFlying3d.gamma_noise].
  split; [reflexivity|]. split; [reflexivity|].
  split; [apply guided_level_range|].
  apply gamma_level_range. apply Z.mod_pos_bound. reflexivity.
Qed.

Lemma resolve_nir_ok args e g n e' g' :
  StereoDataset.resolve_nir e g = Ok ((n, e'), g') ->
  Manifest.rgb e' = Manifest.rgb e /\
  Manifest.disparity e' = Manifest.disparity e /\
  Manifest.others e' = Manifest.others e /\
  Manifest.nir e' = Some n /\
  StereoDataset.gt_of args e' = StereoDataset.gt_of args e /\ g' = g.
Proof.
  unfold StereoDataset.resolve_nir, StereoDataset.gt_of.
  destruct (Manifest.nir e) as [n0|] eqn:En.
  - intros E. apply ret_ok in E. destruct E as [E ->].
    inversion E; subst. repeat split; auto.
  - intros E.
    apply bind_ok in E. destruct E as (r0 & g1 & H0 & E).
    apply lift_ok in H0. destruct H0 as [H0 ->].
    apply bind_ok in E. destruct E as (r1 & g1 & H1 & E).
    apply lift_ok in H1. destruct H1 as [H1 ->].
    apply ret_ok in E. destruct E as [E ->].
    inversion E; subst. repeat split; auto.
Qed.

Lemma ok_pair {A B} (a a' : A) (b b' : B) :
  @Ok (A * B) (a, b) = Ok (a', b') -> a = a' /\ b = b'.
Proof. intros H. split; congruence. Qed.

Lemma init_run images disparity gn gm sf vs nt dr gt g :
  EntityFlying3d.init images disparity gn gm sf vs nt dr gt g
  = Ok (EntityFlying3d.mk images disparity gn gm sf vs nt
          (8 + Z.of_N (tape g (pos g)) mod 9) dr gt,
        mk_rng (tape g) (pos g + 1)).
Proof.
  unfold EntityFlying3d.init, bind, randint, draw, ret.
  change (16 - 8 + 1) with 9.
  replace (pos g + 1)%nat with (S (pos g)) by lia. reflexivity.
Qed.

Lemma rendered_noise_run args g gn g' :
  StereoDataset.rendered_noise args g = Ok (gn, g') ->
  g' = mk_rng (tape g)
         (pos g + if StereoDatasetArgs.noised_input args then 1 else 0) /\
  match gn with
  | Some level => StereoDatasetArgs.noised_input args = true /\ 3 <= level <= 8
  | None => StereoDatasetArgs.noised_input args = false
  end.
Proof.
  unfold StereoDataset.rendered_noise.
  destruct (StereoDatasetArgs.noised_input args) eqn:En; intros H.
  - apply bind_ok in H. destruct H as (n & g1 & Hn & H).
    apply ret_ok in H. destruct H as [-> ->].
    destruct (randint_ok 3 8 g ltac:(lia)) as (n' & En' & _ & Rn).
    rewrite En' in Hn.
    assert (n' = n) by congruence.
    assert (g1 = mk_rng (tape g) (S (pos g))) by congruence. subst n' g1.
    split; [f_equal; lia|]. split; [reflexivity|exact Rn].
  - apply ret_ok in H. destruct H as [-> ->].
    split; [|reflexivity]. rewrite Nat.add_0_r. now destruct g.
Qed.

Lemma index_nth {A} (l : list A) (i : nat) (x d : A) :
  index l i = Ok x -> nth i l d = x.
Proof.
  unfold index. destruct (nth_error l i) as [y|] eqn:E; [|discriminate].
  intros H. injection H as <-. now apply nth_error_nth.
Qed.

(** A loop whose body appends descriptors and draws [c] cells for each:
    the loop appends the descriptors of the iterations in order. *)
Lemma foldM_tracks {A B C} (proj : A -> C) (P : A -> Prop)
  (F : B -> list C) (c : nat) (body : list A -> B -> M (list A)) :
  (forall acc x g acc' g',
      body acc x g = Ok (acc', g') ->
      exists ds, acc' = (acc ++ ds)%list /\ map proj ds = F x /\ Forall P ds /\
                 g' = mk_rng (tape g) (pos g + c * List.length ds)) ->
  forall xs acc g acc' g',
    StereoDataset.foldM body xs acc g = Ok (acc', g') ->
    exists ds, acc' = (acc ++ ds)%list /\ map proj ds = flat_map F xs /\
               Forall P ds /\
               g' = mk_rng (tape g) (pos g + c * List.length ds).
Proof.
  intros Hbody xs. induction xs as [|x xs IH]; intros acc g acc' g' H.
  - apply ret_ok in H. destruct H as [-> ->]. exists [].
    rewrite app_nil_r. cbn [List.length map flat_map].
    rewrite Nat.mul_0_r, Nat.add_0_r.
    repeat split; [constructor|now destruct g].
  - cbn [StereoDataset.foldM] in H.
    apply bind_ok in H. destruct H as (acc1 & g1 & H1 & H).
    apply Hbody in H1. destruct H1 as (ds1 & -> & M1 & P1 & ->).
    apply IH in H. destruct H as (ds2 & -> & M2 & P2 & ->).
    cbn [tape pos].
    exists (ds1 ++ ds2)%list. rewrite app_assoc. split; [reflexivity|].
    split; [cbn [flat_map]; now rewrite map_app, M1, M2|].
    split; [apply Forall_app; now split|].
    f_equal. rewrite length_app. lia.
Qed.

Lemma length_rendered_images args fs e n :
  List.length (rendered_images args fs e n) = rendered_count args fs e.
Proof.
  unfold rendered_images, rendered_count.
  destruct (Manifest.rgb e) as [|rgb0 rest]; [reflexivity|].
  set (k := if StereoDatasetArgs.use_rendered_nir args
            then Z.to_nat (StereoDataset.probe fs rgb0 "frame_shaded_nir")
            else 1%nat).
  set (F := fun ir : Z => _).
  assert (HF : forall ir, List.length (F ir) = k).
  { intros ir. subst F k. cbv beta zeta.
    destruct (StereoDatasetArgs.use_rendered_nir args); [|reflexivity].
    unfold range. now rewrite !length_map, length_seq. }
  assert (G : forall l, List.length (flat_map F l) = (List.length l * k)%nat).
  { induction l as [|a l IH]; [reflexivity|].
    cbn [flat_map List.length]. rewrite length_app, HF, IH. lia. }
  rewrite G. unfold range. now rewrite length_map, length_seq.
Qed.

(** The rendered variants a record gets, and the cells drawn for them. *)
Lemma rendered_variants_parts args fs e n entries g entries' g' :
  StereoDataset.rendered_variants args fs e n entries g = Ok (entries', g') ->
  exists ds,
    entries' = (entries ++ ds)%list /\
    map EntityFlying3d.images ds = rendered_images args fs e n /\
    Forall (rendered_variant_of args e) ds /\
    g' = mk_rng (tape g)
           (pos g + (if StereoDatasetArgs.noised_input args then 2 else 1)
                    * List.length ds).
Proof.
  intros H. unfold StereoDataset.rendered_variants in H.
  apply bind_ok in H. destruct H as (rgb0 & g1 & Hrgb & H).
  apply lift_ok in Hrgb. destruct Hrgb as [Hrgb ->].
  unfold rendered_images.
  destruct (Manifest.rgb e) as [|r0 rest] eqn:Er; [discriminate Hrgb|].
  cbn in Hrgb. injection Hrgb as <-.
  set (c := if StereoDatasetArgs.noised_input args then 2%nat else 1%nat).
  assert (Hone : forall imgs acc g0 acc' g0',
             (gn <- StereoDataset.rendered_noise args ;;
              d <- EntityFlying3d.init imgs (Manifest.disparity e) gn None
                     (StereoDatasetArgs.shift_filter args)
                     (StereoDatasetArgs.vertical_scale args)
                     EntityFlying3d.rgb
                     (StereoDatasetArgs.disparity_right args)
                     (StereoDataset.gt_of args e) ;;
              ret (acc ++ [d])%list) g0 = Ok (acc', g0') ->
             exists ds, acc' = (acc ++ ds)%list /\
                        map EntityFlying3d.images ds = [imgs] /\
                        Forall (rendered_variant_of args e) ds /\
                        g0' = mk_rng (tape g0) (pos g0 + c * List.length ds)).
  { intros imgs acc g0 acc' g0' H0.
    apply bind_ok in H0. destruct H0 as (gn & g2 & Hgn & H0).
    apply rendered_noise_run in Hgn. destruct Hgn as [-> Hgn].
    apply bind_ok in H0. destruct H0 as (d & g3 & Hd & H0).
    rewrite init_run in Hd.
    apply ret_ok in H0. destruct H0 as [-> ->].
    apply ok_pair in Hd. destruct Hd as [<- <-].
    eexists [_]. split; [reflexivity|]. split; [reflexivity|].
    split.
    - constructor; [|constructor]. unfold rendered_variant_of.
      cbn [EntityFlying3d.disparity EntityFlying3d.gamma_noise
             EntityFlying3d.guided_noise].
      split; [reflexivity|]. split; [reflexivity|exact Hgn].
    - cbn [tape pos List.length]. f_equal. subst c.
      destruct (StereoDatasetArgs.noised_input args); lia. }
  eapply (foldM_tracks EntityFlying3d.images (rendered_variant_of args e)) in H.
  - exact H.
  - clear H. intros acc ir g0 acc' g0' H. cbv beta zeta in H |- *.
    destruct (StereoDatasetArgs.use_rendered_nir args).
    + eapply (foldM_tracks EntityFlying3d.images (rendered_variant_of args e)
                (fun inr => [[_; _; _; _]])) in H.
      * destruct H as (ds & -> & M & HP & ->). exists ds.
        split; [reflexivity|]. split; [|split; [exact HP|reflexivity]].
        rewrite M. clear.
        induction (range _) as [|a l IH]; [reflexivity|].
        cbn [flat_map map app]. now rewrite IH.
      * clear H. intros acc0 inr g1 acc1 g1' H. cbv beta in H.
        apply Hone in H. exact H.
    + apply bind_ok in H. destruct H as (n0 & g1 & Hn0 & H).
      apply lift_ok in Hn0. destruct Hn0 as [Hn0 ->].
      apply bind_ok in H. destruct H as (n1 & g1 & Hn1 & H).
      apply lift_ok in Hn1. destruct Hn1 as [Hn1 ->].
      apply (index_nth _ _ _ EmptyString) in Hn0, Hn1. rewrite Hn0, Hn1.
      apply Hone in H. exact H.
Qed.

(** The body of the loop, in full: what it appends for a record and what
    it draws. *)
Lemma process_record_parts {ext : External}
  (args : StereoDatasetArgs.t) (fs : FileSystem.t) (validate : bool)
  (e : Manifest.entry) (st st' : StereoDataset.loop_state) (g g' : rng) :
  StereoDataset.process_record args fs validate e st g = Ok (st', g') ->
  exists n e' base rendered noised,
    StereoDataset.resolve_nir e g = Ok ((n, e'), g) /\
    let nir_ambient :=
      map (fun x => replace x "nir_rendered" "nir_ambient")
          (StereoDataset.nir_items n) in
    let p :=
      (pos g + List.length base
       + (if StereoDatasetArgs.noised_input args then 2 else 1)
         * List.length rendered)%nat in
    StereoDataset.entries st'
    = (StereoDataset.entries st ++ base ++ rendered ++ noised)%list /\
    base = (if StereoDatasetArgs.synth_no_rgb args then []
            else [base_from args e nir_ambient (tape g) (pos g)]) /\
    map EntityFlying3d.images rendered
    = (if StereoDatasetArgs.rgb_rendered args
       then rendered_images args fs e n else []) /\
    Forall (rendered_variant_of args e) rendered /\
    noised = (if StereoDatasetArgs.noised_input args
              then map (fun i => noised_from args e nir_ambient (tape g)
                                   (p + 3 * i)%nat)
                       (seq 0 10)
              else []) /\
    g' = mk_rng (tape g)
           (p + if StereoDatasetArgs.noised_input args then 30 else 0).
Proof.
  intros H. unfold StereoDataset.process_record in H.
  apply bind_ok in H. destruct H as ([n e'] & g0 & Hnir & H).
  pose proof (resolve_nir_ok args _ _ _ _ _ Hnir)
    as (Ergb & Edisp & _ & _ & Egt & ->).
  apply bind_ok in H. destruct H as (l1 & g1 & Hbase & H).
  apply bind_ok in H. destruct H as (l2 & g2 & Hrend & H).
  apply bind_ok in H. destruct H as (l3 & g3 & Hdup & H).
  apply ret_ok in H. destruct H as [-> ->]. cbn [StereoDataset.entries].
  set (nir_ambient := map (fun x => replace x "nir_rendered" "nir_ambient")
                          (StereoDataset.nir_items n)) in *.
  assert (Hb : exists base,
             l1 = (StereoDataset.entries st ++ base)%list /\
             base = (if StereoDatasetArgs.synth_no_rgb args then []
                     else [base_from args e nir_ambient (tape g) (pos g)]) /\
             g1 = mk_rng (tape g) (pos g + List.length base)).
  { destruct (StereoDatasetArgs.synth_no_rgb args); cbn [negb] in Hbase.
    - apply ret_ok in Hbase. destruct Hbase as [-> ->].
      exists []. rewrite app_nil_r. cbn [List.length].
      rewrite Nat.add_0_r. repeat split. now destruct g.
    - apply bind_ok in Hbase. destruct Hbase as (d & g4 & Hd & Hbase).
      apply ret_ok in Hbase. destruct Hbase as [-> ->].
      rewrite init_run in Hd.
      apply ok_pair in Hd. destruct Hd as [<- <-].
      eexists [_]. split; [reflexivity|]. split; [|reflexivity].
      unfold base_from. now rewrite Ergb, Edisp, Egt. }
  destruct Hb as (base & -> & Ebase & ->).
  assert (Hr : exists rendered,
             l2 = ((StereoDataset.entries st ++ base) ++ rendered)%list /\
             map EntityFlying3d.images rendered
             = (if StereoDatasetArgs.rgb_rendered args
                then rendered_images args fs e n else []) /\
             Forall (rendered_variant_of args e) rendered /\
             g2 = mk_rng (tape g)
                    (pos g + List.length base
                     + (if StereoDatasetArgs.noised_input args then 2 else 1)
                       * List.length rendered)).
  { destruct (StereoDatasetArgs.rgb_rendered args).
    - apply rendered_variants_parts in Hrend.
      destruct Hrend as (ds & -> & M & HP & ->). exists ds.
      split; [reflexivity|]. split.
      + rewrite M. unfold rendered_images. now rewrite Ergb.
      + split; [|reflexivity].
        eapply Forall_impl; [|exact HP]. intros d (Hd & Hg & Hl).
        split; [congruence|]. split; assumption.
    - apply ret_ok in Hrend. destruct Hrend as [-> ->].
      exists []. rewrite app_nil_r. cbn [List.length map].
      rewrite Nat.mul_0_r, Nat.add_0_r. repeat split. constructor. }
  destruct Hr as (rendered & -> & Mr & Pr & ->).
  exists n, e', base, rendered.
  destruct (StereoDatasetArgs.noised_input args) eqn:En.
  - rewrite noised_duplicates_run in Hdup. cbn [tape pos] in Hdup.
    apply ok_pair in Hdup. destruct Hdup as [<- Hg].
    eexists. split; [exact Hnir|]. cbv zeta.
    split; [rewrite <- !app_assoc; reflexivity|].
    split; [exact Ebase|]. split; [exact Mr|]. split; [exact Pr|].
    split.
    + apply map_ext. intros i. unfold noised_from.
      now rewrite Ergb, Edisp, Egt.
    + now rewrite <- Hg.
  - apply ret_ok in Hdup. destruct Hdup as [-> ->].
    exists []. split; [exact Hnir|]. cbv zeta.
    split; [now rewrite !app_nil_r, <- app_assoc|].
    split; [exact Ebase|]. split; [exact Mr|]. split; [exact Pr|].
    split; [reflexivity|]. now rewrite Nat.add_0_r.
Qed.

(** C2 (as the code behaves). For every retained record, when the
    noised-duplicate mode is set, the body of the loop appends to the
    descriptors accumulated so far the base descriptor and the rendered
    variants of the record, none of which has a gamma factor, and then
    exactly 10 noised duplicates, two for each of the five rounds, all on
    the record's color, ambient-NIR and disparity paths with the default
    noise target.  The [i]-th duplicate is built from the tape cells [3i],
    [3i+1] and [3i+2] after the cells the base descriptor and the rendered
    variants have drawn, so no two duplicates share a draw; its
    guided-noise level is an integer in [[0, 20)] and its gamma-noise
    factor lies in [[0, 2)].  The body draws nothing after them. *)
Theorem noised_duplicates_ten_independent_draws
  {ext : External} (args : StereoDatasetArgs.t) (fs : FileSystem.t)
  (validate : bool) (e : Manifest.entry)
  (st st' : StereoDataset.loop_state) (g g' : rng) :
  StereoDatasetArgs.noised_input args = true ->
  StereoDataset.process_record args fs validate e st g = Ok (st', g') ->
  exists n e' pre,
    StereoDataset.resolve_nir e g = Ok ((n, e'), g) /\
    let nir_ambient :=
      map (fun x => replace x "nir_rendered" "nir_ambient")
          (StereoDataset.nir_items n) in
    let p :=
      (pos g + (if StereoDatasetArgs.synth_no_rgb args then 0 else 1)
       + 2 * (if StereoDatasetArgs.rgb_rendered args
              then rendered_count args fs e else 0))%nat in
    let ds :=
      map (fun i => noised_from args e nir_ambient (tape g) (p + 3 * i)%nat)
          (seq 0 10) in
    StereoDataset.entries st'
    = (StereoDataset.entries st ++ pre ++ ds)%list /\
    List.length pre
    = ((if StereoDatasetArgs.synth_no_rgb args then 0 else 1)
       + (if StereoDatasetArgs.rgb_rendered args
          then rendered_count args fs e else 0))%nat /\
    Forall (fun d => EntityFlying3d.gamma_noise d = None) pre /\
    g' = mk_rng (tape g) (p + 30) /\
    List.length ds = 10%nat /\
    Forall (fun d =>
              EntityFlying3d.images d = (Manifest.rgb e ++ nir_ambient)%list /\
              EntityFlying3d.disparity d = Manifest.disparity e /\
              EntityFlying3d.noise_target d = EntityFlying3d.rgb /\
              exists level factor,
                EntityFlying3d.guided_noise d = Some level /\
                EntityFlying3d.gamma_noise d = Some factor /\
                0 <= level < 20 /\ (0 <= factor)%Q /\ (factor < 2)%Q)
           ds.
Proof.
  intros Hn H. apply process_record_parts in H.
  destruct H as (n & e' & base & rendered & noised & Hnir & H).
  cbv zeta in H. rewrite Hn in H.
  destruct H as (Hent & Hbase & Mr & Pr & Hnoised & Hg).
  assert (Lb : List.length base
               = if StereoDatasetArgs.synth_no_rgb args then 0%nat else 1%nat).
  { rewrite Hbase. now destruct (StereoDatasetArgs.synth_no_rgb args). }
  assert (Lr : List.length rendered
               = if StereoDatasetArgs.rgb_rendered args
                 then rendered_count args fs e else 0%nat).
  { rewrite <- (length_map EntityFlying3d.images), Mr.
    destruct (StereoDatasetArgs.rgb_rendered args); [|reflexivity].
    apply length_rendered_images. }
  rewrite Lb, Lr in Hnoised, Hg.
  exists n, e', (base ++ rendered)%list. split; [exact Hnir|]. cbv zeta.
  split; [rewrite Hent, Hnoised, <- !app_assoc; reflexivity|].
  split; [rewrite length_app, Lb, Lr; reflexivity|].
  split.
  { apply Forall_app. split.
    - rewrite Hbase. destruct (StereoDatasetArgs.synth_no_rgb args);
        repeat constructor.
    - eapply Forall_impl; [|exact Pr]. intros d (_ & Hgm & _). exact Hgm. }
  split; [exact Hg|].
  split; [now rewrite length_map, length_seq|].
  apply Forall_forall. intros d Hd. apply in_map_iff in Hd.
  destruct Hd as (i & <- & _).
  split; [reflexivity|]. split; [reflexivity|]. split; [reflexivity|].
  apply noised_from_levels.
Qed.

(** The theorem applies to the record of the small world: one base
    descriptor, then the ten duplicates. *)
Lemma noised_duplicates_ten_independent_draws_witness :
  exists st' g',
    StereoDataset.process_record (ext := Fixture.ext) Fixture.noised_args
      (Fixture.fs [Fixture.good_record]) false Fixture.good_record
      (StereoDataset.mk_state [] []) (Fixture.replay [])
    = Ok (st', g') /\
    exists pre ds,
      StereoDataset.entries st' = (pre ++ ds)%list /\
      List.length pre = 1%nat /\ List.length ds = 10%nat /\
      g' = mk_rng (tape (Fixture.replay [])) 31.
Proof.
  destruct (StereoDataset.process_record (ext := Fixture.ext)
              Fixture.noised_args (Fixture.fs [Fixture.good_record]) false
              Fixture.good_record (StereoDataset.mk_state [] [])
              (Fixture.replay [])) as [[st' g']|err] eqn:E.
  - exists st', g'. split; [reflexivity|].
    destruct (noised_duplicates_ten_independent_draws (ext := Fixture.ext)
                Fixture.noised_args (Fixture.fs [Fixture.good_record]) false
                Fixture.good_record (StereoDataset.mk_state [] []) st'
                (Fixture.replay []) g' eq_refl E)
      as (n & e' & pre & _ & Hent & Hpre & _ & Hg & Hlen & _).
    exists pre. eexists. split; [exact Hent|].
    split; [exact Hpre|]. split; [exact Hlen|exact Hg].
  - vm_compute in E. discriminate E.
Defined.

Lemma process_record_validate_entries {ext : External} args fs validate e st g st' g' :
  StereoDataset.process_record args fs validate e st g = Ok (st', g') ->
  StereoDataset.validate_entries st' = StereoDataset.validate_entries st
  \/ exists e',
       validate = true /\
       StereoDataset.validate_entries st'
       = (StereoDataset.validate_entries st ++ [e'])%list /\
       Manifest.rgb e' = Manifest.rgb e /\
       Manifest.disparity e' = Manifest.disparity e /\
       Manifest.others e' = Manifest.others e /\
       StereoDataset.paths_exist fs e' = true /\
       StereoDataset.disparity_decodes e' = true.
Proof.
  intros H. unfold StereoDataset.process_record in H.
  apply bind_ok in H. destruct H as ([n e'] & g0 & Hnir & H).
  pose proof (resolve_nir_ok args _ _ _ _ _ Hnir)
    as (Ergb & Edisp & Eoth & _ & _ & ->).
  apply bind_ok in H. destruct H as (base & g1 & _ & H).
  apply bind_ok in H. destruct H as (rendered & g2 & _ & H).
  apply bind_ok in H. destruct H as (final & g3 & _ & H).
  apply ret_ok in H. destruct H as [-> ->]. cbn [StereoDataset.validate_entries].
  destruct validate; [|now left].
  destruct (StereoDataset.paths_exist fs e') eqn:Ep; [|now left].
  destruct (StereoDataset.disparity_decodes e') eqn:Ed; [|now left].
  right. exists e'. cbn [andb]. repeat split; auto.
Qed.




Lemma expand_below_index_cap {ext : External} args fs validate
  (records : list Manifest.entry) :
  StereoDatasetArgs.fast_test args = false ->
  forall idx st g,
    idx + Z.of_nat (List.length records) <= 1501 ->
    StereoDataset.expand_from args fs (StereoDataset.cap_reached args)
      validate idx records st g
    = StereoDataset.expand_from args fs (fun _ _ => false)
        validate idx records st g.
Proof.
  intros Hf. induction records as [|e rest IH]; intros idx st g Hidx;
    [reflexivity|].
  cbn [List.length] in Hidx. cbn [StereoDataset.expand_from].
  destruct (StereoDatasetArgs.synth_no_filter args
            && Manifest.has_key "frame_burnt_filtered" e).
  - apply IH. lia.
  - unfold StereoDataset.cap_reached at 1. rewrite Hf. cbn [andb orb].
    replace (1500 <? idx) with false by (symmetry; apply Z.ltb_ge; lia).
    rewrite andb_false_r.
    apply bind_ext. intros st1 g1. apply IH. lia.
Qed.

Lemma cap_reached_spec args (entries : list EntityFlying3d.t) (idx : Z) :
  StereoDataset.cap_reached args entries idx = true <->
  (StereoDatasetArgs.fast_test args = true
   /\ 100000 < Z.of_nat (List.length entries))
  \/ (20000 < Z.of_nat (List.length entries) /\ 1500 < idx).
Proof.
  unfold StereoDataset.cap_reached.
  rewrite orb_true_iff, !andb_true_iff, !Z.ltb_lt. reflexivity.
Qed.

(** C5 (as the code behaves). Whether or not the fast-test flag is set,
    the loop stops, whatever records remain, at the first retained record
    of index above 1500 met with more than 20000 descriptors accumulated.
    The fast-test flag adds one more stop and removes none: with it the
    loop also stops at the first retained record met with more than 100000
    descriptors accumulated, whatever its index.  These are the only stops:
    a retained record met under neither condition is processed and the loop
    goes on with the next index.  With the flag unset a manifest of at most
    1501 records is therefore expanded record by record to its end, as the
    loop without any cap would. *)
Theorem expansion_cap_whatever_fast_test {ext : External}
  (args : StereoDatasetArgs.t) (fs : FileSystem.t) (validate : bool) :
  (forall idx e rest st g,
      StereoDatasetArgs.synth_no_filter args
      && Manifest.has_key "frame_burnt_filtered" e = false ->
      20000 < Z.of_nat (List.length (StereoDataset.entries st)) ->
      1500 < idx ->
      StereoDataset.expand_from args fs (StereoDataset.cap_reached args)
        validate idx (e :: rest) st g
      = Ok (st, g))
  /\ (forall idx e rest st g,
         StereoDatasetArgs.fast_test args = true ->
         StereoDatasetArgs.synth_no_filter args
         && Manifest.has_key "frame_burnt_filtered" e = false ->
         100000 < Z.of_nat (List.length (StereoDataset.entries st)) ->
         StereoDataset.expand_from args fs (StereoDataset.cap_reached args)
           validate idx (e :: rest) st g
         = Ok (st, g))
  /\ (forall idx e rest st g,
         StereoDatasetArgs.synth_no_filter args
         && Manifest.has_key "frame_burnt_filtered" e = false ->
         (StereoDatasetArgs.fast_test args = false
          \/ Z.of_nat (List.length (StereoDataset.entries st)) <= 100000) ->
         (Z.of_nat (List.length (StereoDataset.entries st)) <= 20000
          \/ idx <= 1500) ->
         StereoDataset.expand_from args fs (StereoDataset.cap_reached args)
           validate idx (e :: rest) st g
         = (st' <- StereoDataset.process_record args fs validate e st ;;
            StereoDataset.expand_from args fs (StereoDataset.cap_reached args)
              validate (idx + 1) rest st') g)
  /\ (forall records g,
         StereoDatasetArgs.fast_test args = false ->
         (List.length records <= 1501)%nat ->
         StereoDataset.expand_from args fs (StereoDataset.cap_reached args)
           validate 0 records (StereoDataset.mk_state [] []) g
         = StereoDataset.expand_all_records args fs validate records g).
Proof.
  split; [|split; [|split]].
  - intros idx e rest st g Hkeep Hacc Hidx.
    cbn [StereoDataset.expand_from]. rewrite Hkeep.
    replace (StereoDataset.cap_reached args (StereoDataset.entries st) idx)
      with true; [reflexivity|].
    symmetry. apply cap_reached_spec. right. split; assumption.
  - intros idx e rest st g Hf Hkeep Hacc.
    cbn [StereoDataset.expand_from]. rewrite Hkeep.
    replace (StereoDataset.cap_reached args (StereoDataset.entries st) idx)
      with true; [reflexivity|].
    symmetry. apply cap_reached_spec. left. split; assumption.
  - intros idx e rest st g Hkeep Hfast Hcap.
    cbn [StereoDataset.expand_from]. rewrite Hkeep.
    destruct (StereoDataset.cap_reached args (StereoDataset.entries st) idx)
      eqn:E; [|reflexivity].
    apply cap_reached_spec in E.
    destruct E as [[Hf Hacc]|[Hacc Hidx]].
    + destruct Hfast as [Hfast|Hfast]; [congruence|lia].
    + destruct Hcap; lia.
  - intros records g Hf Hlen.
    unfold StereoDataset.expand_all_records.
    apply expand_below_index_cap; [exact Hf|lia].
Qed.

(** With every flag at its default the one-record manifest of the small
    world is expanded to its end. *)
Lemma expansion_cap_whatever_fast_test_witness :
  StereoDataset.expand_from (ext := Fixture.ext) StereoDatasetArgs.default
    (Fixture.fs [Fixture.good_record])
    (StereoDataset.cap_reached StereoDatasetArgs.default)
    false 0 [Fixture.good_record] (StereoDataset.mk_state [] [])
    (Fixture.replay [])
  = StereoDataset.expand_all_records (ext := Fixture.ext)
      StereoDatasetArgs.default (Fixture.fs [Fixture.good_record]) false
      [Fixture.good_record] (Fixture.replay []).
Proof.
  apply (proj2 (proj2 (proj2
           (expansion_cap_whatever_fast_test (ext := Fixture.ext)
              StereoDatasetArgs.default (Fixture.fs [Fixture.good_record])
              false)))).
  - reflexivity.
  - cbn [List.length]. lia.
Defined.

Lemma default_record_step {ext : External} fs st g :
  StereoDataset.process_record StereoDatasetArgs.default fs false
    Fixture.good_record st g
  = Ok (StereoDataset.mk_state
          (StereoDataset.entries st
           ++ [EntityFlying3d.mk ["L.png"; "R.png"; "L.png"; "R.png"] ["D.pfm"]
                 None None false false EntityFlying3d.rgb
                 (8 + Z.of_N (tape g (pos g)) mod 9) false None])%list
          (StereoDataset.validate_entries st),
        mk_rng (tape g) (S (pos g))).
Proof. reflexivity. Qed.

Lemma default_loop_capped {ext : External} fs (n : nat) :
  forall idx st g,
    Z.of_nat (List.length (StereoDataset.entries st)) = idx ->
    exists st' g',
      StereoDataset.expand_from StereoDatasetArgs.default fs
        (StereoDataset.cap_reached StereoDatasetArgs.default) false idx
        (repeat Fixture.good_record n) st g
      = Ok (st', g') /\
      Z.of_nat (List.length (StereoDataset.entries st'))
      = Z.min (idx + Z.of_nat n) (Z.max idx 20001).
Proof.
  induction n as [|n IH]; intros idx st g Hidx.
  - exists st, g. split; [reflexivity|]. lia.
  - cbn [repeat StereoDataset.expand_from].
    change (StereoDatasetArgs.synth_no_filter StereoDatasetArgs.default
            && Manifest.has_key "frame_burnt_filtered" Fixture.good_record)
      with false. cbv iota.
    unfold StereoDataset.cap_reached at 1.
    change (StereoDatasetArgs.fast_test StereoDatasetArgs.default) with false.
    cbn [andb orb]. rewrite Hidx.
    destruct (20000 <? idx) eqn:E20.
    + apply Z.ltb_lt in E20.
      replace (1500 <? idx) with true by (symmetry; apply Z.ltb_lt; lia).
      cbn [andb]. exists st, g. split; [reflexivity|]. lia.
    + apply Z.ltb_ge in E20. cbn [andb].
      unfold bind at 1. rewrite default_record_step.
      edestruct (IH (idx + 1)) as (st' & g' & Hrun & Hcount);
        [|exists st', g'; split; [exact Hrun|]; lia].
      cbn [StereoDataset.entries]. rewrite length_app. cbn [List.length]. lia.
Qed.

Lemma default_loop_uncapped {ext : External} fs (n : nat) :
  forall idx st g,
    exists st' g',
      StereoDataset.expand_from StereoDatasetArgs.default fs
        (fun _ _ => false) false idx (repeat Fixture.good_record n) st g
      = Ok (st', g') /\
      List.length (StereoDataset.entries st')
      = (List.length (StereoDataset.entries st) + n)%nat.
Proof.
  induction n as [|n IH]; intros idx st g.
  - exists st, g. split; [reflexivity|]. lia.
  - cbn [repeat StereoDataset.expand_from].
    change (StereoDatasetArgs.synth_no_filter StereoDatasetArgs.default
            && Manifest.has_key "frame_burnt_filtered" Fixture.good_record)
      with false. cbv iota.
    unfold bind at 1. rewrite default_record_step.
    edestruct (IH (idx + 1)) as (st' & g' & Hrun & Hcount).
    exists st', g'. split; [exact Hrun|]. rewrite Hcount.
    cbn [StereoDataset.entries]. rewrite length_app. cbn [List.length]. lia.
Qed.

(** C5 (the claim as stated fails). With every flag at its default, so
    with fast-test unset, a manifest of 20002 records is not expanded to
    its end: the call returns 20001 descriptors, one short of the 20002
    that processing every record yields. *)
Lemma cap_stops_expansion_without_fast_test :
  let m := repeat Fixture.good_record (Z.to_nat 20002) in
  StereoDatasetArgs.fast_test StereoDatasetArgs.default = false /\
  (exists o g',
      StereoDataset.flow3d_driving_json (ext := Fixture.ext)
        StereoDatasetArgs.default (Fixture.fs m) StereoDataset.DRIVING_JSON
        false (Fixture.replay [])
      = Ok (o, g') /\
      Z.of_nat (List.length (StereoDataset.returned o)) = 20001) /\
  (exists st g',
      StereoDataset.expand_all_records (ext := Fixture.ext)
        StereoDatasetArgs.default (Fixture.fs m) false m (Fixture.replay [])
      = Ok (st, g') /\
      Z.of_nat (List.length (StereoDataset.entries st)) = 20002).
Proof.
  intros m. split; [reflexivity|]. split.
  - destruct (default_loop_capped (ext := Fixture.ext) (Fixture.fs m)
                (Z.to_nat 20002) 0 (StereoDataset.mk_state [] [])
                (Fixture.replay []) eq_refl)
      as (st' & g' & Hrun & Hcount).
    exists (StereoDataset.mk_outcome (StereoDataset.entries st')
              (Fixture.fs m) []), g'.
    split.
    + unfold StereoDataset.flow3d_driving_json, bind at 1.
      assert (Hload : FileSystem.load_json (Fixture.fs m)
                        StereoDataset.DRIVING_JSON = Ok m).
      { unfold FileSystem.load_json, Fixture.fs.
        now rewrite String.eqb_refl. }
      unfold lift at 1. rewrite Hload. unfold bind at 1.
      fold m in Hrun. rewrite Hrun. reflexivity.
    + cbn [StereoDataset.returned]. rewrite Hcount, Z2Nat.id; lia.
  - destruct (default_loop_uncapped (ext := Fixture.ext) (Fixture.fs m)
                (Z.to_nat 20002) 0 (StereoDataset.mk_state [] [])
                (Fixture.replay []))
      as (st' & g' & Hrun & Hcount).
    exists st', g'. split; [exact Hrun|].
    rewrite Hcount. cbn [StereoDataset.entries List.length].
    rewrite Nat.add_0_l, Z2Nat.id; lia.
Qed.

(* ================================================================== *)
(** * Further properties *)
(* ================================================================== *)

(** ** The rendering probe *)

Lemma probe_from_spec fs rgb0 marker (cands : list Z) :
  let i := StereoDataset.probe_from fs rgb0 marker cands in
  (i = -1 /\ forallb (fun j => negb (both_rendered fs rgb0 marker j)) cands = true)
  \/ (exists before after,
         cands = (before ++ i :: after)%list /\
         both_rendered fs rgb0 marker i = true /\
         forallb (fun j => negb (both_rendered fs rgb0 marker j)) before = true).
Proof.
  induction cands as [|c cands IH]; cbn [StereoDataset.probe_from].
  - left. split; reflexivity.
  - fold (both_rendered fs rgb0 marker c).
    destruct (both_rendered fs rgb0 marker c) eqn:E.
    + right. exists [], cands. repeat split; auto.
    + destruct IH as [[Hi Hall]|(before & after & Hc & Hb & Hall)].
      * left. split; [exact Hi|]. cbn [forallb]. now rewrite E, Hall.
      * right. exists (c :: before), after. split; [cbn; now rewrite <- Hc|].
        split; [exact Hb|]. cbn [forallb]. now rewrite E, Hall.
Qed.

Lemma decreasing_after (i : Z) (a b : list Z) :
  StronglySorted (fun x y => y < x) (a ++ i :: b)%list ->
  forall k, In k (i :: b) -> k <= i.
Proof.
  induction a as [|x a IHa]; intros Hs k Hk.
  - change (([] ++ i :: b)%list) with (i :: b) in Hs.
    inversion Hs as [|? ? ? Hf]; subst.
    destruct Hk as [Hk|Hk]; [lia|].
    rewrite Forall_forall in Hf. specialize (Hf _ Hk). cbv beta in Hf. lia.
  - change (((x :: a) ++ i :: b)%list) with (x :: (a ++ i :: b)%list) in Hs.
    inversion Hs; subst. now apply IHa.
Qed.

(** X1. The rendering probe returns the highest index in [0..9] for which
    the renderings of both stereo sides exist, and [-1] when there is no
    such index. *)
Theorem probe_finds_highest_rendering (fs : FileSystem.t) (rgb0 marker : string) :
  let i := StereoDataset.probe fs rgb0 marker in
  (i = -1 \/ (0 <= i <= 9 /\ both_rendered fs rgb0 marker i = true))
  /\ forall j, i < j <= 9 -> 0 <= j -> both_rendered fs rgb0 marker j = false.
Proof.
  unfold StereoDataset.probe.
  change (map (fun ir => 9 - ir) (range 10)) with [9; 8; 7; 6; 5; 4; 3; 2; 1; 0].
  pose proof (probe_from_spec fs rgb0 marker [9; 8; 7; 6; 5; 4; 3; 2; 1; 0]) as H.
  cbv zeta in *.
  set (i := StereoDataset.probe_from fs rgb0 marker [9; 8; 7; 6; 5; 4; 3; 2; 1; 0]) in *.
  clearbody i.
  assert (Hs : StronglySorted (fun x y => y < x) [9; 8; 7; 6; 5; 4; 3; 2; 1; 0]).
  { repeat (constructor; [|repeat constructor; lia]). constructor. }
  destruct H as [[Hi Hall]|(before & after & Hc & Hb & Hall)].
  - split; [now left|]. intros j Hj Hj0.
    cbn [forallb] in Hall. rewrite !andb_true_iff, !negb_true_iff in Hall.
    assert (j = 0 \/ j = 1 \/ j = 2 \/ j = 3 \/ j = 4 \/ j = 5 \/ j = 6
            \/ j = 7 \/ j = 8 \/ j = 9) as Hcase by lia.
    intuition (subst; assumption).
  - assert (Hin : In i [9; 8; 7; 6; 5; 4; 3; 2; 1; 0])
      by (rewrite Hc; apply in_or_app; right; now left).
    split.
    + right. split; [|exact Hb]. cbn [In] in Hin. lia.
    + intros j Hj Hj0.
      assert (Hjl : In j [9; 8; 7; 6; 5; 4; 3; 2; 1; 0]) by (cbn [In]; lia).
      rewrite Hc in Hjl, Hs. apply in_app_or in Hjl.
      destruct Hjl as [Hjb|Hjl].
      * rewrite forallb_forall in Hall. specialize (Hall _ Hjb).
        now apply negb_true_iff in Hall.
      * pose proof (decreasing_after i before after Hs j Hjl). lia.
Qed.

(** ** What the expansion appends *)

Lemma foldM_appends {A B} (P : A -> Prop) (k : nat)
  (body : list A -> B -> M (list A)) :
  (forall acc x g acc' g',
      body acc x g = Ok (acc', g') ->
      exists ds, acc' = (acc ++ ds)%list /\ List.length ds = k /\ Forall P ds) ->
  forall xs acc g acc' g',
    StereoDataset.foldM body xs acc g = Ok (acc', g') ->
    exists ds, acc' = (acc ++ ds)%list /\
               List.length ds = (k * List.length xs)%nat /\ Forall P ds.
Proof.
  intros Hbody xs. induction xs as [|x xs IH]; intros acc g acc' g' H.
  - apply ret_ok in H. destruct H as [-> _]. exists [].
    rewrite app_nil_r. repeat split; [cbn; lia|constructor].
  - cbn [StereoDataset.foldM] in H.
    apply bind_ok in H. destruct H as (acc1 & g1 & H1 & H).
    apply Hbody in H1. destruct H1 as (ds1 & -> & L1 & P1).
    apply IH in H. destruct H as (ds2 & -> & L2 & P2).
    exists (ds1 ++ ds2)%list. rewrite app_assoc. split; [reflexivity|].
    split; [rewrite length_app; cbn [List.length]; lia|].
    apply Forall_app. now split.
Qed.

Lemma init_inv args images disparity gn gm vs gt g d g' :
  EntityFlying3d.init images disparity gn gm
    (StereoDatasetArgs.shift_filter args) vs EntityFlying3d.rgb
    (StereoDatasetArgs.disparity_right args) gt g = Ok (d, g') ->
  vs = (vs && StereoDatasetArgs.vertical_scale args)%bool ->
  match gn with
  | Some level => StereoDatasetArgs.noised_input args = true /\ 0 <= level < 20
  | None => gm = None
  end ->
  match gm with
  | Some factor => (0 <= factor)%Q /\ (factor < 2)%Q
  | None => True
  end ->
  match gt with
  | Some _ => StereoDatasetArgs.rgb_gt args = true
  | None => StereoDatasetArgs.rgb_gt args = false
  end ->
  descriptor_inv args d /\ EntityFlying3d.disparity d = disparity
  /\ EntityFlying3d.images d = images.
Proof.
  intros H Hvs Hgn Hgm Hgt. unfold EntityFlying3d.init in H.
  apply bind_ok in H. destruct H as (sd & g1 & Hsd & H).
  apply ret_ok in H. destruct H as [-> ->].
  destruct (randint_ok 8 16 g ltac:(lia)) as (n & En & _ & Rn).
  rewrite En in Hsd. injection Hsd as <- _.
  unfold descriptor_inv. cbn. repeat split; auto; lia.
Qed.

Lemma gt_of_inv args e :
  match StereoDataset.gt_of args e with
  | Some _ => StereoDatasetArgs.rgb_gt args = true
  | None => StereoDatasetArgs.rgb_gt args = false
  end.
Proof. unfold StereoDataset.gt_of. now destruct (StereoDatasetArgs.rgb_gt args). Qed.

Lemma rendered_noise_inv args g gn g' :
  StereoDataset.rendered_noise args g = Ok (gn, g') ->
  match gn with
  | Some level => StereoDatasetArgs.noised_input args = true /\ 0 <= level < 20
  | None => @None Q = None
  end.
Proof.
  unfold StereoDataset.rendered_noise.
  destruct (StereoDatasetArgs.noised_input args) eqn:En; intros H.
  - apply bind_ok in H. destruct H as (n & g1 & Hn & H).
    apply ret_ok in H. destruct H as [-> _].
    destruct (randint_ok 3 8 g ltac:(lia)) as (n' & En' & _ & Rn).
    rewrite En' in Hn. injection Hn as <- _. split; [reflexivity|lia].
  - apply ret_ok in H. destruct H as [-> _]. reflexivity.
Qed.

Lemma vs_absorb (b : bool) : b = (b && b)%bool.
Proof. now destruct b. Qed.

Lemma length_range (n : Z) : List.length (range n) = Z.to_nat n.
Proof. unfold range. now rewrite length_map, length_seq. Qed.

Lemma rendered_variants_appends args fs e n entries g entries' g' :
  StereoDataset.rendered_variants args fs e n entries g = Ok (entries', g') ->
  exists ds,
    entries' = (entries ++ ds)%list /\
    List.length ds = rendered_count args fs e /\
    Forall (fun d => descriptor_inv args d
                     /\ EntityFlying3d.disparity d = Manifest.disparity e) ds.
Proof.
  intros H. unfold StereoDataset.rendered_variants in H.
  apply bind_ok in H. destruct H as (rgb0 & g1 & Hrgb & H).
  apply lift_ok in Hrgb. destruct Hrgb as [Hrgb ->].
  unfold rendered_count.
  destruct (Manifest.rgb e) as [|r0 rest] eqn:Er; [discriminate Hrgb|].
  cbn in Hrgb. injection Hrgb as <-.
  set (P := fun d => descriptor_inv args d
                     /\ EntityFlying3d.disparity d = Manifest.disparity e).
  apply (foldM_appends P
           (if StereoDatasetArgs.use_rendered_nir args
            then Z.to_nat (StereoDataset.probe fs r0 "frame_shaded_nir")
            else 1)) in H.
  - destruct H as (ds & -> & L & HP). exists ds. split; [reflexivity|].
    split; [|exact HP]. rewrite L, length_range. lia.
  - clear H. intros acc ir g0 acc' g0' H.
    destruct (StereoDatasetArgs.use_rendered_nir args).
    + apply (foldM_appends P 1) in H.
      * destruct H as (ds & -> & L & HP). exists ds. split; [reflexivity|].
        split; [|exact HP]. rewrite L, length_range. lia.
      * clear. intros acc inr g acc' g' H.
        apply bind_ok in H. destruct H as (gn & g1 & Hgn & H).
        apply bind_ok in H. destruct H as (d & g2 & Hd & H).
        apply ret_ok in H. destruct H as [-> _].
        exists [d]. split; [reflexivity|]. split; [reflexivity|].
        constructor; [|constructor].
        apply rendered_noise_inv in Hgn.
        destruct (init_inv _ _ _ _ _ _ _ _ _ _ Hd (vs_absorb _) Hgn I
                    (gt_of_inv args e)) as (Hi & Hdisp & _).
        split; assumption.
    + apply bind_ok in H. destruct H as (n0 & g1 & _ & H).
      apply bind_ok in H. destruct H as (n1 & g2 & _ & H).
      apply bind_ok in H. destruct H as (gn & g3 & Hgn & H).
      apply bind_ok in H. destruct H as (d & g4 & Hd & H).
      apply ret_ok in H. destruct H as [-> _].
      exists [d]. split; [reflexivity|]. split; [reflexivity|].
      constructor; [|constructor].
      apply rendered_noise_inv in Hgn.
      destruct (init_inv _ _ _ _ _ _ _ _ _ _ Hd (vs_absorb _) Hgn I
                  (gt_of_inv args e)) as (Hi & Hdisp & _).
      split; assumption.
Qed.

Lemma noised_from_inv args e nir_ambient cells p :
  StereoDatasetArgs.noised_input args = true ->
  descriptor_inv args (noised_from args e nir_ambient cells p)
  /\ EntityFlying3d.disparity (noised_from args e nir_ambient cells p)
     = Manifest.disparity e.
Proof.
  intros Hn.
  destruct (noised_from_levels args e nir_ambient cells p)
    as (level & factor & Hl & Hf & Rl & Rf).
  split; [|reflexivity].
  unfold descriptor_inv. rewrite Hl, Hf.
  cbn [noised_from EntityFlying3d.noise_target EntityFlying3d.shift_distance
         EntityFlying3d.shift_filter EntityFlying3d.disparity_right
         EntityFlying3d.vertical_scale EntityFlying3d.rgb_gt].
  pose proof (Z.mod_pos_bound (Z.of_N (cells (p + 2)%nat)) 9 ltac:(lia)).
  split; [reflexivity|]. split; [lia|]. split; [reflexivity|].
  split; [reflexivity|]. split; [apply vs_absorb|].
  split; [split; assumption|]. split; [exact Rf|apply gt_of_inv].
Qed.

Lemma process_record_appends {ext : External}
  (args : StereoDatasetArgs.t) (fs : FileSystem.t) (validate : bool)
  (e : Manifest.entry) (st st' : StereoDataset.loop_state) (g g' : rng) :
  StereoDataset.process_record args fs validate e st g = Ok (st', g') ->
  exists ds,
    StereoDataset.entries st' = (StereoDataset.entries st ++ ds)%list /\
    List.length ds = expansion_count args fs e /\
    Forall (fun d => descriptor_inv args d
                     /\ EntityFlying3d.disparity d = Manifest.disparity e) ds.
Proof.
  intros H. unfold StereoDataset.process_record in H.
  apply bind_ok in H. destruct H as ([n e'] & g0 & Hnir & H).
  pose proof (resolve_nir_ok args _ _ _ _ _ Hnir)
    as (Ergb & Edisp & _ & _ & Egt & ->).
  apply bind_ok in H. destruct H as (base & g1 & Hbase & H).
  apply bind_ok in H. destruct H as (rendered & g2 & Hrend & H).
  apply bind_ok in H. destruct H as (final & g3 & Hdup & H).
  apply ret_ok in H. destruct H as [-> ->]. cbn [StereoDataset.entries].
  set (P := fun d => descriptor_inv args d
                     /\ EntityFlying3d.disparity d = Manifest.disparity e).
  assert (Hb : exists ds,
             base = (StereoDataset.entries st ++ ds)%list /\
             List.length ds
             = (if StereoDatasetArgs.synth_no_rgb args then 0 else 1)%nat /\
             Forall P ds).
  { destruct (StereoDatasetArgs.synth_no_rgb args); cbn [negb] in Hbase.
    - apply ret_ok in Hbase. destruct Hbase as [-> _].
      exists []. rewrite app_nil_r. repeat split. constructor.
    - apply bind_ok in Hbase. destruct Hbase as (d & g4 & Hd & Hbase).
      apply ret_ok in Hbase. destruct Hbase as [-> _].
      exists [d]. split; [reflexivity|]. split; [reflexivity|].
      constructor; [|constructor].
      destruct (init_inv _ _ _ _ _ _ _ _ _ _ Hd eq_refl eq_refl I
                  (gt_of_inv args e')) as (Hi & Hdisp & _).
      split; [exact Hi|congruence]. }
  assert (Hr : exists ds,
             rendered = (base ++ ds)%list /\
             List.length ds
             = (if StereoDatasetArgs.rgb_rendered args
                then rendered_count args fs e else 0)%nat /\
             Forall P ds).
  { destruct (StereoDatasetArgs.rgb_rendered args).
    - apply rendered_variants_appends in Hrend.
      destruct Hrend as (ds & -> & L & HP). exists ds.
      split; [reflexivity|]. split.
      + rewrite L. unfold rendered_count. now rewrite Ergb.
      + eapply Forall_impl; [|exact HP]. intros d [Hi Hd].
        split; [exact Hi|congruence].
    - apply ret_ok in Hrend. destruct Hrend as [-> _].
      exists []. rewrite app_nil_r. repeat split. constructor. }
  assert (Hn : exists ds,
             final = (rendered ++ ds)%list /\
             List.length ds
             = (if StereoDatasetArgs.noised_input args then 10 else 0)%nat /\
             Forall P ds).
  { destruct (StereoDatasetArgs.noised_input args) eqn:En.
    - rewrite noised_duplicates_run in Hdup.
      assert (Ef : final
                   = (rendered
                      ++ map (fun i =>
                                noised_from args e'
                                  (map (fun x => replace x "nir_rendered" "nir_ambient")
                                       (StereoDataset.nir_items n))
                                  (tape g2) (pos g2 + 3 * i)%nat)
                             (seq 0 10))%list) by congruence.
      eexists. split; [exact Ef|].
      split; [now rewrite length_map, length_seq|].
      apply Forall_forall. intros d Hd. apply in_map_iff in Hd.
      destruct Hd as (i & <- & _).
      destruct (noised_from_inv args e'
                  (map (fun x => replace x "nir_rendered" "nir_ambient")
                       (StereoDataset.nir_items n))
                  (tape g2) (pos g2 + 3 * i)%nat En) as [Hi Hd].
      split; [exact Hi|congruence].
    - apply ret_ok in Hdup. destruct Hdup as [-> _].
      exists []. rewrite app_nil_r. repeat split. constructor. }
  destruct Hb as (d1 & -> & L1 & P1).
  destruct Hr as (d2 & -> & L2 & P2).
  destruct Hn as (d3 & -> & L3 & P3).
  exists (d1 ++ d2 ++ d3)%list. split; [now rewrite !app_assoc|].
  split.
  - rewrite !length_app, L1, L2, L3. unfold expansion_count. lia.
  - repeat (apply Forall_app; split); assumption.
Qed.

(** X2. Whenever the body of the loop completes for a record, what it
    has appended to the descriptor list is, in this order: the base
    descriptor unless RGB suppression is set; with rendered variants on,
    one descriptor for every color rendering index strictly below the
    probed color index, paired with every NIR rendering index strictly
    below the probed NIR index (or with the record's NIR pair when NIR
    renderings are not used), on exactly those rendering paths; and ten
    noised duplicates when noised input is on.  The probed index itself is
    not used: a record whose highest rendering is number 0 gets no rendered
    variant.  Every appended descriptor carries the record's disparity
    paths. *)
Theorem process_record_expansion_count {ext : External}
  (args : StereoDatasetArgs.t) (fs : FileSystem.t) (validate : bool)
  (e : Manifest.entry) (st st' : StereoDataset.loop_state) (g g' : rng) :
  StereoDataset.process_record args fs validate e st g = Ok (st', g') ->
  exists n e' base rendered noised,
    StereoDataset.resolve_nir e g = Ok ((n, e'), g) /\
    StereoDataset.entries st'
    = (StereoDataset.entries st ++ base ++ rendered ++ noised)%list /\
    List.length base
    = (if StereoDatasetArgs.synth_no_rgb args then 0 else 1)%nat /\
    map EntityFlying3d.images rendered
    = (if StereoDatasetArgs.rgb_rendered args
       then rendered_images args fs e n else []) /\
    List.length rendered
    = (if StereoDatasetArgs.rgb_rendered args
       then rendered_count args fs e else 0)%nat /\
    (forall rgb0 rest,
        Manifest.rgb e = rgb0 :: rest ->
        StereoDataset.probe fs rgb0 "frame_shaded" <= 0 ->
        rendered = []) /\
    List.length noised
    = (if StereoDatasetArgs.noised_input args then 10 else 0)%nat /\
    List.length (base ++ rendered ++ noised) = expansion_count args fs e /\
    Forall (fun d => descriptor_inv args d
                     /\ EntityFlying3d.disparity d = Manifest.disparity e)
           (base ++ rendered ++ noised).
Proof.
  intros H.
  destruct (process_record_appends args fs validate e st st' g g' H)
    as (ds & Hds & Lds & Pds).
  apply process_record_parts in H.
  destruct H as (n & e' & base & rendered & noised & Hnir & H).
  cbv zeta in H. destruct H as (Hent & Hbase & Mr & _ & Hnoised & _).
  assert (Eds : ds = (base ++ rendered ++ noised)%list).
  { rewrite Hent in Hds. now apply app_inv_head in Hds. }
  subst ds.
  assert (Lr : List.length rendered
               = if StereoDatasetArgs.rgb_rendered args
                 then rendered_count args fs e else 0%nat).
  { rewrite <- (length_map EntityFlying3d.images), Mr.
    destruct (StereoDatasetArgs.rgb_rendered args); [|reflexivity].
    apply length_rendered_images. }
  exists n, e', base, rendered, noised.
  split; [exact Hnir|]. split; [exact Hent|].
  split; [rewrite Hbase; now destruct (StereoDatasetArgs.synth_no_rgb args)|].
  split; [exact Mr|]. split; [exact Lr|].
  split.
  { intros rgb0 rest Er Hp. apply length_zero_iff_nil. rewrite Lr.
    destruct (StereoDatasetArgs.rgb_rendered args); [|reflexivity].
    unfold rendered_count. rewrite Er.
    replace (Z.to_nat (StereoDataset.probe fs rgb0 "frame_shaded"))
      with 0%nat by lia.
    reflexivity. }
  split.
  { rewrite Hnoised.
    destruct (StereoDatasetArgs.noised_input args); [|reflexivity].
    now rewrite length_map, length_seq. }
  split; [exact Lds|exact Pds].
Qed.

(** The theorem applies to a record whose color and NIR renderings 0 and 1
    exist: both probed indices are 1, and the record gets its base
    descriptor and the one variant on the renderings number 0. *)
Lemma process_record_expansion_count_witness :
  StereoDataset.probe rendered_fs "frames_cleanpass/left/1.png" "frame_shaded"
  = 1 /\
  exists st' g',
    StereoDataset.process_record (ext := Fixture.ext) rendered_args
      rendered_fs false rendered_record
      (StereoDataset.mk_state [] []) (Fixture.replay [])
    = Ok (st', g') /\
    map EntityFlying3d.images (skipn 1 (StereoDataset.entries st'))
    = [["frame_shaded/left/1_0.png"; "frame_shaded/right/1_0.png";
        "frame_shaded_nir/left/1_0.png"; "frame_shaded_nir/right/1_0.png"]].
Proof.
  split; [reflexivity|].
  destruct (StereoDataset.process_record (ext := Fixture.ext)
              rendered_args rendered_fs false rendered_record
              (StereoDataset.mk_state [] []) (Fixture.replay []))
    as [[st' g']|err] eqn:E.
  - exists st', g'. split; [reflexivity|].
    destruct (process_record_expansion_count (ext := Fixture.ext)
                rendered_args rendered_fs false rendered_record
                (StereoDataset.mk_state [] []) st' (Fixture.replay []) g' E)
      as (n & e' & base & rendered & noised & Hnir & Hent & Lb & Mr & _ & _
          & Ln & _).
    vm_compute in Hnir. injection Hnir as <- _.
    rewrite Hent. cbn [StereoDataset.entries app].
    destruct base as [|b0 [|b1 base]]; try discriminate Lb.
    destruct noised; [|discriminate Ln].
    cbn [app skipn]. rewrite app_nil_r, Mr. reflexivity.
  - vm_compute in E. discriminate E.
Defined.

Lemma expand_from_entries_inv {ext : External} args fs stop validate
  (records : list Manifest.entry) :
  forall idx st g st' g',
    Forall (descriptor_inv args) (StereoDataset.entries st) ->
    StereoDataset.expand_from args fs stop validate idx records st g
    = Ok (st', g') ->
    Forall (descriptor_inv args) (StereoDataset.entries st').
Proof.
  induction records as [|e rest IH]; intros idx st g st' g' Hst H.
  - apply ret_ok in H. destruct H as [-> _]. exact Hst.
  - cbn [StereoDataset.expand_from] in H.
    destruct (StereoDatasetArgs.synth_no_filter args
              && Manifest.has_key "frame_burnt_filtered" e).
    + eapply IH; eauto.
    + destruct (stop (StereoDataset.entries st) idx).
      * apply ret_ok in H. destruct H as [-> _]. exact Hst.
      * apply bind_ok in H. destruct H as (st1 & g1 & Hp & H).
        eapply IH; [|exact H].
        apply process_record_appends in Hp.
        destruct Hp as (ds & -> & _ & HP).
        apply Forall_app. split; [exact Hst|].
        eapply Forall_impl; [|exact HP]. now intros d [Hd _].
Qed.

(** X3. Every descriptor a manifest expansion returns has the RGB noise
    target (the NIR target is never selected), a shift distance in
    [8..16], the shift and right-disparity flags of the dataset arguments,
    the vertical rescale only if the arguments ask for it, a guided-noise
    level only in noised mode and then in [[0, 20)], a gamma factor only
    together with a guided-noise level and then in [[0, 2)], and a
    ground-truth color list exactly when the arguments ask for one. *)
Theorem flow3d_descriptors_invariant {ext : External}
  (args : StereoDatasetArgs.t) (fs : FileSystem.t) (filename : string)
  (validate : bool) (g : rng) (o : StereoDataset.outcome) (g' : rng) :
  StereoDataset.flow3d_driving_json args fs filename validate g = Ok (o, g') ->
  Forall (descriptor_inv args) (StereoDataset.returned o).
Proof.
  intros H. unfold StereoDataset.flow3d_driving_json in H.
  apply bind_ok in H. destruct H as (records & g1 & _ & H).
  apply bind_ok in H. destruct H as (st & g2 & Hloop & H).
  apply expand_from_entries_inv in Hloop; [|constructor].
  destruct validate; apply ret_ok in H; destruct H as [-> _]; exact Hloop.
Qed.

Lemma flow3d_descriptors_invariant_witness :
  exists o g',
    StereoDataset.flow3d_driving_json (ext := Fixture.ext) Fixture.noised_args
      (Fixture.fs [Fixture.good_record]) StereoDataset.DRIVING_JSON false
      (Fixture.replay [])
    = Ok (o, g') /\
    Forall (descriptor_inv Fixture.noised_args) (StereoDataset.returned o).
Proof.
  destruct (StereoDataset.flow3d_driving_json (ext := Fixture.ext)
              Fixture.noised_args (Fixture.fs [Fixture.good_record])
              StereoDataset.DRIVING_JSON false (Fixture.replay []))
    as [[o g']|err] eqn:E.
  - exists o, g'. split; [reflexivity|].
    exact (flow3d_descriptors_invariant (ext := Fixture.ext) _ _ _ _ _ _ _ E).
  - vm_compute in E. discriminate E.
Defined.

(** ** Validation and the descriptors *)

Lemma process_record_validate_irrelevant {ext : External} args fs e st1 st2 g :
  StereoDataset.entries st1 = StereoDataset.entries st2 ->
  match StereoDataset.process_record args fs true e st1 g,
        StereoDataset.process_record args fs false e st2 g with
  | Ok (s1, g1), Ok (s2, g2) =>
      StereoDataset.entries s1 = StereoDataset.entries s2 /\ g1 = g2
  | Raise e1, Raise e2 => e1 = e2
  | _, _ => False
  end.
Proof.
  intros E. unfold StereoDataset.process_record, bind. rewrite E.
  destruct (StereoDataset.resolve_nir e g) as [[[n e'] g0]|err]; [|reflexivity].
  match goal with
  | |- context [match ?m g0 with _ => _ end] => destruct (m g0) as [[b g1]|err]
  end; [|reflexivity].
  match goal with
  | |- context [match ?m g1 with _ => _ end] => destruct (m g1) as [[r g2]|err]
  end; [|reflexivity].
  match goal with
  | |- context [match ?m g2 with _ => _ end] => destruct (m g2) as [[f g3]|err]
  end; [|reflexivity].
  cbn. split; reflexivity.
Qed.

Lemma expand_from_validate_irrelevant {ext : External} args fs stop
  (records : list Manifest.entry) :
  forall idx st1 st2 g,
    StereoDataset.entries st1 = StereoDataset.entries st2 ->
    match StereoDataset.expand_from args fs stop true idx records st1 g,
          StereoDataset.expand_from args fs stop false idx records st2 g with
    | Ok (s1, g1), Ok (s2, g2) =>
        StereoDataset.entries s1 = StereoDataset.entries s2 /\ g1 = g2
    | Raise e1, Raise e2 => e1 = e2
    | _, _ => False
    end.
Proof.
  induction records as [|e rest IH]; intros idx st1 st2 g E.
  - cbn. split; [exact E|reflexivity].
  - cbn [StereoDataset.expand_from].
    destruct (StereoDatasetArgs.synth_no_filter args
              && Manifest.has_key "frame_burnt_filtered" e).
    + now apply IH.
    + rewrite E. destruct (stop (StereoDataset.entries st2) idx).
      * cbn. split; [exact E|reflexivity].
      * unfold bind.
        pose proof (process_record_validate_irrelevant args fs e st1 st2 g E) as Hp.
        destruct (StereoDataset.process_record args fs true e st1 g)
          as [[s1 g1]|e1];
          destruct (StereoDataset.process_record args fs false e st2 g)
            as [[s2 g2]|e2]; try contradiction.
        -- destruct Hp as [Es ->]. now apply IH.
        -- exact Hp.
Qed.

(** X4. Validation does not prune what the call returns: with the
    validation flag on or off, the call raises the same exception or
    returns the same descriptor list and leaves the generator in the same
    state; records dropped from the rewritten manifest keep their
    descriptors. *)
Theorem validation_keeps_descriptors {ext : External}
  (args : StereoDatasetArgs.t) (fs : FileSystem.t) (filename : string)
  (g : rng) :
  match StereoDataset.flow3d_driving_json args fs filename true g,
        StereoDataset.flow3d_driving_json args fs filename false g with
  | Ok (o1, g1), Ok (o2, g2) =>
      StereoDataset.returned o1 = StereoDataset.returned o2 /\ g1 = g2
  | Raise e1, Raise e2 => e1 = e2
  | _, _ => False
  end.
Proof.
  unfold StereoDataset.flow3d_driving_json, bind, lift.
  destruct (FileSystem.load_json fs filename) as [records|err]; [|reflexivity].
  pose proof (expand_from_validate_irrelevant args fs
                (StereoDataset.cap_reached args) records 0
                (StereoDataset.mk_state [] []) (StereoDataset.mk_state [] [])
                g eq_refl) as H.
  destruct (StereoDataset.expand_from args fs (StereoDataset.cap_reached args)
              true 0 records (StereoDataset.mk_state [] []) g) as [[s1 g1]|e1];
    destruct (StereoDataset.expand_from args fs (StereoDataset.cap_reached args)
                false 0 records (StereoDataset.mk_state [] []) g)
      as [[s2 g2]|e2]; try contradiction.
  - destruct H as [Es ->]. cbn. split; [exact Es|reflexivity].
  - exact H.
Qed.

(** ** Records the loop cannot expand *)

Lemma cap_not_reached_at_start args idx :
  StereoDataset.cap_reached args [] idx = false.
Proof.
  unfold StereoDataset.cap_reached. cbn [List.length Z.of_nat].
  now rewrite andb_false_r.
Qed.

(** X5. A record without a ["nir"] key and with fewer than two color paths
    cannot be expanded: when it is the first record of the manifest and is
    not filtered out, the whole call raises [IndexError], in validation
    mode too, so that validation neither drops the record nor rewrites the
    manifest. *)
Theorem malformed_first_record_is_fatal {ext : External}
  (args : StereoDatasetArgs.t) (fs : FileSystem.t) (filename : string)
  (validate : bool) (g : rng) (e : Manifest.entry) (rest : list Manifest.entry) :
  FileSystem.load_json fs filename = Ok (e :: rest) ->
  Manifest.nir e = None ->
  (List.length (Manifest.rgb e) < 2)%nat ->
  StereoDatasetArgs.synth_no_filter args
  && Manifest.has_key "frame_burnt_filtered" e = false ->
  StereoDataset.flow3d_driving_json args fs filename validate g
  = Raise IndexError.
Proof.
  intros Hload Hnir Hlen Hkeep.
  unfold StereoDataset.flow3d_driving_json, bind at 1, lift. rewrite Hload.
  unfold bind at 1. cbn [StereoDataset.expand_from]. rewrite Hkeep.
  cbn [StereoDataset.entries]. rewrite cap_not_reached_at_start.
  unfold bind at 1, StereoDataset.process_record, bind at 1,
    StereoDataset.resolve_nir. rewrite Hnir.
  destruct (Manifest.rgb e) as [|a [|b l]]; cbn in Hlen |- *; try lia;
    reflexivity.
Qed.

Lemma malformed_first_record_is_fatal_witness :
  StereoDataset.flow3d_driving_json (ext := Fixture.ext)
    StereoDatasetArgs.default
    (Fixture.fs [Manifest.mk_entry ["L.png"] ["D.pfm"] None [];
                 Fixture.good_record])
    StereoDataset.DRIVING_JSON true (Fixture.replay [])
  = Raise IndexError.
Proof.
  apply (malformed_first_record_is_fatal (ext := Fixture.ext)
           StereoDatasetArgs.default _ StereoDataset.DRIVING_JSON true
           (Fixture.replay [])
           (Manifest.mk_entry ["L.png"] ["D.pfm"] None [])
           [Fixture.good_record]).
  - reflexivity.
  - reflexivity.
  - cbn. lia.
  - reflexivity.
Defined.

(** ** What validation checks *)

Lemma paths_exist_of_lists fs e l :
  Manifest.nir e = Some (Manifest.NirList l) ->
  no_string_values e = true ->
  StereoDataset.paths_exist fs e = true.
Proof.
  intros Hn Hs. unfold StereoDataset.paths_exist. rewrite Hn. cbn [andb].
  unfold no_string_values in Hs. rewrite forallb_forall in *.
  intros kv Hkv. specialize (Hs kv Hkv). now destruct (snd kv).
Qed.

(** X6. For a record whose NIR pair is given in the manifest and whose
    other keys hold no string, validation looks at no path of the file
    system: color, NIR and disparity paths load from JSON as lists, which
    the existence check skips.  Such a record is kept exactly when its
    first disparity file decodes, whether or not its images exist. *)
Theorem validation_skips_listed_paths {ext : External}
  (args : StereoDatasetArgs.t) (fs : FileSystem.t) (e : Manifest.entry)
  (l : list string) (st st' : StereoDataset.loop_state) (g g' : rng) :
  Manifest.nir e = Some (Manifest.NirList l) ->
  no_string_values e = true ->
  StereoDataset.process_record args fs true e st g = Ok (st', g') ->
  StereoDataset.validate_entries st'
  = if StereoDataset.disparity_decodes e
    then (StereoDataset.validate_entries st ++ [e])%list
    else StereoDataset.validate_entries st.
Proof.
  intros Hn Hs H. unfold StereoDataset.process_record in H.
  apply bind_ok in H. destruct H as ([n e'] & g0 & Hnir & H).
  unfold StereoDataset.resolve_nir in Hnir. rewrite Hn in Hnir.
  apply ret_ok in Hnir. destruct Hnir as [Hnir ->].
  injection Hnir as -> ->.
  apply bind_ok in H. destruct H as (base & g1 & _ & H).
  apply bind_ok in H. destruct H as (rendered & g2 & _ & H).
  apply bind_ok in H. destruct H as (final & g3 & _ & H).
  apply ret_ok in H. destruct H as [-> _].
  cbn [StereoDataset.validate_entries].
  now rewrite (paths_exist_of_lists fs e l Hn Hs).
Qed.

(** A record whose color and NIR images are all missing, kept by
    validation because [D.pfm] decodes. *)
Lemma validation_skips_listed_paths_witness :
  let e := Manifest.mk_entry ["no_L.png"; "no_R.png"] ["D.pfm"]
             (Some (Manifest.NirList ["no_NL.png"; "no_NR.png"])) [] in
  exists st' g',
    StereoDataset.process_record (ext := Fixture.ext) StereoDatasetArgs.default
      (Fixture.fs [e]) true e (StereoDataset.mk_state [] []) (Fixture.replay [])
    = Ok (st', g') /\
    StereoDataset.validate_entries st' = [e].
Proof.
  intros e.
  destruct (StereoDataset.process_record (ext := Fixture.ext)
              StereoDatasetArgs.default (Fixture.fs [e]) true e
              (StereoDataset.mk_state [] []) (Fixture.replay []))
    as [[st' g']|err] eqn:E.
  - exists st', g'. split; [reflexivity|].
    rewrite (validation_skips_listed_paths (ext := Fixture.ext)
               StereoDatasetArgs.default (Fixture.fs [e]) e
               ["no_NL.png"; "no_NR.png"] (StereoDataset.mk_state [] []) st'
               (Fixture.replay []) g' eq_refl eq_refl E).
    reflexivity.
  - vm_compute in E. discriminate E.
Defined.

Lemma expand_from_unfiltered {ext : External} args fs stop validate
  (records : list Manifest.entry) :
  StereoDatasetArgs.synth_no_filter args = true ->
  forall idx st g st' g',
    Forall (fun e => Manifest.has_key "frame_burnt_filtered" e = false)
           (StereoDataset.validate_entries st) ->
    StereoDataset.expand_from args fs stop validate idx records st g
    = Ok (st', g') ->
    Forall (fun e => Manifest.has_key "frame_burnt_filtered" e = false)
           (StereoDataset.validate_entries st').
Proof.
  intros Hf. induction records as [|e rest IH]; intros idx st g st' g' Hst H.
  - apply ret_ok in H. destruct H as [-> _]. exact Hst.
  - cbn [StereoDataset.expand_from] in H. rewrite Hf in H. cbn [andb] in H.
    destruct (Manifest.has_key "frame_burnt_filtered" e) eqn:Ek.
    + eapply IH; eauto.
    + destruct (stop (StereoDataset.entries st) idx).
      * apply ret_ok in H. destruct H as [-> _]. exact Hst.
      * apply bind_ok in H. destruct H as (st1 & g1 & Hp & H).
        eapply IH; [|exact H].
        apply process_record_validate_entries in Hp.
        destruct Hp as [->|(e' & _ & -> & _ & _ & Eo & _ & _)]; [exact Hst|].
        apply Forall_app. split; [exact Hst|].
        constructor; [|constructor].
        unfold Manifest.has_key in *. now rewrite Eo.
Qed.

(** X7. With [synth_no_filter] set, validation removes the filtered
    records from the manifest: no record written back to the file carries
    the [frame_burnt_filtered] key, whether or not its files exist. *)
Theorem validation_drops_filtered_records {ext : External}
  (args : StereoDatasetArgs.t) (fs : FileSystem.t) (filename : string)
  (g : rng) (o : StereoDataset.outcome) (g' : rng) :
  StereoDatasetArgs.synth_no_filter args = true ->
  StereoDataset.flow3d_driving_json args fs filename true g = Ok (o, g') ->
  exists written,
    StereoDataset.files o filename = Some (FileSystem.JsonFile written) /\
    Forall (fun e => Manifest.has_key "frame_burnt_filtered" e = false) written.
Proof.
  intros Hf H. unfold StereoDataset.flow3d_driving_json in H.
  apply bind_ok in H. destruct H as (records & g1 & _ & H).
  apply bind_ok in H. destruct H as (st & g2 & Hloop & H).
  apply ret_ok in H. destruct H as [-> _].
  apply (expand_from_unfiltered args fs _ true records Hf) in Hloop;
    [|constructor].
  exists (Manifest.json_dump (StereoDataset.validate_entries st)).
  cbn [StereoDataset.files]. unfold FileSystem.dump_json.
  rewrite String.eqb_refl. split; [reflexivity|].
  unfold Manifest.json_dump. apply Forall_map.
  eapply Forall_impl; [|exact Hloop]. intros e He. exact He.
Qed.

(** A filtered record whose files all exist is erased from the manifest;
    the record after it remains. *)
Lemma validation_drops_filtered_records_witness :
  let args := StereoDatasetArgs.mk "/bean/depth" false false false true false
                false false false false false false false true in
  let filtered := Manifest.mk_entry ["L.png"; "R.png"] ["D.pfm"] None
                    [("frame_burnt_filtered", Manifest.JOther)] in
  exists o g' written,
    StereoDataset.flow3d_driving_json (ext := Fixture.ext) args
      (Fixture.fs [filtered; Fixture.good_record]) StereoDataset.DRIVING_JSON
      true (Fixture.replay [])
    = Ok (o, g') /\
    StereoDataset.files o StereoDataset.DRIVING_JSON
    = Some (FileSystem.JsonFile written) /\
    Forall (fun e => Manifest.has_key "frame_burnt_filtered" e = false) written.
Proof.
  intros args filtered.
  destruct (StereoDataset.flow3d_driving_json (ext := Fixture.ext) args
              (Fixture.fs [filtered; Fixture.good_record])
              StereoDataset.DRIVING_JSON true (Fixture.replay []))
    as [[o g']|err] eqn:E.
  - destruct (validation_drops_filtered_records (ext := Fixture.ext) args
                (Fixture.fs [filtered; Fixture.good_record])
                StereoDataset.DRIVING_JSON (Fixture.replay []) o g' eq_refl E)
      as (written & Hw & Hall).
    exists o, g', written. split; [reflexivity|]. split; assumption.
  - vm_compute in E. discriminate E.
Defined.

(** ** Paths without the render markers *)

Lemma replace_from_absent (old new s : string) :
  contains old s = false -> replace_from old new 0 s = s.
Proof.
  induction s as [|c s IH]; intros H; [reflexivity|].
  cbn [contains] in H. apply orb_false_iff in H. destruct H as [Hp Hc].
  cbn [replace_from]. rewrite Hp, (IH Hc). reflexivity.
Qed.

Lemma replace_absent (s old new : string) :
  contains old s = false -> replace s old new = s.
Proof.
  intros H. destruct old as [|c old].
  - destruct s; discriminate H.
  - unfold replace. now apply replace_from_absent.
Qed.

(** X8. For a record without a ["nir"] key whose two color paths contain
    neither [frames_cleanpass] nor [nir_rendered], the substitutions that
    derive the NIR and ambient-NIR paths change nothing: the base
    descriptor lists the two color images again as its NIR pair. *)
Theorem nir_paths_alias_color_paths {ext : External}
  (args : StereoDatasetArgs.t) (fs : FileSystem.t) (validate : bool)
  (e : Manifest.entry) (a b : string)
  (st st' : StereoDataset.loop_state) (g g' : rng) :
  Manifest.nir e = None ->
  Manifest.rgb e = [a; b] ->
  contains "frames_cleanpass" a = false ->
  contains "frames_cleanpass" b = false ->
  contains "nir_rendered" a = false ->
  contains "nir_rendered" b = false ->
  StereoDatasetArgs.synth_no_rgb args = false ->
  StereoDataset.process_record args fs validate e st g = Ok (st', g') ->
  exists d rest,
    StereoDataset.entries st' = (StereoDataset.entries st ++ d :: rest)%list /\
    EntityFlying3d.images d = [a; b; a; b].
Proof.
  intros Hnir Hrgb Ha Hb Ha' Hb' Hno H.
  unfold StereoDataset.process_record in H.
  apply bind_ok in H. destruct H as ([n e'] & g0 & Hres & H).
  pose proof (resolve_nir_ok args _ _ _ _ _ Hres) as (Ergb & _ & _ & _ & _ & ->).
  unfold StereoDataset.resolve_nir in Hres. rewrite Hnir, Hrgb in Hres.
  cbn [index nth_error lift bind] in Hres.
  rewrite (replace_absent a _ _ Ha), (replace_absent b _ _ Hb) in Hres.
  unfold bind, lift, ret in Hres. injection Hres as <- _.
  cbn [StereoDataset.nir_items map] in H.
  rewrite (replace_absent a _ _ Ha'), (replace_absent b _ _ Hb') in H.
  rewrite Hno in H. cbn [negb] in H.
  apply bind_ok in H. destruct H as (base & g1 & Hbase & H).
  apply bind_ok in Hbase. destruct Hbase as (d & g4 & Hd & Hbase).
  apply ret_ok in Hbase. destruct Hbase as [-> _].
  destruct (init_inv _ _ _ _ _ _ _ _ _ _ Hd eq_refl eq_refl I
              (gt_of_inv args e')) as (_ & _ & Himg).
  rewrite Ergb, Hrgb in Himg. cbn [app] in Himg.
  apply bind_ok in H. destruct H as (rendered & g2 & Hrend & H).
  apply bind_ok in H. destruct H as (final & g3 & Hdup & H).
  apply ret_ok in H. destruct H as [-> _]. cbn [StereoDataset.entries].
  assert (Hr : exists ds, rendered = ((StereoDataset.entries st ++ [d]) ++ ds)%list).
  { destruct (StereoDatasetArgs.rgb_rendered args).
    - apply rendered_variants_appends in Hrend.
      destruct Hrend as (ds & -> & _). now exists ds.
    - apply ret_ok in Hrend. destruct Hrend as [-> _]. exists [].
      now rewrite app_nil_r. }
  destruct Hr as (ds & ->).
  assert (Hn : exists ds', final
                 = (((StereoDataset.entries st ++ [d]) ++ ds) ++ ds')%list).
  { destruct (StereoDatasetArgs.noised_input args).
    - rewrite noised_duplicates_run in Hdup. inversion Hdup.
      eexists. reflexivity.
    - apply ret_ok in Hdup. destruct Hdup as [-> _]. exists [].
      now rewrite app_nil_r. }
  destruct Hn as (ds' & ->).
  exists d, (ds ++ ds')%list. split; [|exact Himg].
  rewrite <- !app_assoc. reflexivity.
Qed.

Lemma nir_paths_alias_color_paths_witness :
  exists st' g' d rest,
    StereoDataset.process_record (ext := Fixture.ext) StereoDatasetArgs.default
      (Fixture.fs [Fixture.good_record]) false Fixture.good_record
      (StereoDataset.mk_state [] []) (Fixture.replay [])
    = Ok (st', g') /\
    StereoDataset.entries st' = d :: rest /\
    EntityFlying3d.images d = ["L.png"; "R.png"; "L.png"; "R.png"].
Proof.
  destruct (StereoDataset.process_record (ext := Fixture.ext)
              StereoDatasetArgs.default (Fixture.fs [Fixture.good_record])
              false Fixture.good_record (StereoDataset.mk_state [] [])
              (Fixture.replay [])) as [[st' g']|err] eqn:E.
  - destruct (nir_paths_alias_color_paths (ext := Fixture.ext)
                StereoDatasetArgs.default (Fixture.fs [Fixture.good_record])
                false Fixture.good_record "L.png" "R.png"
                (StereoDataset.mk_state [] []) st' (Fixture.replay []) g'
                eq_refl eq_refl eq_refl eq_refl eq_refl eq_refl eq_refl E)
      as (d & rest & Hent & Himg).
    exists st', g', d, rest. split; [reflexivity|]. split; assumption.
  - vm_compute in E. discriminate E.
Defined.


(** ** Shuffled datasets *)

Lemma Permutation_flat_map_l {A B} (f : A -> list B) (l l' : list A) :
  Permutation l l' -> Permutation (flat_map f l) (flat_map f l').
Proof.
  induction 1; cbn [flat_map].
  - constructor.
  - now apply Permutation_app_head.
  - rewrite !app_assoc. apply Permutation_app_tail, Permutation_app_comm.
  - etransitivity; eauto.
Qed.

Lemma positions_enumerate {A} (l : list A) :
  flat_map (fun j => match nth_error l j with
                     | Some x => [x]
                     | None => []
                     end) (seq 0 (List.length l)) = l.
Proof.
  induction l as [|x l IH]; [reflexivity|].
  cbn [List.length seq flat_map nth_error app].
  rewrite <- seq_shift, flat_map_concat_map, map_map, <- flat_map_concat_map.
  cbn [nth_error]. now rewrite IH.
Qed.

Lemma sample_all_perm {A} (population : list A) (g : rng) :
  exists shuffled g',
    PySeq.sample_all population g = Ok (shuffled, g') /\
    Permutation shuffled population.
Proof.
  unfold PySeq.sample_all, randperm, bind, ret.
  pose proof (randperm_from_perm (List.length population) g) as P.
  destruct (randperm_from (List.length population) g) as [perm g1].
  cbn [fst] in P. do 2 eexists. split; [reflexivity|].
  rewrite (Permutation_flat_map_l _ _ _ P). now rewrite positions_enumerate.
Qed.

(** X9. Constructing an [EntityDataSet] never fails and only reorders:
    the stored list is a permutation of the descriptors given, so the
    dataset has their number and holds each of them exactly as often as
    the argument did. *)
Theorem entity_dataset_is_a_shuffle (input_list : list Entity.t) (g : rng) :
  exists shuffled g',
    EntityDataSet.init input_list g = Ok (shuffled, g') /\
    Permutation shuffled input_list /\
    EntityDataSet.len shuffled = EntityDataSet.len input_list.
Proof.
  destruct (sample_all_perm input_list g) as (shuffled & g' & E & P).
  exists shuffled, g'. split; [exact E|]. split; [exact P|].
  unfold EntityDataSet.len. now rewrite (Permutation_length P).
Qed.

(** ** The train and validation split *)

Lemma slice_partition {A} (l : list A) (t : Z) :
  (PySeq.slice_to l t ++ PySeq.slice_from l t)%list = l.
Proof. apply firstn_skipn. Qed.

Lemma slice_from_last_100 {A} (l : list A) :
  100 <= Z.of_nat (List.length l) ->
  List.length (PySeq.slice_from l (Z.of_nat (List.length l) - 100)) = 100%nat.
Proof.
  intros H. unfold PySeq.slice_from, PySeq.clamp.
  rewrite length_skipn.
  destruct (Z.of_nat (List.length l) - 100 <? 0) eqn:E.
  - apply Z.ltb_lt in E. lia.
  - lia.
Qed.

Lemma slice_to_firstn {A} (l : list A) (t : Z) :
  0 <= t -> PySeq.slice_to l t = firstn (Z.to_nat t) l.
Proof.
  intros H. unfold PySeq.slice_to, PySeq.clamp.
  replace (t <? 0) with false by (symmetry; apply Z.ltb_ge; lia).
  destruct (Z.le_gt_cases t (Z.of_nat (List.length l))).
  - now rewrite Z.min_l.
  - rewrite Z.min_r, Nat2Z.id by lia.
    rewrite firstn_all. symmetry. apply firstn_all2. lia.
Qed.

Lemma entity_init_ok (l : list Entity.t) (g : rng) s g' :
  EntityDataSet.init l g = Ok (s, g') -> Permutation s l.
Proof.
  intros H. destruct (sample_all_perm l g) as (s' & g1 & E & P).
  unfold EntityDataSet.init in H. rewrite E in H. now injection H as <- _.
Qed.

Lemma length_slice_to_half {A} (l : list A) (k : Z) :
  0 < k ->
  List.length (PySeq.slice_to l (Z.of_nat (List.length l) / k))
  = Z.to_nat (Z.of_nat (List.length l) / k).
Proof.
  intros Hk.
  assert (0 <= Z.of_nat (List.length l) / k <= Z.of_nat (List.length l)).
  { split; [apply Z.div_pos; lia|].
    apply Z.div_le_upper_bound; [lia|]. nia. }
  rewrite slice_to_firstn, length_firstn by lia. lia.
Qed.

Lemma slice_from_length {A} (l : list A) (t : Z) :
  0 <= t <= Z.of_nat (List.length l) ->
  Z.of_nat (List.length (PySeq.slice_from l t)) = Z.of_nat (List.length l) - t.
Proof.
  intros H. unfold PySeq.slice_from, PySeq.clamp.
  replace (t <? 0) with false by (symmetry; apply Z.ltb_ge; lia).
  rewrite length_skipn. lia.
Qed.

Lemma firstn_quotient {A} (l : list A) (k : Z) :
  0 < k ->
  PySeq.slice_to l (Z.of_nat (List.length l) / k)
  = firstn (List.length l / Z.to_nat k) l.
Proof.
  intros Hk. rewrite slice_to_firstn by (apply Z.div_pos; lia).
  f_equal.
  rewrite <- (Z2Nat.id k) at 1 by lia.
  rewrite <- Nat2Z.inj_div, Nat2Z.id. reflexivity.
Qed.

(** X10. When [init_dataloader] completes, both synthetic datasets were
    built, the flying one first, and the validation set is a shuffle of the
    tail [input_list[cnt - 100:]] of the real-capture list, where [cnt] is
    what [len] returns for the real-capture dataset.  In the real-input
    branch the training set is a shuffle of the head
    [input_list[:cnt - 100]] followed by the first half (rounded down) of
    the driving descriptors and the first tenth of the flying ones, so that
    every real descriptor is in exactly one of the two sets; in the other
    branch the training set holds no real descriptor at all: it is a
    shuffle of all driving descriptors and the first fifth of the flying
    ones.  When [cnt] is the length of the real-capture list and is at
    least 100, the validation set has exactly 100 descriptors. *)
Theorem train_valid_split {ext : External} (real : bool)
  (h5 : list Entity.t) (cnt : Z) (fs : FileSystem.t) (g : rng)
  (out : RaftTrainer.loaders) (g' : rng) :
  RaftTrainer.init_dataloader real h5 cnt fs g = Ok (out, g') ->
  exists (fl dr : StereoDatasetObject.built) (g1 g2 : rng)
         (driving flying : list EntityFlying3d.t),
    StereoDatasetObject.init RaftTrainer.flying_args false None fs g
    = Ok (fl, g1) /\
    StereoDatasetObject.input_list (fst (fst fl)) = Some flying /\
    StereoDatasetObject.init RaftTrainer.driving_args false None
      (snd (fst fl)) g1
    = Ok (dr, g2) /\
    StereoDatasetObject.input_list (fst (fst dr)) = Some driving /\
    Permutation (RaftTrainer.dataset_valid out)
      (PySeq.slice_from h5 (cnt - 100)) /\
    (if real
     then Permutation (RaftTrainer.dataset_train out)
            (PySeq.slice_to h5 (cnt - 100)
             ++ map Entity.Flying3d
                  (firstn (List.length driving / 2) driving)
             ++ map Entity.Flying3d
                  (firstn (List.length flying / 10) flying))%list /\
          Permutation
            (RaftTrainer.dataset_train out ++ RaftTrainer.dataset_valid out)%list
            (h5 ++ map Entity.Flying3d
                     (firstn (List.length driving / 2) driving
                      ++ firstn (List.length flying / 10) flying))%list
     else Permutation (RaftTrainer.dataset_train out)
            (map Entity.Flying3d
               (driving ++ firstn (List.length flying / 5) flying))%list) /\
    (cnt = EntityDataSet.len h5 -> 100 <= cnt ->
     List.length (RaftTrainer.dataset_valid out) = 100%nat).
Proof.
  intros H. unfold RaftTrainer.init_dataloader in H.
  apply bind_ok in H. destruct H as ([[fl fs1] out1] & g1 & Hfl & H).
  apply bind_ok in H. destruct H as ([[dr fs2] out2] & g2 & Hdr & H).
  destruct (StereoDatasetObject.input_list fl) as [flying|] eqn:Efl;
    [|discriminate H].
  destruct (StereoDatasetObject.input_list dr) as [driving|] eqn:Edr;
    [|discriminate H].
  apply bind_ok in H. destruct H as (valid & g3 & Hv & H).
  apply bind_ok in H. destruct H as (train & g4 & Ht & H).
  apply ret_ok in H. destruct H as [-> _].
  cbn [RaftTrainer.dataset_valid RaftTrainer.dataset_train].
  apply entity_init_ok in Hv.
  exists (fl, fs1, out1), (dr, fs2, out2), g1, g2, driving, flying.
  cbn [fst snd].
  split; [exact Hfl|]. split; [exact Efl|]. split; [exact Hdr|].
  split; [exact Edr|]. split; [exact Hv|].
  unfold EntityDataSet.len in Ht.
  split.
  - destruct real; apply entity_init_ok in Ht.
    + rewrite !firstn_quotient in Ht by lia.
      rewrite !length_map, !firstn_map in Ht.
      change (Z.to_nat 2) with 2%nat in Ht.
      change (Z.to_nat 10) with 10%nat in Ht.
      split; [exact Ht|].
      rewrite (Permutation_app Ht Hv).
      rewrite <- (slice_partition h5 (cnt - 100)) at 3.
      rewrite map_app, <- !app_assoc.
      apply Permutation_app_head. rewrite app_assoc.
      apply Permutation_app_comm.
    + rewrite firstn_quotient in Ht by lia.
      rewrite slice_to_firstn in Ht by lia.
      rewrite Nat2Z.id, firstn_all, length_map, firstn_map in Ht.
      change (Z.to_nat 5) with 5%nat in Ht.
      now rewrite map_app.
  - intros Ec Hc. rewrite (Permutation_length Hv). subst cnt.
    now apply slice_from_last_100.
Qed.

(** The theorem applies: three real descriptors, a driving manifest of two
    records and a flying manifest of one.  The validation set holds the
    three real descriptors, and the training set one descriptor, the first
    half of the two driving ones. *)
Lemma train_valid_split_witness :
  let h5 := [World.foreign 1; World.foreign 2; World.foreign 3] in
  let fs := World.fs [Fixture.good_record; Fixture.good_record]
              [Fixture.good_record] in
  exists out g',
    RaftTrainer.init_dataloader (ext := Fixture.ext) true h5 3 fs
      (Fixture.replay [])
    = Ok (out, g') /\
    Permutation (RaftTrainer.dataset_valid out) h5 /\
    List.length (RaftTrainer.dataset_train out) = 1%nat.
Proof.
  intros h5 fs.
  destruct (RaftTrainer.init_dataloader (ext := Fixture.ext) true h5 3 fs
              (Fixture.replay [])) as [[out g']|err] eqn:E.
  - exists out, g'. split; [reflexivity|].
    destruct (train_valid_split (ext := Fixture.ext) true h5 3 fs
                (Fixture.replay []) out g' E)
      as (fl & dr & g1 & g2 & driving & flying & Hfl & Efl & Hdr & Edr
          & Hv & [Ht _] & _).
    split; [exact Hv|].
    vm_compute in Hfl. injection Hfl as <- _.
    vm_compute in Efl. injection Efl as <-.
    vm_compute in Hdr. injection Hdr as <- _.
    vm_compute in Edr. injection Edr as <-.
    apply Permutation_length in Ht. exact Ht.
  - vm_compute in E. discriminate E.
Defined.

(** ** Datasets of single-disparity records *)

Lemma expand_from_disparities {ext : External} args fs stop validate
  (P : list string -> Prop) (records : list Manifest.entry) :
  Forall (fun e => P (Manifest.disparity e)) records ->
  forall idx st g st' g',
    Forall (fun d => P (EntityFlying3d.disparity d)) (StereoDataset.entries st) ->
    StereoDataset.expand_from args fs stop validate idx records st g
    = Ok (st', g') ->
    Forall (fun d => P (EntityFlying3d.disparity d)) (StereoDataset.entries st').
Proof.
  induction records as [|e rest IH]; intros Hrec idx st g st' g' Hst H.
  - apply ret_ok in H. destruct H as [-> _]. exact Hst.
  - inversion Hrec as [|? ? He Hrest]; subst.
    cbn [StereoDataset.expand_from] in H.
    destruct (StereoDatasetArgs.synth_no_filter args
              && Manifest.has_key "frame_burnt_filtered" e).
    + eapply IH; eauto.
    + destruct (stop (StereoDataset.entries st) idx).
      * apply ret_ok in H. destruct H as [-> _]. exact Hst.
      * apply bind_ok in H. destruct H as (st1 & g1 & Hp & H).
        eapply IH; [exact Hrest| |exact H].
        apply process_record_appends in Hp.
        destruct Hp as (ds & -> & _ & HP).
        apply Forall_app. split; [exact Hst|].
        eapply Forall_impl; [|exact HP]. intros d [_ Hd]. now rewrite Hd.
Qed.

(** X11. A dataset expanded from a manifest whose records all list at
    most one disparity path yields no sample: every descriptor the
    expansion returns raises on access, whatever the generator state,
    because [get_item] reads [self.disparity[1]] unconditionally. *)
Theorem single_disparity_manifest_yields_no_sample
  {ext : External} {ip : ImageProcess}
  (args : StereoDatasetArgs.t) (fs : FileSystem.t) (filename : string)
  (validate : bool) (records : list Manifest.entry)
  (g : rng) (o : StereoDataset.outcome) (g' : rng) :
  FileSystem.load_json fs filename = Ok records ->
  Forall (fun e => (List.length (Manifest.disparity e) <= 1)%nat) records ->
  StereoDataset.flow3d_driving_json args fs filename validate g = Ok (o, g') ->
  Forall (fun d => forall g2, exists err,
                     EntityFlying3d.get_item d g2 = Raise err)
         (StereoDataset.returned o).
Proof.
  intros Hload Hrec H. unfold StereoDataset.flow3d_driving_json in H.
  apply bind_ok in H. destruct H as (records' & g1 & Hl & H).
  apply lift_ok in Hl. destruct Hl as [Hl ->].
  rewrite Hload in Hl. injection Hl as <-.
  apply bind_ok in H. destruct H as (st & g2 & Hloop & H).
  apply (expand_from_disparities args fs _ validate
           (fun l => (List.length l <= 1)%nat) records Hrec) in Hloop;
    [|constructor].
  assert (Hret : StereoDataset.returned o = StereoDataset.entries st)
    by (destruct validate; apply ret_ok in H; destruct H as [-> _];
        reflexivity).
  rewrite Hret. eapply Forall_impl; [|exact Hloop].
  intros d Hd g3. rewrite get_item_without_right_disparity.
  - destruct (EntityFlying3d.load_left d g3); eauto.
  - cbv beta in Hd. unfold index.
    destruct (EntityFlying3d.disparity d) as [|x [|y l]];
      cbn [nth_error List.length] in Hd |- *; [reflexivity|reflexivity|lia].
Qed.

Lemma single_disparity_manifest_yields_no_sample_witness :
  exists o g',
    StereoDataset.flow3d_driving_json (ext := Fixture.ext)
      StereoDatasetArgs.default (Fixture.fs [Fixture.good_record])
      StereoDataset.DRIVING_JSON false (Fixture.replay [])
    = Ok (o, g') /\
    Forall (fun d => forall g2, exists err,
                       EntityFlying3d.get_item (ext := Fixture.ext)
                         (ip := Fixture.ip) d g2 = Raise err)
           (StereoDataset.returned o).
Proof.
  destruct (StereoDataset.flow3d_driving_json (ext := Fixture.ext)
              StereoDatasetArgs.default (Fixture.fs [Fixture.good_record])
              StereoDataset.DRIVING_JSON false (Fixture.replay []))
    as [[o g']|err] eqn:E.
  - exists o, g'. split; [reflexivity|].
    apply (single_disparity_manifest_yields_no_sample (ext := Fixture.ext)
             (ip := Fixture.ip) StereoDatasetArgs.default
             (Fixture.fs [Fixture.good_record]) StereoDataset.DRIVING_JSON
             false [Fixture.good_record] (Fixture.replay []) o g').
    + reflexivity.
    + repeat constructor.
    + exact E.
  - vm_compute in E. discriminate E.
Defined.

(** ** Small frames *)

Lemma row_major_decompose (W x y : nat) :
  (x < W)%nat ->
  ((y * W + x) mod W = x)%nat /\ ((y * W + x) / W = y)%nat.
Proof.
  intros Hx. split.
  - rewrite Nat.add_comm, Nat.Div0.mod_add. now apply Nat.mod_small.
  - rewrite Nat.add_comm, Nat.div_add by lia.
    rewrite Nat.div_small by lia. reflexivity.
Qed.

(** X12. On a frame of at most 5000 pixels the sampler returns every pixel
    coordinate exactly once: the sampled pairs are distinct, there are
    [H * W] of them, and a pair is sampled if and only if it lies in the
    frame. *)
Theorem sample_uv_covers_small_frames (H W : nat) (g : rng) :
  (H * W <= 5000)%nat ->
  exists u v g',
    sample_uv H W g = Ok ((u, v), g') /\
    List.length (combine u v) = (H * W)%nat /\
    NoDup (combine u v) /\
    forall x y, In (x, y) (combine u v) <-> (x < W)%nat /\ (y < H)%nat.
Proof.
  intros Hsmall.
  destruct (sample_uv_props H W g) as (u & v & g' & E & Lu & Lv & Hnd & Hb).
  exists u, v, g'. split; [exact E|].
  split; [rewrite length_combine; lia|]. split; [exact Hnd|].
  intros x y. split.
  - intros Hin. rewrite Forall_forall in Hb. exact (Hb _ Hin).
  - intros [Hx Hy].
    unfold sample_uv, randperm, bind, ret in E.
    pose proof (randperm_from_perm (H * W) g) as P.
    destruct (randperm_from (H * W) g) as [perm g1]. cbn [fst] in P.
    assert (Hlen : List.length perm = (H * W)%nat)
      by (rewrite (Permutation_length P); apply length_seq).
    rewrite firstn_all2 in E by lia.
    inversion E as [[Eu Ev Eg]]. clear E Eu Ev Eg.
    rewrite combine_map_same.
    apply in_map_iff. exists (y * W + x)%nat. split.
    + destruct (row_major_decompose W x y Hx) as [-> ->]. reflexivity.
    + apply (Permutation_in _ (Permutation_sym P)), in_seq. nia.
Qed.

Lemma sample_uv_covers_small_frames_witness :
  exists u v g',
    sample_uv 2 3 (Fixture.replay [1%N; 0%N; 2%N]) = Ok ((u, v), g') /\
    List.length (combine u v) = 6%nat.
Proof.
  destruct (sample_uv_covers_small_frames 2 3 (Fixture.replay [1%N; 0%N; 2%N]))
    as (u & v & g' & E & L & _).
  - cbn. lia.
  - exists u, v, g'. split; [exact E|exact L].
Defined.

(** ** Noise and the other modality *)

Lemma setitem_ok {A} (l : list A) (i : nat) (x : A) (l' : list A) :
  setitem l i x = Ok l' ->
  List.length l' = List.length l /\
  nth_error l' i = Some x /\
  forall j, j <> i -> nth_error l' j = nth_error l j.
Proof.
  revert i l'. induction l as [|h t IH]; intros [|i] l' H; cbn in H;
    try discriminate.
  - injection H as <-. repeat split. intros [|j] Hj; [congruence|reflexivity].
  - destruct (setitem t i x) as [t'|] eqn:E; [|discriminate].
    injection H as <-. destruct (IH _ _ E) as (L & N & O).
    split; [cbn; congruence|]. split; [exact N|].
    intros [|j] Hj; [reflexivity|]. cbn. apply O. congruence.
Qed.

Lemma lift_setitem {A} (l : list A) (i : nat) (x : A) g l' g' :
  lift (setitem l i x) g = Ok (l', g') ->
  List.length l' = List.length l /\
  forall j, j <> i -> nth_error l' j = nth_error l j.
Proof.
  intros H. apply lift_ok in H. destruct H as [H _].
  apply setitem_ok in H. tauto.
Qed.

Ltac step H x Hs :=
  let g := fresh "g" in
  apply bind_ok in H; destruct H as (x & g & Hs & H).

Lemma guided_noise_frame {ext : External} {ip : ImageProcess}
  (self : EntityFlying3d.t) imgs g imgs' g' :
  EntityFlying3d.apply_guided_noise self imgs g = Ok (imgs', g') ->
  List.length imgs' = List.length imgs /\
  forall j, untouched_by (EntityFlying3d.noise_target self) j = true ->
            nth_error imgs' j = nth_error imgs j.
Proof.
  unfold EntityFlying3d.apply_guided_noise. intros H.
  destruct (EntityFlying3d.guided_noise self) as [gn|].
  2:{ apply ret_ok in H. destruct H as [-> _]. auto. }
  destruct (EntityFlying3d.noise_target self); cbn [untouched_by].
  - step H i2 H1. step H i0 H2. step H f0 H3. step H l1 S1.
    step H i3 H4. step H i1 H5. step H f1 H6. step H l2 S2.
    step H n H7.
    apply lift_setitem in S1, S2. destruct S1 as [L1 O1], S2 as [L2 O2].
    destruct (n =? 1).
    + step H j0 H8. step H d0 H9. step H l3 S3.
      step H j1 H10. step H d1 H11.
      apply lift_setitem in S3, H. destruct S3 as [L3 O3], H as [L4 O4].
      split; [congruence|].
      intros j Hj. apply Nat.leb_le in Hj.
      rewrite O4, O3, O2, O1 by lia. reflexivity.
    + apply ret_ok in H. destruct H as [-> _].
      split; [congruence|].
      intros j Hj. apply Nat.leb_le in Hj.
      rewrite O2, O1 by lia. reflexivity.
  - step H i0 H1. step H m0 H2. step H i2 H3. step H f2 H4. step H l1 S1.
    step H i1 H5. step H m1 H6. step H i3 H7. step H f3 H8.
    apply lift_setitem in S1, H. destruct S1 as [L1 O1], H as [L2 O2].
    split; [congruence|].
    intros j Hj. apply andb_true_iff in Hj. destruct Hj as [J2 J3].
    apply negb_true_iff, Nat.eqb_neq in J2, J3.
    rewrite O2, O1 by lia. reflexivity.
Qed.

Lemma gamma_noise_frame {ext : External} {ip : ImageProcess}
  (self : EntityFlying3d.t) imgs g imgs' g' :
  EntityFlying3d.apply_gamma_noise self imgs g = Ok (imgs', g') ->
  List.length imgs' = List.length imgs /\
  forall j, untouched_by (EntityFlying3d.noise_target self) j = true ->
            nth_error imgs' j = nth_error imgs j.
Proof.
  unfold EntityFlying3d.apply_gamma_noise. intros H.
  destruct (EntityFlying3d.gamma_noise self) as [gm|].
  2:{ apply ret_ok in H. destruct H as [-> _]. auto. }
  destruct (EntityFlying3d.noise_target self); cbn [untouched_by];
    cbv iota beta in H;
    step H ia H1; step H ga H2; step H l1 S1; step H ib H3; step H gb H4;
    apply lift_setitem in S1, H; destruct S1 as [L1 O1], H as [L2 O2];
    (split; [congruence|]); intros j Hj.
  - apply Nat.leb_le in Hj. rewrite O2, O1 by lia. reflexivity.
  - apply andb_true_iff in Hj. destruct Hj as [J2 J3].
    apply negb_true_iff, Nat.eqb_neq in J2, J3.
    rewrite O2, O1 by lia. reflexivity.
Qed.

(** X13. Noise is confined to its target modality: whenever the guided
    filter step or the patch gamma step of the synthetic descriptor
    completes, the image list keeps its length, and with the RGB target
    every image from position 2 on (the NIR pair, any further image) is
    the one that came in, while with the NIR target every image but those
    at positions 2 and 3 is. *)
Theorem noise_is_confined_to_its_target
  {ext : External} {ip : ImageProcess}
  (self : EntityFlying3d.t) (imgs imgs' : list tensor) (g g' : rng) :
  EntityFlying3d.apply_guided_noise self imgs g = Ok (imgs', g')
  \/ EntityFlying3d.apply_gamma_noise self imgs g = Ok (imgs', g') ->
  List.length imgs' = List.length imgs /\
  forall j, untouched_by (EntityFlying3d.noise_target self) j = true ->
            nth_error imgs' j = nth_error imgs j.
Proof.
  intros [H|H]; [now apply guided_noise_frame in H
                |now apply gamma_noise_frame in H].
Qed.

Lemma noise_is_confined_to_its_target_witness :
  let self := EntityFlying3d.mk ["L.png"; "R.png"; "NL.png"; "NR.png"]
                ["D.pfm"; "E.pfm"] (Some 1) None false false
                EntityFlying3d.rgb 8 false None in
  let imgs := [Fixture.image_2x2; Fixture.image_2x2;
               Fixture.mask_2x2; Fixture.disparity_2x2] in
  exists imgs' g',
    EntityFlying3d.apply_guided_noise (ext := Fixture.ext) (ip := Fixture.ip)
      self imgs (Fixture.replay [0%N])
    = Ok (imgs', g') /\
    nth_error imgs' 2 = Some Fixture.mask_2x2 /\
    nth_error imgs' 3 = Some Fixture.disparity_2x2.
Proof.
  intros self imgs.
  destruct (EntityFlying3d.apply_guided_noise (ext := Fixture.ext)
              (ip := Fixture.ip) self imgs (Fixture.replay [0%N]))
    as [[imgs' g']|err] eqn:E.
  - exists imgs', g'. split; [reflexivity|].
    destruct (noise_is_confined_to_its_target (ext := Fixture.ext)
                (ip := Fixture.ip) self imgs imgs' (Fixture.replay [0%N]) g'
                (or_introl E)) as [_ Hframe].
    split; [exact (Hframe 2%nat eq_refl)|exact (Hframe 3%nat eq_refl)].
  - vm_compute in E. discriminate E.
Defined.


(** ** What a synthetic access returns *)

Lemma mapM_length {A B} (f : A -> M B) (l : list A) :
  forall g l' g', mapM f l g = Ok (l', g') -> List.length l' = List.length l.
Proof.
  induction l as [|x l IH]; intros g l' g' H; cbn [mapM] in H.
  - apply ret_ok in H. destruct H as [-> _]. reflexivity.
  - step H y Hy. step H ys Hys. apply ret_ok in H. destruct H as [-> _].
    cbn. f_equal. eapply IH; eauto.
Qed.







Lemma bind_intro {A B} (m : M A) (k : A -> M B) g a g1 r :
  m g = Ok (a, g1) -> k a g1 = r -> bind m k g = r.
Proof. intros E1 E2. unfold bind. now rewrite E1. Qed.






(** ** What a Middlebury access returns *)

Lemma sanitize_finite (l : list fval) :
  Forall (fun e => exists q, e = FNum q) (map EntityMiddlebury.sanitize l).
Proof.
  induction l as [|[q| | |] l IH]; cbn [map EntityMiddlebury.sanitize];
    constructor; eauto.
Qed.

Lemma middlebury_get_item_inv {ext : External} {ip : ImageProcess}
  (self : EntityMiddlebury.t) (g : rng) (out : list tensor) (g' : rng) :
  EntityMiddlebury.get_item self g = Ok (out, g') ->
  exists (x y : Z) iml imr d cl cr cd pl pr pd l r ln rn lo ro,
    0 <= x <= 800 /\ 0 <= y <= 200 /\
    cv2_imread (EntityMiddlebury.left self) = Some iml /\
    cv2_imread (EntityMiddlebury.right self) = Some imr /\
    pfmread_read (EntityMiddlebury.disparity self) = Ok d /\
    crop2d iml (Z.to_nat y) (Z.to_nat x) 540 720 = Ok cl /\
    crop2d imr (Z.to_nat y) (Z.to_nat x) 540 720 = Ok cr /\
    crop2d d (Z.to_nat y) (Z.to_nat x) 540 720 = Ok cd /\
    img_pad_np cl false = Ok pl /\ permute201 pl = Ok lo /\
    img_pad_np cr false = Ok pr /\ permute201 pr = Ok ro /\
    img_pad_np (elementwise EntityMiddlebury.sanitize cd) true = Ok pd /\
    out = [l; r; ln; rn; lo; ro; unsqueeze0 pd; unsqueeze0 pd].
Proof.
  intros H. unfold EntityMiddlebury.get_item in H.
  destruct (randint_ok 0 800 g ltac:(lia)) as (x & Ex & _ & Hx).
  step H x' Hx'. rewrite Ex in Hx'.
  assert (x' = x) by congruence. subst x'.
  match type of H with
  | bind (randint 0 200) _ ?gy = _ =>
      destruct (randint_ok 0 200 gy ltac:(lia)) as (y & Ey & _ & Hy)
  end.
  step H y' Hy'. rewrite Ey in Hy'.
  assert (y' = y) by congruence. subst y'.
  step H cl Hcl. apply imread_crop_ok in Hcl. destruct Hcl as (iml & Il & Cl & _).
  step H cr Hcr. apply imread_crop_ok in Hcr. destruct Hcr as (imr & Ir & Cr & _).
  step H nl Hnl. step H nr Hnr.
  step H pl Hpl. apply lift_ok in Hpl. destruct Hpl as [Hpl _].
  step H lo Hlo. apply lift_ok in Hlo. destruct Hlo as [Hlo _].
  step H pr Hpr. apply lift_ok in Hpr. destruct Hpr as [Hpr _].
  step H ro Hro. apply lift_ok in Hro. destruct Hro as [Hro _].
  step H pln Hpln. step H prn Hprn.
  step H d Hd. apply lift_ok in Hd. destruct Hd as [Hd _].
  step H cd Hcd. apply lift_ok in Hcd. destruct Hcd as [Hcd _].
  step H pd Hpd. apply lift_ok in Hpd. destruct Hpd as [Hpd _].
  step H aug Haug. destruct aug as [[[l r] ln] rn].
  apply ret_ok in H. destruct H as [-> _].
  exists x, y, iml, imr, d, cl, cr, cd, pl, pr, pd, l, r, ln, rn, lo, ro.
  repeat (split; [first [eassumption | lia]|]). reflexivity.
Qed.

(** X15. Whenever an access to a Middlebury descriptor returns, it returns
    eight arrays.  One column offset in [[0, 800]] and one row offset in
    [[0, 200]] position the 540 by 720 window cut out of the left image, of
    the right image and of the disparity map alike.  The fifth and sixth
    arrays are the padded channel-first crops of the two color images, which
    the augmentation does not touch; the seventh and eighth arrays are one
    and the same disparity, padded after every element that is not a finite
    number has been replaced by a number. *)
Theorem middlebury_get_item_returns {ext : External} {ip : ImageProcess}
  (self : EntityMiddlebury.t) (g : rng) (out : list tensor) (g' : rng) :
  EntityMiddlebury.get_item self g = Ok (out, g') ->
  exists (x y : Z) iml imr d cl cr cd pl pr pd l r ln rn lo ro,
    (0 <= x <= 800 /\ 0 <= y <= 200) /\
    (cv2_imread (EntityMiddlebury.left self) = Some iml /\
     cv2_imread (EntityMiddlebury.right self) = Some imr /\
     pfmread_read (EntityMiddlebury.disparity self) = Ok d) /\
    (crop2d iml (Z.to_nat y) (Z.to_nat x) 540 720 = Ok cl /\
     crop2d imr (Z.to_nat y) (Z.to_nat x) 540 720 = Ok cr /\
     crop2d d (Z.to_nat y) (Z.to_nat x) 540 720 = Ok cd) /\
    (img_pad_np cl false = Ok pl /\ permute201 pl = Ok lo) /\
    (img_pad_np cr false = Ok pr /\ permute201 pr = Ok ro) /\
    (img_pad_np (elementwise EntityMiddlebury.sanitize cd) true = Ok pd /\
     Forall (fun e => exists q, e = FNum q)
       (data (elementwise EntityMiddlebury.sanitize cd))) /\
    out = [l; r; ln; rn; lo; ro; unsqueeze0 pd; unsqueeze0 pd].
Proof.
  intros H. apply middlebury_get_item_inv in H.
  destruct H as (x & y & iml & imr & d & cl & cr & cd & pl & pr & pd & l & r
                 & ln & rn & lo & ro & Hx & Hy & Il & Ir & Id & Cl & Cr & Cd
                 & Pl & Ll & Pr & Lr & Pd & ->).
  exists x, y, iml, imr, d, cl, cr, cd, pl, pr, pd, l, r, ln, rn, lo, ro.
  repeat split; try assumption; try lia.
  apply sanitize_finite.
Qed.

Lemma middlebury_get_item_returns_witness :
  exists out g',
    EntityMiddlebury.get_item (ext := Fixture.ext) (ip := Fixture.ip)
      (EntityMiddlebury.mk "D.pfm" "L.png" "R.png") (Fixture.replay [1%N; 1%N])
    = Ok (out, g') /\
    List.length out = 8%nat /\ nth_error out 6 = nth_error out 7.
Proof.
  destruct (EntityMiddlebury.get_item (ext := Fixture.ext) (ip := Fixture.ip)
              (EntityMiddlebury.mk "D.pfm" "L.png" "R.png")
              (Fixture.replay [1%N; 1%N])) as [[out g']|err] eqn:E;
    [|vm_compute in E; discriminate E].
  exists out, g'. split; [reflexivity|].
  destruct (middlebury_get_item_returns _ _ _ _ E)
    as (x & y & iml & imr & d & cl & cr & cd & pl & pr & pd & l & r
        & ln & rn & lo & ro & _ & _ & _ & _ & _ & _ & ->).
  split; reflexivity.
Defined.

Lemma crop2d_full_window (img c : tensor) (rows cols : nat) (s : list nat)
  (y x : nat) :
  shape img = rows :: cols :: s ->
  (y + 540 <= rows)%nat -> (x + 720 <= cols)%nat ->
  crop2d img y x 540 720 = Ok c ->
  shape c = 540%nat :: 720%nat :: s.
Proof.
  intros Hs Hy Hx. unfold crop2d. rewrite Hs. intros H.
  assert (E : c = mk_tensor
                    ((Nat.min (y + 540) rows - Nat.min y rows)%nat
                     :: (Nat.min (x + 720) cols - Nat.min x cols)%nat :: s)
                    (data c)).
  { destruct c as [sc dc]. cbn [data]. congruence. }
  rewrite E. cbn [shape].
  replace (Nat.min (y + 540) rows - Nat.min y rows)%nat with 540%nat by lia.
  replace (Nat.min (x + 720) cols - Nat.min x cols)%nat with 720%nat by lia.
  reflexivity.
Qed.

(** X16. When the left image of a Middlebury descriptor has at least 740
    rows and 1520 columns, the window cut out of it has exactly 540 rows and
    720 columns whatever offsets are drawn, and its padded channel-first
    form is the fifth array of the result. *)
Theorem middlebury_window_is_full {ext : External} {ip : ImageProcess}
  (self : EntityMiddlebury.t) (g : rng) (out : list tensor) (g' : rng)
  (iml : tensor) (rows cols : nat) (s : list nat) :
  EntityMiddlebury.get_item self g = Ok (out, g') ->
  cv2_imread (EntityMiddlebury.left self) = Some iml ->
  shape iml = rows :: cols :: s ->
  (740 <= rows)%nat -> (1520 <= cols)%nat ->
  exists cl pl lo,
    shape cl = 540%nat :: 720%nat :: s /\
    img_pad_np cl false = Ok pl /\ permute201 pl = Ok lo /\
    nth_error out 4 = Some lo.
Proof.
  intros H Il Hs Hr Hc. apply middlebury_get_item_inv in H.
  destruct H as (x & y & iml' & imr & d & cl & cr & cd & pl & pr & pd & l & r
                 & ln & rn & lo & ro & Hx & Hy & Il' & Ir & Id & Cl & Cr & Cd
                 & Pl & Ll & Pr & Lr & Pd & ->).
  assert (iml' = iml) by congruence. subst iml'.
  exists cl, pl, lo. split.
  - apply (crop2d_full_window iml cl rows cols s (Z.to_nat y) (Z.to_nat x));
      [exact Hs| lia | lia | exact Cl].
  - repeat split; assumption.
Qed.

Lemma middlebury_get_item_on_color_rasters (d : tensor) (rows cols : nat)
  (self : EntityMiddlebury.t) :
  shape d = [rows; cols; 3%nat] ->
  exists out g',
    EntityMiddlebury.get_item (ext := constant_ext d) (ip := Fixture.ip)
      self (Fixture.replay []) = Ok (out, g').
Proof.
  intros Hd. unfold EntityMiddlebury.get_item.
  do 2 eexists.
  eapply bind_intro; [reflexivity|].
  eapply bind_intro; [reflexivity|].
  eapply bind_intro.
  { unfold EntityMiddlebury.imread_crop. cbn [cv2_imread constant_ext].
    unfold crop2d. rewrite Hd. reflexivity. }
  eapply bind_intro.
  { unfold EntityMiddlebury.imread_crop. cbn [cv2_imread constant_ext].
    unfold crop2d. rewrite Hd. reflexivity. }
  eapply bind_intro; [reflexivity|].
  eapply bind_intro; [reflexivity|].
  eapply bind_intro; [reflexivity|].
  eapply bind_intro; [reflexivity|].
  eapply bind_intro; [reflexivity|].
  eapply bind_intro; [reflexivity|].
  eapply bind_intro; [reflexivity|].
  eapply bind_intro; [reflexivity|].
  eapply bind_intro; [reflexivity|].
  eapply bind_intro.
  { unfold crop2d. rewrite Hd. reflexivity. }
  eapply bind_intro; [reflexivity|].
  eapply bind_intro.
  { unfold EntityMiddlebury.augment.
    eapply bind_intro; [reflexivity|].
    change (70 <? 1 + Z.of_N 0 mod (100 - 1 + 1)) with false.
    change (20 <? 1 + Z.of_N 0 mod (100 - 1 + 1)) with false.
    cbv iota.
    eapply bind_intro; [reflexivity|].
    eapply bind_intro; [reflexivity|].
    reflexivity. }
  reflexivity.
Qed.

Lemma middlebury_window_is_full_witness :
  exists out g' cl lo,
    EntityMiddlebury.get_item (ext := constant_ext large_frame)
      (ip := Fixture.ip) (EntityMiddlebury.mk "D.pfm" "L.png" "R.png")
      (Fixture.replay []) = Ok (out, g') /\
    shape cl = [540; 720; 3]%nat /\
    permute201 cl = Ok lo /\ nth_error out 4 = Some lo.
Proof.
  destruct (middlebury_get_item_on_color_rasters large_frame 740 1520
              (EntityMiddlebury.mk "D.pfm" "L.png" "R.png") eq_refl)
    as (out & g' & E).
  destruct (middlebury_window_is_full (ext := constant_ext large_frame)
              (ip := Fixture.ip) _ _ out g' large_frame 740 1520 [3%nat]
              E eq_refl eq_refl ltac:(lia) ltac:(lia))
    as (cl & pl & lo & Sc & Pl & Ll & Ho).
  exists out, g', cl, lo.
  split; [exact E|]. split; [exact Sc|].
  assert (pl = cl) by (cbn [img_pad_np Fixture.ip] in Pl; congruence).
  subst pl. split; assumption.
Defined.


(** ** The images noise needs *)

Lemma index_ok {A} (l : list A) (i : nat) (x : A) g g' :
  lift (index l i) g = Ok (x, g') -> (i < List.length l)%nat.
Proof.
  intros H. apply lift_ok in H. destruct H as [H _]. unfold index in H.
  destruct (nth_error l i) eqn:E; [|discriminate].
  apply nth_error_Some. congruence.
Qed.

Lemma guided_noise_needs {ext : External} {ip : ImageProcess}
  (self : EntityFlying3d.t) imgs g imgs' g' :
  EntityFlying3d.apply_guided_noise self imgs g = Ok (imgs', g') ->
  EntityFlying3d.guided_noise self <> None ->
  (4 <= List.length imgs)%nat.
Proof.
  unfold EntityFlying3d.apply_guided_noise. intros H Hn.
  destruct (EntityFlying3d.guided_noise self) as [gn|]; [|congruence].
  destruct (EntityFlying3d.noise_target self).
  - step H i2 H1. step H i0 H2. step H f0 H3. step H l1 S1.
    step H i3 H4. apply index_ok in H4.
    apply lift_setitem in S1. destruct S1 as [L1 _]. lia.
  - step H i0 H1. step H m0 H2. step H i2 H3. step H f2 H4. step H l1 S1.
    step H i1 H5. step H m1 H6. step H i3 H7. apply index_ok in H7.
    apply lift_setitem in S1. destruct S1 as [L1 _]. lia.
Qed.

Lemma gamma_noise_needs {ext : External} {ip : ImageProcess}
  (self : EntityFlying3d.t) imgs g imgs' g' :
  EntityFlying3d.apply_gamma_noise self imgs g = Ok (imgs', g') ->
  EntityFlying3d.gamma_noise self <> None ->
  (match EntityFlying3d.noise_target self with
   | EntityFlying3d.rgb => 2
   | EntityFlying3d.nir => 4
   end <= List.length imgs)%nat.
Proof.
  unfold EntityFlying3d.apply_gamma_noise. intros H Hn.
  destruct (EntityFlying3d.gamma_noise self) as [gm|]; [|congruence].
  destruct (EntityFlying3d.noise_target self); cbv iota beta in H;
    step H ia H1; step H ga H2; step H l1 S1; step H ib H3;
    apply index_ok in H3; apply lift_setitem in S1; destruct S1 as [L1 _];
    lia.
Qed.

(** X17. An access to a synthetic descriptor returns only if the descriptor
    has the image paths its noise settings subscript: four with guided-filter
    noise on either target or gamma noise on the NIR target, two with gamma
    noise on the color target alone.  With fewer paths every access raises. *)
Theorem noise_needs_its_images {ext : External} {ip : ImageProcess}
  (self : EntityFlying3d.t) (g : rng) :
  (List.length (EntityFlying3d.images self) < images_needed self)%nat ->
  exists e, EntityFlying3d.get_item self g = Raise e.
Proof.
  intros Hlt.
  destruct (EntityFlying3d.get_item self g) as [[out g']|e] eqn:H; [|eauto].
  exfalso. unfold EntityFlying3d.get_item in H.
  step H lft Hl. clear H. unfold EntityFlying3d.load_left in Hl.
  step Hl i1 H1. step Hl i2 H2. step Hl i3 H3. step Hl i4 H4. clear Hl.
  apply mapM_length in H1, H3.
  pose proof (guided_noise_frame _ _ _ _ _ H2) as [L2 _].
  pose proof (guided_noise_needs _ _ _ _ _ H2) as N2.
  pose proof (gamma_noise_needs _ _ _ _ _ H4) as N4.
  unfold images_needed in Hlt.
  destruct (EntityFlying3d.guided_noise self) as [gn|].
  - assert (4 <= List.length i1)%nat by (apply N2; discriminate). lia.
  - destruct (EntityFlying3d.gamma_noise self) as [gm|]; [|lia].
    assert (Hn : Some gm <> None) by discriminate. specialize (N4 Hn).
    destruct (EntityFlying3d.noise_target self); lia.
Qed.

Lemma noise_needs_its_images_witness :
  exists e,
    EntityFlying3d.get_item (ext := Fixture.ext) (ip := Fixture.ip)
      (EntityFlying3d.mk ["L.png"; "R.png"] ["D.pfm"; "D.pfm"]
         (Some 3) None false false EntityFlying3d.rgb 8 false None)
      (Fixture.replay []) = Raise e.
Proof.
  apply (noise_needs_its_images (ext := Fixture.ext) (ip := Fixture.ip)).
  cbn. lia.
Defined.


(** ** The ETH3D frames *)

Example dirname_ex1 : PosixPath.dirname "/bean/eth3d/stereo/f/im0.png" = "/bean/eth3d/stereo/f".
Proof. reflexivity. Qed.

Example dirname_ex2 : PosixPath.dirname "//a" = "//".
Proof. reflexivity. Qed.

Example dirname_ex3 : PosixPath.dirname "a//b" = "a".
Proof. reflexivity. Qed.

Example dirname_ex4 : PosixPath.dirname "im0.png" = "".
Proof. reflexivity. Qed.

Lemma has_sep_app (a b : string) :
  PosixPath.has_sep (a ++ b) = (PosixPath.has_sep a || PosixPath.has_sep b)%bool.
Proof.
  induction a as [|c a IH]; cbn [append PosixPath.has_sep]; [reflexivity|].
  rewrite IH. now rewrite orb_assoc.
Qed.

Lemma all_sep_app (a b : string) :
  PosixPath.all_sep (a ++ b) = (PosixPath.all_sep a && PosixPath.all_sep b)%bool.
Proof.
  induction a as [|c a IH]; cbn [append PosixPath.all_sep]; [reflexivity|].
  rewrite IH. now rewrite andb_assoc.
Qed.

Lemma head_of_no_sep (b : string) :
  PosixPath.has_sep b = false -> PosixPath.head_of b = "".
Proof.
  destruct b as [|c b]; [reflexivity|]. intros H.
  cbn [PosixPath.head_of]. now rewrite H.
Qed.

Lemma head_of_app (a b : string) :
  PosixPath.has_sep b = false ->
  PosixPath.head_of (a ++ "/" ++ b) = a ++ "/".
Proof.
  intros Hb. induction a as [|c a IH].
  - cbn. now rewrite head_of_no_sep.
  - change (String c a ++ "/" ++ b) with (String c (a ++ "/" ++ b)).
    cbn [PosixPath.head_of].
    replace (PosixPath.has_sep (String c (a ++ "/" ++ b))) with true.
    + rewrite IH. reflexivity.
    + cbn [PosixPath.has_sep]. rewrite has_sep_app. cbn.
      now rewrite !orb_true_r.
Qed.

Lemma entry_name_not_all_sep (n : string) :
  entry_name n -> PosixPath.all_sep n = false.
Proof.
  intros [Hne Hs]. destruct n as [|c n]; [congruence|].
  cbn [PosixPath.has_sep] in Hs. apply orb_false_iff in Hs.
  destruct Hs as [Hc _]. cbn [PosixPath.all_sep]. now rewrite Hc.
Qed.

Lemma rstrip_entry_name (n : string) :
  PosixPath.has_sep n = false -> PosixPath.rstrip_sep (n ++ "/") = n.
Proof.
  induction n as [|c n IH]; intros Hs; [reflexivity|].
  cbn [PosixPath.has_sep] in Hs. apply orb_false_iff in Hs.
  destruct Hs as [Hc Hn].
  change (String c n ++ "/") with (String c (n ++ "/")).
  cbn [PosixPath.rstrip_sep PosixPath.all_sep]. rewrite Hc. cbn [andb].
  now rewrite IH.
Qed.

Lemma rstrip_app (x n : string) :
  entry_name n -> PosixPath.rstrip_sep (x ++ n ++ "/") = x ++ n.
Proof.
  intros Hn. induction x as [|c x IH].
  - apply rstrip_entry_name, Hn.
  - change (String c x ++ n ++ "/") with (String c (x ++ n ++ "/")).
    cbn [PosixPath.rstrip_sep PosixPath.all_sep].
    rewrite !all_sep_app, (entry_name_not_all_sep n Hn).
    rewrite andb_false_l, !andb_false_r. now rewrite IH.
Qed.

Lemma append_assoc (a b c : string) : (a ++ b) ++ c = a ++ b ++ c.
Proof. induction a as [|x a IH]; cbn; [reflexivity|now rewrite IH]. Qed.

Lemma dirname_of_left_image (x n : string) :
  entry_name n ->
  PosixPath.dirname (x ++ n ++ "/" ++ "im0.png") = x ++ n.
Proof.
  intros Hn. unfold PosixPath.dirname.
  rewrite <- !append_assoc, (append_assoc x n "/").
  rewrite <- (append_assoc x n "/"), (append_assoc (x ++ n) "/" "im0.png").
  rewrite head_of_app by reflexivity.
  rewrite append_assoc.
  rewrite !all_sep_app, (entry_name_not_all_sep n Hn).
  rewrite andb_false_l, andb_false_r.
  replace (String.eqb (x ++ n ++ "/") "") with false.
  - apply rstrip_app, Hn.
  - symmetry. apply String.eqb_neq. destruct Hn as [Hne _].
    destruct x; [destruct n; [congruence|discriminate]|discriminate].
Qed.

Lemma endswith_cons (c : ascii) (r : string) :
  r <> "" -> endswith (String c r) "/" = endswith r "/".
Proof.
  destruct r as [|d r]; [congruence|]. intros _.
  unfold endswith. cbn [String.length Nat.leb andb Nat.sub].
  rewrite !Nat.sub_0_r. reflexivity.
Qed.

Lemma entry_name_no_trailing_sep (n : string) :
  entry_name n -> endswith n "/" = false.
Proof.
  intros [Hne Hs]. induction n as [|c n IH]; [congruence|].
  cbn [PosixPath.has_sep] in Hs. apply orb_false_iff in Hs.
  destruct Hs as [Hc Hn].
  destruct n as [|d n].
  - unfold endswith. cbn. unfold PosixPath.is_sep in Hc.
    rewrite Hc. reflexivity.
  - rewrite endswith_cons by discriminate. apply IH; [discriminate|exact Hn].
Qed.

Lemma no_trailing_sep_app (x n : string) :
  entry_name n -> endswith (x ++ n) "/" = false.
Proof.
  intros Hn. induction x as [|c x IH].
  - apply entry_name_no_trailing_sep, Hn.
  - change (String c x ++ n) with (String c (x ++ n)).
    rewrite endswith_cons; [exact IH|].
    destruct Hn as [Hne _]. destruct x; [exact Hne|discriminate].
Qed.

Lemma entry_name_not_absolute (n : string) :
  entry_name n -> startswith n "/" = false.
Proof.
  intros [Hne Hs]. destruct n as [|c n]; [congruence|].
  cbn [PosixPath.has_sep] in Hs. apply orb_false_iff in Hs.
  destruct Hs as [Hc _]. unfold startswith. cbn [String.prefix].
  unfold PosixPath.is_sep in Hc.
  destruct (ascii_dec "/" c) as [<-|Hd]; [discriminate Hc|reflexivity].
Qed.

Lemma left_image_path (n : string) :
  entry_name n ->
  path_join (path_join Ethe3dStereo.root n) "im0.png"
  = Ethe3dStereo.root ++ "/" ++ n ++ "/" ++ "im0.png".
Proof.
  intros Hn.
  assert (E : path_join Ethe3dStereo.root n = Ethe3dStereo.root ++ "/" ++ n).
  { unfold path_join. rewrite (entry_name_not_absolute n Hn). reflexivity. }
  rewrite E. unfold path_join at 1.
  change (startswith "im0.png" "/") with false. cbv iota.
  replace (endswith (Ethe3dStereo.root ++ "/" ++ n) "/") with false.
  2:{ symmetry. rewrite <- append_assoc. apply no_trailing_sep_app, Hn. }
  replace (String.eqb (Ethe3dStereo.root ++ "/" ++ n) "") with false
    by reflexivity.
  cbn [orb]. rewrite !append_assoc. reflexivity.
Qed.

Lemma frames_of_flat_map (fs : FileSystem.t) (names : list string) :
  Ethe3dStereo.frames_of fs names
  = flat_map
      (fun frame =>
         if FileSystem.exists_ fs
              (path_join (path_join Ethe3dStereo.root frame) "im0.png")
         then [Ethe3dEntity.mk
                 (PosixPath.dirname
                    (path_join (path_join Ethe3dStereo.root frame) "im0.png"))]
         else [])
      names.
Proof.
  unfold Ethe3dStereo.frames_of. cbv zeta.
  enough (G : forall acc,
             fold_left
               (fun frames frame =>
                  if FileSystem.exists_ fs
                       (path_join (path_join Ethe3dStereo.root frame) "im0.png")
                  then (frames
                        ++ [Ethe3dEntity.mk
                              (PosixPath.dirname
                                 (path_join (path_join Ethe3dStereo.root frame)
                                    "im0.png"))])%list
                  else frames) names acc
             = (acc
                ++ flat_map
                     (fun frame =>
                        if FileSystem.exists_ fs
                             (path_join (path_join Ethe3dStereo.root frame)
                                "im0.png")
                        then [Ethe3dEntity.mk
                                (PosixPath.dirname
                                   (path_join
                                      (path_join Ethe3dStereo.root frame)
                                      "im0.png"))]
                        else []) names)%list) by apply (G []).
  induction names as [|n names IH]; intros acc; cbn [fold_left flat_map].
  - symmetry. apply List.app_nil_r.
  - rewrite IH.
    destruct (FileSystem.exists_ fs _).
    + rewrite <- List.app_assoc. reflexivity.
    + reflexivity.
Qed.

(** X18. When [os.listdir] returns names that are not empty and hold no
    separator, the ETH3D constructor returns, from every generator, a
    rearrangement of one descriptor per listed name whose [im0.png] exists.
    The path of a descriptor is the directory of its name under the root,
    so that the left image an access reads is the file whose existence was
    checked. *)
Theorem eth3d_frames_are_the_existing_ones
  (listdir : string -> result (list string)) (fs : FileSystem.t)
  (names : list string) (g : rng) :
  listdir Ethe3dStereo.root = Ok names ->
  Forall entry_name names ->
  exists frames g',
    Ethe3dStereo.init listdir fs g = Ok (frames, g') /\
    Permutation frames
      (map (fun n => Ethe3dEntity.mk (Ethe3dStereo.root ++ "/" ++ n))
           (filter (fun n => FileSystem.exists_ fs
                               (Ethe3dStereo.root ++ "/" ++ n ++ "/" ++ "im0.png"))
                   names)) /\
    Forall (fun e => FileSystem.exists_ fs
                       (path_join (Ethe3dEntity.path e) "im0.png") = true)
           frames.
Proof.
  intros Hl Hn. unfold Ethe3dStereo.init. rewrite Hl.
  destruct (sample_all_perm (Ethe3dStereo.frames_of fs names) g)
    as (frames & g' & E & P).
  exists frames, g'. split; [exact E|].
  assert (F : Ethe3dStereo.frames_of fs names
              = map (fun n => Ethe3dEntity.mk (Ethe3dStereo.root ++ "/" ++ n))
                  (filter (fun n => FileSystem.exists_ fs
                             (Ethe3dStereo.root ++ "/" ++ n ++ "/" ++ "im0.png"))
                          names)).
  { rewrite frames_of_flat_map. clear E P Hl.
    induction Hn as [|n names Hn1 Hn IH]; [reflexivity|].
    cbn [flat_map filter]. rewrite IH.
    rewrite (left_image_path n Hn1).
    destruct (FileSystem.exists_ fs _); [|reflexivity].
    cbn [map app]. f_equal. f_equal.
    rewrite <- (append_assoc Ethe3dStereo.root "/" n).
    rewrite <- (append_assoc Ethe3dStereo.root "/" (n ++ "/" ++ "im0.png")).
    apply dirname_of_left_image, Hn1. }
  split; [now rewrite <- F|].
  rewrite F in P.
  apply Forall_forall. intros e He.
  apply (Permutation_in _ P) in He. apply in_map_iff in He.
  destruct He as (n & <- & Hin). apply filter_In in Hin.
  destruct Hin as [Hin Hex]. cbn [Ethe3dEntity.path].
  assert (Hn1 : entry_name n) by (eapply Forall_forall; eauto).
  pose proof (left_image_path n Hn1) as Lp.
  assert (E1 : path_join Ethe3dStereo.root n = Ethe3dStereo.root ++ "/" ++ n).
  { unfold path_join. rewrite (entry_name_not_absolute n Hn1). reflexivity. }
  rewrite E1 in Lp. rewrite Lp. exact Hex.
Qed.

Lemma eth3d_frames_are_the_existing_ones_witness :
  exists g',
    Ethe3dStereo.init two_frames_listdir two_frames_fs (Fixture.replay [])
    = Ok ([Ethe3dEntity.mk "/bean/eth3d/stereo/delivery_1l"], g').
Proof.
  destruct (eth3d_frames_are_the_existing_ones two_frames_listdir
              two_frames_fs ["delivery_1l"; "readme"] (Fixture.replay [])
              eq_refl)
    as (frames & g' & E & P & _).
  { repeat constructor; discriminate. }
  exists g'. rewrite E. do 2 f_equal.
  apply Permutation_sym, Permutation_length_1_inv in P. exact P.
Defined.

